(** * The 1234 duel server (src/index.js): model and checked properties

    A shallow embedding of the socket.io server of [src/index.js]: the
    scoring functions, the room registry, the per-mode matchmaking queues
    and every event handler, as state-passing functions over an explicit
    [server] state.  Sources of randomness and time ([nanoid],
    [Math.random], [Date.now]) are inputs of the events that consume them.

    Conventions.
    - Socket ids, room codes, names, secrets and guesses are strings; a
      payload field that may be missing is an [option string] ([None] is
      JavaScript's [undefined]/[null]).
    - JavaScript strings are modelled by [string] (one [ascii] per code
      unit), which is exact for the ASCII data the protocol works on
      (digit strings, nanoid codes, mode names).  [Js.trim] and
      [Js.toUpperCase] agree with JavaScript on ASCII strings only; a
      statement that fixes their result for text chosen by a client
      takes that text to be ASCII ([Js.ascii_only], [Js.ascii_opt]).
    - The [secret] of a set-secret event is a string.  The handler passes
      any value whose string form has four digits (a number, say) and
      stores it uncoerced; such payloads are outside the events of this
      model.
    - A room object lives in the registry under the key it was stored
      with; mutating the object is an update of the map at that key. *)

From Stdlib Require Import String Ascii List Arith Lia ZArith.
From stdpp Require Import base option list strings gmap fin_maps.

Local Open Scope string_scope.
Local Open Scope list_scope.

(** ** JavaScript primitives used by the handlers *)

Module Js.

(** Truthiness of a value that is a string, or [undefined]/[null]. *)
Definition truthy (v : option string) : bool :=
  match v with
  | Some s => negb (String.eqb s "")
  | None => false
  end.

(** [v || d] for a string-or-undefined [v] and a string default. *)
Definition or_else (v : option string) (d : string) : string :=
  match v with
  | Some s => if String.eqb s "" then d else s
  | None => d
  end.

(** [v || null]. *)
Definition or_null (v : option string) : option string :=
  if truthy v then v else None.

Definition upper_char (c : ascii) : ascii :=
  let n := nat_of_ascii c in
  if ((97 <=? n) && (n <=? 122))%nat then ascii_of_nat (n - 32) else c.

(** [s.toUpperCase()] on an ASCII string: the letters a..z are mapped,
    every other character is kept. *)
Fixpoint toUpperCase (s : string) : string :=
  match s with
  | EmptyString => EmptyString
  | String c r => String (upper_char c) (toUpperCase r)
  end.

Definition is_space (c : ascii) : bool :=
  let n := nat_of_ascii c in
  ((n =? 32) || ((9 <=? n) && (n <=? 13)))%nat.

Fixpoint trimStart (s : string) : string :=
  match s with
  | EmptyString => EmptyString
  | String c r => if is_space c then trimStart r else s
  end.

Definition rev_string (s : string) : string :=
  string_of_list_ascii (rev (list_ascii_of_string s)).

(** [s.trim()] on an ASCII string: the white space stripped is the
    space and the characters 9..13. *)
Definition trim (s : string) : string :=
  trimStart (rev_string (trimStart (rev_string s))).

(** [name?.trim() || d]. *)
Definition trimmed_or (name : option string) (d : string) : string :=
  or_else (trim <$> name) d.

Definition is_digit (c : ascii) : bool :=
  let n := nat_of_ascii c in ((48 <=? n) && (n <=? 57))%nat.

(** [/^\d{4}$/.test(s)]: exactly four characters, each in 0..9. *)
Definition test_4digits (s : string) : bool :=
  match list_ascii_of_string s with
  | [a; b; c; d] => is_digit a && is_digit b && is_digit c && is_digit d
  | _ => false
  end.

(** [s.split("")]. *)
Definition split (s : string) : list ascii := list_ascii_of_string s.

(** [s[i]]: [None] past the end. *)
Definition at_ (s : string) (i : nat) : option ascii := String.get i s.

(** [parts.join(sep)]. *)
Fixpoint join (sep : string) (parts : list string) : string :=
  match parts with
  | [] => ""
  | [p] => p
  | p :: rest => p +:+ sep +:+ join sep rest
  end.

(** [set.add(d)] on a [Set] kept in insertion order. *)
Definition set_add (d : ascii) (set : list ascii) : list ascii :=
  if bool_decide (d ∈ set) then set else set ++ [d].

(** The strings on which [trim] and [toUpperCase] above are those of
    JavaScript: every character is below 128. *)
Definition ascii_only (s : string) : bool :=
  forallb (fun c => (nat_of_ascii c <? 128)%nat) (list_ascii_of_string s).

Definition ascii_opt (v : option string) : bool :=
  match v with
  | Some s => ascii_only s
  | None => true
  end.

End Js.

(** ** Scoring engine *)

(** [countCorrectPositions]: the loop over i = 0..3 with [===] on the
    characters; two missing characters compare equal, as in JavaScript. *)
Definition countCorrectPositions (guess secret : string) : nat :=
  fold_left
    (fun c i => if bool_decide (Js.at_ guess i = Js.at_ secret i) then S c else c)
    (seq 0 4) 0.

(** [feedbackDigits]: the guessed digits that occur in the secret, each
    once, in order of first occurrence in the guess. *)
Definition feedbackDigits (guess secret : string) : list ascii :=
  let g := Js.split guess in
  let s := Js.split secret in
  fold_left (fun set d => if bool_decide (d ∈ s) then Js.set_add d set else set) g [].

(** [feedbackMask]: one mark per guessed character, joined by spaces. *)
Definition feedbackMask (guess secret : string) : string :=
  Js.join " "
    (imap (fun i d => if bool_decide (Some d = Js.at_ secret i) then "●" else "○")
          (Js.split guess)).

(** ** Data model *)

(** A plain JavaScript object used as a map from string keys: the keys in
    insertion order (no key of the program is an array index), assignment
    to an existing key keeps its place. *)
Module Obj.

Definition t (A : Type) : Type := list (string * A).

Definition get {A} (o : t A) (k : string) : option A :=
  snd <$> find (fun kv => String.eqb (fst kv) k) o.

Fixpoint set {A} (o : t A) (k : string) (v : A) : t A :=
  match o with
  | [] => [(k, v)]
  | (k', v') :: rest =>
      if String.eqb k' k then (k, v) :: rest else (k', v') :: set rest k v
  end.

Definition keys {A} (o : t A) : list string := map fst o.
Definition values {A} (o : t A) : list A := map snd o.

(** The property key an index expression [o[k]] uses when [k] may be
    [undefined]. *)
Definition key_of (k : option string) : string := default "undefined" k.

End Obj.

Module Player.
Record t := mk { name : string; secret : option string; ready : bool }.
End Player.

(** An entry of [room.history]. *)
Module Item.
Record t := mk {
  by_ : string;
  guess : string;
  correctCount : nat;
  ts : Z;
  feedbackDigits : option (list ascii);
  feedbackMask : option string
}.
End Item.

Module Room.
Record t := mk {
  code : string;
  mode : string;
  players : Obj.t Player.t;
  order : list string;
  turnIndex : nat;
  winner : option string;
  history : list Item.t
}.

Definition with_players (ps : Obj.t Player.t) (r : t) : t :=
  mk (code r) (mode r) ps (order r) (turnIndex r) (winner r) (history r).
Definition with_order (o : list string) (r : t) : t :=
  mk (code r) (mode r) (players r) o (turnIndex r) (winner r) (history r).
Definition with_turnIndex (n : nat) (r : t) : t :=
  mk (code r) (mode r) (players r) (order r) n (winner r) (history r).
Definition with_winner (w : option string) (r : t) : t :=
  mk (code r) (mode r) (players r) (order r) (turnIndex r) w (history r).
Definition with_history (h : list Item.t) (r : t) : t :=
  mk (code r) (mode r) (players r) (order r) (turnIndex r) (winner r) h.
End Room.

(** [socket.data] and the listeners a socket has for [queue:join]. *)
Module Socket.
Record data := mkData {
  roomCode : option string;
  queueMode : option string;
  playerName : option string
}.
Record t := mk { data_ : data; queueJoinListeners : nat }.

Definition with_roomCode (c : option string) (d : data) : data :=
  mkData c (queueMode d) (playerName d).
Definition with_queueMode (m : option string) (d : data) : data :=
  mkData (roomCode d) m (playerName d).
Definition with_playerName (n : option string) (d : data) : data :=
  mkData (roomCode d) (queueMode d) n.
Definition map_data (f : data -> data) (so : t) : t :=
  mk (f (data_ so)) (queueJoinListeners so).
Definition add_listener (so : t) : t :=
  mk (data_ so) (S (queueJoinListeners so)).

(** A socket as [io.on("connection")] leaves it: empty [data], and the
    listeners registered at connection time (none for [queue:join]). *)
Definition fresh : t := mk (mkData None None None) 0.
End Socket.

(** The server's mutable state: [rooms], [queues], [io.sockets.sockets]. *)
Record server := mkServer {
  rooms : gmap string Room.t;
  queues : gmap string (list string);
  sockets : gmap string Socket.t
}.

Definition with_rooms (r : gmap string Room.t) (s : server) : server :=
  mkServer r (queues s) (sockets s).
Definition with_queues (q : gmap string (list string)) (s : server) : server :=
  mkServer (rooms s) q (sockets s).
Definition with_sockets (k : gmap string Socket.t) (s : server) : server :=
  mkServer (rooms s) (queues s) k.

Definition init : server :=
  mkServer ∅
    (<["CLASSIC" := []]> (<["REVEAL_DIGITS" := []]> (<["REVEAL_POSITIONS" := []]> ∅)))
    ∅.

(** ** Outbound payloads *)

Module Public.
Record player := mkPlayer { id : string; name : string; ready : bool }.
Record room := mk {
  code : string;
  mode : string;
  players : list player;
  currentTurn : option string;
  winner : option string
}.
End Public.

Module Slim.
Record t := mk {
  by_ : string;
  guess : string;
  correctCount : nat;
  feedbackDigits : option (list ascii);
  feedbackMask : option string;
  ts : Z
}.
End Slim.

Inductive payload :=
| room_update (r : Public.room)
| history_update (h : list Slim.t)
| game_over (winner : string)
| room_reset (r : Public.room)
| room_destroyed (reason : string)
| error_msg (msg : string)
| queue_joined (mode : string)
| queue_matched (code mode : string)
| ack_code (code : string)
| ack_error (error : string)
| ack_ok.

(** An emission: the socket.io room (a room code or a socket id) it is
    addressed to, and the payload.  Acknowledgements are addressed to the
    calling socket. *)
Definition emit : Type := string * payload.

Definition publicRoom (room : Room.t) : Public.room :=
  Public.mk
    (Room.code room)
    (Room.mode room)
    (map (fun '(id, p) => Public.mkPlayer id (Player.name p) (Player.ready p))
         (Room.players room))
    (Js.or_null (Room.order room !! Room.turnIndex room))
    (Room.winner room).

Definition slimHistory (h : Item.t) : Slim.t :=
  Slim.mk (Item.by_ h) (Item.guess h) (Item.correctCount h)
          (Item.feedbackDigits h) (Item.feedbackMask h) (Item.ts h).

(** ** Queues and registry *)

(** [socket.data.f = v] on the socket [id] (nothing when it is gone). *)
Definition set_data (id : string) (f : Socket.data -> Socket.data) (s : server) : server :=
  with_sockets (alter (Socket.map_data f) id (sockets s)) s.

(** [socket.data?.f] of the socket [id]. *)
Definition get_data (id : string) (f : Socket.data -> option string) (s : server)
  : option string :=
  sockets s !! id ≫= (fun so => f (Socket.data_ so)).

(** [queues[mode] || []]. *)
Definition queue_of (mode : string) (s : server) : list string :=
  default [] (queues s !! mode).

Definition enqueue (mode socketId : string) (s : server) : server :=
  let q := queue_of mode s in
  with_queues
    (<[mode := if bool_decide (socketId ∈ q) then q else q ++ [socketId]]> (queues s)) s.

Definition dequeue (mode socketId : string) (s : server) : server :=
  let q := queue_of mode s in
  with_queues
    (<[mode := filter (fun id => id ≠ socketId) q]> (queues s)) s.

(** The loop of [popOpponent]: the first entry other than [exceptId] is
    spliced out of the queue and returned. *)
Fixpoint splice_first (exceptId : string) (q : list string) : option string * list string :=
  match q with
  | [] => (None, [])
  | x :: rest =>
      if bool_decide (x ≠ exceptId) then (Some x, rest)
      else let '(opp, rest') := splice_first exceptId rest in (opp, x :: rest')
  end.

Definition popOpponent (mode exceptId : string) (s : server) : option string * server :=
  match queues s !! mode with
  | None => (None, s)
  | Some q =>
      let '(opp, q') := splice_first exceptId q in
      (opp, with_queues (<[mode := q']> (queues s)) s)
  end.

Definition isInAnyQueue (id : string) (s : server) : bool :=
  bool_decide (map_Exists (fun _ q => id ∈ q) (queues s)).

(** [makeRoom(mode)], with the value [nano] that [nanoid(6)] returns. *)
Definition makeRoom (mode nano : string) (s : server) : Room.t * server :=
  let code := Js.toUpperCase nano in
  let room := Room.mk code mode [] [] 0 None [] in
  (room, with_rooms (<[code := room]> (rooms s)) s).

(** The seat whose turn it is, [room.order[room.turnIndex % room.order.length]];
    with an empty [order] the index is NaN and the entry [undefined]. *)
Definition turn_seat (room : Room.t) : option string :=
  match length (Room.order room) with
  | 0 => None
  | S _ as n => Room.order room !! (Room.turnIndex room mod n)
  end.

(** ** Event handlers

    Each handler takes the id [me] of the socket it is registered on, the
    payload, and the state; it returns the new state and the emissions in
    order. *)

(** The common prelude of create-room and join-room: leave the queue. *)
Definition leave_queue_first (me : string) (s : server) : server :=
  let qMode := get_data me Socket.queueMode s in
  if Js.truthy qMode
  then set_data me (Socket.with_queueMode None) (dequeue (default "" qMode) me s)
  else s.

Definition on_create_room (me : string) (name mode : option string) (nano : string)
    (s : server) : server * list emit :=
  let s := leave_queue_first me s in
  let '(room, s) := makeRoom (Js.toUpperCase (Js.or_else mode "CLASSIC")) nano s in
  let room :=
    Room.with_order (Room.order room ++ [me])
      (Room.with_players
         (Obj.set (Room.players room) me
            (Player.mk (Js.trimmed_or name "Player A") None false)) room) in
  let s := with_rooms (<[Room.code room := room]> (rooms s)) s in
  let s := set_data me (Socket.with_roomCode (Some (Room.code room))) s in
  (s, [(me, ack_code (Room.code room));
       (Room.code room, room_update (publicRoom room))]).

Definition on_join_room (me : string) (code name : option string)
    (s : server) : server * list emit :=
  let s := leave_queue_first me s in
  let key := Js.toUpperCase (Js.or_else code "") in
  match rooms s !! key with
  | None => (s, [(me, ack_error "Room not found")])
  | Some room =>
      if (2 <=? length (Obj.keys (Room.players room)))%nat
      then (s, [(me, ack_error "Room is full")])
      else
        let room :=
          Room.with_order (Room.order room ++ [me])
            (Room.with_players
               (Obj.set (Room.players room) me
                  (Player.mk (Js.trimmed_or name "Player B") None false)) room) in
        let s := with_rooms (<[key := room]> (rooms s)) s in
        let s := set_data me (Socket.with_roomCode (Some (Room.code room))) s in
        (s, [(me, ack_code (Room.code room));
             (Room.code room, room_update (publicRoom room))])
  end.

(** [coin] is the value of [Math.round(Math.random())], read only when the
    ready count is 2.  [secret] is the payload's field when it is a
    string, for which [/^\d{4}$/.test(secret)] is [Js.test_4digits]. *)
Definition on_set_secret (me code secret : string) (coin : bool)
    (s : server) : server * list emit :=
  match rooms s !! code with
  | None => (s, [])
  | Some room =>
      match Obj.get (Room.players room) me with
      | None => (s, [])
      | Some p =>
          if negb (Js.test_4digits secret) then (s, []) else
          let p := Player.mk (Player.name p) (Some secret) true in
          let room := Room.with_players (Obj.set (Room.players room) me p) room in
          let readyCount :=
            length (filter (fun pl => Player.ready pl = true)
                           (Obj.values (Room.players room))) in
          let room :=
            if ((readyCount =? 2) && (length (Room.order room) =? 2))%nat
            then Room.with_winner None (Room.with_turnIndex (Nat.b2n coin) room)
            else room in
          (with_rooms (<[code := room]> (rooms s)) s,
           [(code, room_update (publicRoom room))])
      end
  end.

(** The history entry built by the guess handler. *)
Definition make_item (room : Room.t) (me guess secret : string) (now : Z) : Item.t :=
  Item.mk me guess (countCorrectPositions guess secret) now
    (if String.eqb (Room.mode room) "REVEAL_DIGITS"
     then Some (feedbackDigits guess secret) else None)
    (if String.eqb (Room.mode room) "REVEAL_POSITIONS"
     then Some (feedbackMask guess secret) else None).

(** [now] is the value of [Date.now()].  A guess that is scored ends by
    registering one more [queue:join] listener on the guessing socket:
    the [socket.on("queue:join", ...)] call sits inside this handler. *)
Definition on_guess (me code guess : string) (now : Z)
    (s : server) : server * list emit :=
  match rooms s !! code with
  | None => (s, [])
  | Some room =>
      if Js.truthy (Room.winner room) then (s, []) else
      if negb (bool_decide (turn_seat room = Some me)) then (s, []) else
      if negb (Js.test_4digits guess)
      then (s, [(me, error_msg "Guess must be 4 digits.")]) else
      let opp := find (fun id => negb (String.eqb id me)) (Room.order room) in
      let oppPlayer := Obj.get (Room.players room) (Obj.key_of opp) in
      let oppSecret := oppPlayer ≫= Player.secret in
      if negb (Js.truthy oppSecret)
      then (s, [(me, error_msg "Opponent not ready yet.")]) else
      let secret := default "" oppSecret in
      let item := make_item room me guess secret now in
      let room := Room.with_history (Room.history room ++ [item]) room in
      let won := (Item.correctCount item =? 4)%nat in
      let room :=
        if won then Room.with_winner (Some me) room
        else Room.with_turnIndex
               ((Room.turnIndex room + 1) mod length (Room.order room)) room in
      let s := with_rooms (<[code := room]> (rooms s)) s in
      let s := with_sockets (alter Socket.add_listener me (sockets s)) s in
      (s, (if won then [(code, game_over me)] else [])
          ++ [(code, history_update (map slimHistory (Room.history room)));
              (code, room_update (publicRoom room))])
  end.

(** One listener of [queue:join].  [nano] is what [nanoid(6)] returns if
    the listener gets as far as [makeRoom]. *)
Definition queue_join_listener (me : string) (mode name : option string) (nano : string)
    (s : server) : server * list emit :=
  let mode := Js.toUpperCase (Js.or_else mode "CLASSIC") in
  match queues s !! mode with
  | None => (s, [(me, ack_error "Unknown mode")])
  | Some _ =>
      if Js.truthy (get_data me Socket.roomCode s)
      then (s, [(me, ack_error "Already in a room")]) else
      if isInAnyQueue me s
      then (s, [(me, ack_error "Already queued")]) else
      let s := set_data me (Socket.with_playerName (Some (Js.trimmed_or name "Player"))) s in
      let s := set_data me (Socket.with_queueMode (Some mode)) s in
      let s := enqueue mode me s in
      let out := [(me, ack_ok); (me, queue_joined mode)] in
      let '(opp, s) := popOpponent mode me s in
      if negb (Js.truthy opp) then (s, out) else
      let opponentId := default "" opp in
      let s := dequeue mode me s in
      match sockets s !! opponentId with
      | None => (enqueue mode me s, out)
      | Some oppSocket =>
          let '(room, s) := makeRoom mode nano s in
          let meName := Js.or_else (get_data me Socket.playerName s) "Player A" in
          let oppName :=
            Js.or_else (Socket.playerName (Socket.data_ oppSocket)) "Player B" in
          let ps := Obj.set (Room.players room) me (Player.mk meName None false) in
          let ps := Obj.set ps opponentId (Player.mk oppName None false) in
          let room :=
            Room.with_order (Room.order room ++ [me; opponentId])
              (Room.with_players ps room) in
          let s := with_rooms (<[Room.code room := room]> (rooms s)) s in
          let s := set_data me (Socket.with_roomCode (Some (Room.code room))) s in
          let s := set_data opponentId (Socket.with_roomCode (Some (Room.code room))) s in
          (s, out ++ [(me, queue_matched (Room.code room) mode);
                      (opponentId, queue_matched (Room.code room) mode);
                      (Room.code room, room_update (publicRoom room))])
      end
  end.

(** Delivering an event to a socket calls each registered listener in
    turn, on the state the previous one left. *)
Fixpoint run_listeners (n : nat) (f : server -> server * list emit)
    (s : server) : server * list emit :=
  match n with
  | 0 => (s, [])
  | S n' =>
      let '(s1, out1) := f s in
      let '(s2, out2) := run_listeners n' f s1 in
      (s2, out1 ++ out2)
  end.

Definition on_queue_join (me : string) (mode name : option string) (nano : string)
    (s : server) : server * list emit :=
  match sockets s !! me with
  | None => (s, [])
  | Some so =>
      run_listeners (Socket.queueJoinListeners so)
        (queue_join_listener me mode name nano) s
  end.

Definition on_queue_leave (me : string) (s : server) : server * list emit :=
  let mode := get_data me Socket.queueMode s in
  let s := if Js.truthy mode then dequeue (default "" mode) me s else s in
  (set_data me (Socket.with_queueMode None) s, [(me, ack_ok)]).

Definition destroyRoom (code reason : string) (s : server) : server * list emit :=
  match rooms s !! code with
  | None => (s, [])
  | Some room =>
      let s :=
        fold_left (fun s id => set_data id (Socket.with_roomCode None) s)
                  (Obj.keys (Room.players room)) s in
      (with_rooms (delete code (rooms s)) s, [(code, room_destroyed reason)])
  end.

Definition on_reset_room (code : string) (s : server) : server * list emit :=
  match rooms s !! code with
  | None => (s, [])
  | Some room =>
      if (length (Obj.keys (Room.players room)) <? 2)%nat
      then destroyRoom code "player-left" s
      else
        let ps :=
          map (fun '(id, p) => (id, Player.mk (Player.name p) None false))
              (Room.players room) in
        let room := Room.with_players ps room in
        let room := Room.with_history [] room in
        let room := Room.with_winner None room in
        let room :=
          Room.with_turnIndex
            (if (length (Room.order room) =? 2)%nat
             then (Room.turnIndex room + 1) mod 2 else 0) room in
        (with_rooms (<[code := room]> (rooms s)) s,
         [(code, room_update (publicRoom room));
          (code, room_reset (publicRoom room))])
  end.

Definition on_leave_room (me code : string) (s : server) : server * list emit :=
  match rooms s !! code with
  | None => (s, [])
  | Some room =>
      match Obj.get (Room.players room) me with
      | None => (s, [])
      | Some _ => destroyRoom code "player-left" s
      end
  end.

Definition on_disconnecting (me : string) (s : server) : server * list emit :=
  let qMode := get_data me Socket.queueMode s in
  let s := if Js.truthy qMode then dequeue (default "" qMode) me s else s in
  let code := get_data me Socket.roomCode s in
  if Js.truthy code && bool_decide (is_Some (rooms s !! default "" code))
  then destroyRoom (default "" code) "player-left" s
  else (s, []).

(** The [disconnect] listener sweeps every queue. *)
Definition on_disconnect (me : string) (s : server) : server :=
  fold_left (fun s m => dequeue m me s) (map fst (map_to_list (queues s))) s.

(** ** The server as a transition system *)

Inductive event :=
| ev_create_room (name mode : option string) (nano : string)
| ev_join_room (code name : option string)
| ev_set_secret (code secret : string) (coin : bool)
| ev_guess (code guess : string) (now : Z)
| ev_queue_join (mode name : option string) (nano : string)
| ev_queue_leave
| ev_reset_room (code : string)
| ev_leave_room (code : string)
| ev_disconnect.

(** What the server reacts to: a new connection, or an event from a
    connected socket. *)
Inductive input :=
| connection (id : string)
| message (id : string) (e : event).

Definition on_message (me : string) (e : event) (s : server) : server * list emit :=
  match e with
  | ev_create_room name mode nano => on_create_room me name mode nano s
  | ev_join_room code name => on_join_room me code name s
  | ev_set_secret code secret coin => on_set_secret me code secret coin s
  | ev_guess code guess now => on_guess me code guess now s
  | ev_queue_join mode name nano => on_queue_join me mode name nano s
  | ev_queue_leave => on_queue_leave me s
  | ev_reset_room code => on_reset_room code s
  | ev_leave_room code => on_leave_room me code s
  | ev_disconnect =>
      let '(s, out) := on_disconnecting me s in
      let s := on_disconnect me s in
      (with_sockets (delete me (sockets s)) s, out)
  end.

Definition step (i : input) (s : server) : server * list emit :=
  match i with
  | connection id =>
      match sockets s !! id with
      | None => (with_sockets (<[id := Socket.fresh]> (sockets s)) s, [])
      | Some _ => (s, [])
      end
  | message me e =>
      match sockets s !! me with
      | None => (s, [])
      | Some _ => on_message me e s
      end
  end.

Definition run (inputs : list input) (s : server) : server :=
  fold_left (fun s i => fst (step i s)) inputs s.

Inductive reachable : server -> Prop :=
| reachable_init : reachable init
| reachable_step i s : reachable s -> reachable (fst (step i s)).

(** ** The earlier server (src/unnamed/part_000)

    The earlier copy of the server has the same scoring functions,
    [makeRoom], [publicRoom] and [slimHistory], and the same room updates
    in create-room, join-room, set-secret and guess; it has no queues, no
    [socket.data] bookkeeping and no [destroyRoom].  Its reset-room
    handler differs: it resets whatever the number of players. *)
Module Legacy.

Definition on_reset_room (code : string) (s : server) : server * list emit :=
  match rooms s !! code with
  | None => (s, [])
  | Some room =>
      let ps :=
        map (fun '(id, p) => (id, Player.mk (Player.name p) None false))
            (Room.players room) in
      let room := Room.with_players ps room in
      let room := Room.with_history [] room in
      let room := Room.with_winner None room in
      let room :=
        Room.with_turnIndex
          (if (length (Room.order room) =? 2)%nat
           then (Room.turnIndex room + 1) mod 2 else 0) room in
      (with_rooms (<[code := room]> (rooms s)) s,
       [(code, room_update (publicRoom room));
        (code, room_reset (publicRoom room))])
  end.

End Legacy.

(** ** Predicates of the statements *)

(** A game in progress: two players, both with a committed secret and
    ready, two seats, no winner. *)
Definition active (room : Room.t) : Prop :=
  length (Room.players room) = 2
  /\ Forall (fun kv => Player.ready (snd kv) = true /\ is_Some (Player.secret (snd kv)))
            (Room.players room)
  /\ length (Room.order room) = 2
  /\ Room.winner room = None.

(** Some entry of the history scored 4. *)
Definition has_winning_guess (room : Room.t) : Prop :=
  exists h, h ∈ Room.history room /\ Item.correctCount h = 4.

(** A set winner is backed by a winning entry of the history, made by
    the winner. *)
Definition winner_justified (room : Room.t) : Prop :=
  forall w, Room.winner room = Some w ->
    exists h, h ∈ Room.history room /\ Item.correctCount h = 4 /\ Item.by_ h = w.

(** What every registered room satisfies: it is stored under its own
    code, and its winner is justified. *)
Definition room_ok (key : string) (room : Room.t) : Prop :=
  Room.code room = key /\ winner_justified room.

Definition rooms_ok (s : server) : Prop := map_Forall room_ok (rooms s).

(** Two players that differ at most in their secret, and two rooms that
    differ at most in their players' secrets. *)
Definition same_but_secret (p q : string * Player.t) : Prop :=
  fst p = fst q
  /\ Player.name (snd p) = Player.name (snd q)
  /\ Player.ready (snd p) = Player.ready (snd q).

Definition secret_variant (r1 r2 : Room.t) : Prop :=
  Room.code r1 = Room.code r2
  /\ Room.mode r1 = Room.mode r2
  /\ Forall2 same_but_secret (Room.players r1) (Room.players r2)
  /\ Room.order r1 = Room.order r2
  /\ Room.turnIndex r1 = Room.turnIndex r2
  /\ Room.winner r1 = Room.winner r2
  /\ Room.history r1 = Room.history r2.

(** The number of [queue:join] listeners of the socket [id], if connected. *)
Definition listeners_of (s : server) (id : string) : option nat :=
  Socket.queueJoinListeners <$> sockets s !! id.

(** Two players, both with a committed secret and ready, no winner;
    nothing is said of the seats in [order]. *)
Definition both_committed (room : Room.t) : Prop :=
  length (Room.players room) = 2
  /\ Forall (fun kv => Player.ready (snd kv) = true /\ is_Some (Player.secret (snd kv)))
            (Room.players room)
  /\ Room.winner room = None.

(** The statements that the code does not satisfy as worded. *)

(** A commit in a game in progress keeps [turnIndex]. *)
Definition recommit_keeps_turn : Prop :=
  forall s me code secret coin room room',
    reachable s ->
    rooms s !! code = Some room ->
    active room ->
    is_Some (Obj.get (Room.players room) me) ->
    rooms (fst (step (message me (ev_set_secret code secret coin)) s)) !! code
      = Some room' ->
    Room.turnIndex room' = Room.turnIndex room.

(** [winner] is set exactly when the history has a winning guess. *)
Definition winner_iff_winning_guess : Prop :=
  forall s code room,
    reachable s ->
    rooms s !! code = Some room ->
    (Room.winner room <> None <-> has_winning_guess room).


(** In a room of two players without a winner, an in-turn, well-formed
    guess against a committed secret that does not score 4 gives the turn
    to the other player. *)
Definition guess_passes_turn : Prop :=
  forall s me code g now room opp p sec room',
    reachable s ->
    rooms s !! code = Some room ->
    Room.winner room = None ->
    length (Room.players room) = 2 ->
    turn_seat room = Some me ->
    Js.test_4digits g = true ->
    find (fun id => negb (String.eqb id me)) (Room.order room) = Some opp ->
    Obj.get (Room.players room) opp = Some p ->
    Player.secret p = Some sec ->
    countCorrectPositions g sec <> 4 ->
    rooms (fst (step (message me (ev_guess code g now)) s)) !! code = Some room' ->
    turn_seat room' = Some opp.

(** ** Concrete states *)

(** A and B connect; A creates a room for which nanoid draws "abc123", B
    joins it; both commit a secret and the coin gives seat 0 the turn. *)
Definition duel_started : server :=
  run [connection "A"; connection "B";
       message "A" (ev_create_room (Some "ann") None "abc123");
       message "B" (ev_join_room (Some "abc123") (Some "bob"));
       message "A" (ev_set_secret "ABC123" "1234" false);
       message "B" (ev_set_secret "ABC123" "5678" false)] init.

Definition duel_room : Room.t :=
  Room.mk "ABC123" "CLASSIC"
    [("A", Player.mk "ann" (Some "1234") true);
     ("B", Player.mk "bob" (Some "5678") true)]
    ["A"; "B"] 0 None [].

(** A creates a room and joins it again before B joins: the join
    handler pushes the id on [order] at every join, so A has two seats.
    Both then commit a secret; with three seats the ready count of 2 does
    not draw the turn. *)
Definition self_joined : server :=
  run [connection "A"; connection "B";
       message "A" (ev_create_room (Some "ann") None "abc123");
       message "A" (ev_join_room (Some "abc123") (Some "ann"));
       message "B" (ev_join_room (Some "abc123") (Some "bob"));
       message "A" (ev_set_secret "ABC123" "1234" false);
       message "B" (ev_set_secret "ABC123" "5678" false)] init.

Definition self_joined_room : Room.t :=
  Room.mk "ABC123" "CLASSIC"
    [("A", Player.mk "ann" (Some "1234") true);
     ("B", Player.mk "bob" (Some "5678") true)]
    ["A"; "A"; "B"] 0 None [].

(** A then guesses B's secret. *)
Definition duel_won : server :=
  run [message "A" (ev_guess "ABC123" "5678" 1000%Z)] duel_started.

Definition winning_item : Item.t := Item.mk "A" "5678" 4 1000%Z None None.

Definition won_room : Room.t :=
  Room.with_winner (Some "A") (Room.with_history [winning_item] duel_room).

(** B then commits a secret again. *)
Definition duel_recommitted : server :=
  run [message "B" (ev_set_secret "ABC123" "0000" false)] duel_won.

(** C connects and creates a second room. *)
Definition two_rooms : server :=
  run [connection "C"; message "C" (ev_create_room None None "xyz789")] duel_started.

(** A room with A alone. *)
Definition solo : server :=
  run [connection "A"; message "A" (ev_create_room None None "abc123")] init.

Definition solo_room : Room.t :=
  Room.mk "ABC123" "CLASSIC" [("A", Player.mk "Player A" None false)] ["A"] 0 None [].

(** Two rooms equal up to the secrets. *)
Definition room_view1 : Room.t :=
  Room.mk "ABC123" "CLASSIC"
    [("A", Player.mk "ann" (Some "1234") true); ("B", Player.mk "bob" None false)]
    ["A"; "B"] 0 None [winning_item].

Definition room_view2 : Room.t :=
  Room.mk "ABC123" "CLASSIC"
    [("A", Player.mk "ann" (Some "9999") true);
     ("B", Player.mk "bob" (Some "0000") false)]
    ["A"; "B"] 0 None [winning_item].

(** Two sockets that have never guessed. *)
Definition two_idle : server := run [connection "A"; connection "B"] init.

(** A and B each make a scored guess, then A leaves and the room is
    destroyed. *)
Definition after_duel : server :=
  run [message "A" (ev_guess "ABC123" "0000" 1000%Z);
       message "B" (ev_guess "ABC123" "0000" 2000%Z);
       message "A" (ev_leave_room "ABC123")] duel_started.

Definition recommitted_room : Room.t :=
  Room.mk "ABC123" "CLASSIC"
    [("A", Player.mk "ann" (Some "1234") true);
     ("B", Player.mk "bob" (Some "0000") true)]
    ["A"; "B"] 0 None [winning_item].



Definition matched_room : Room.t :=
  Room.mk "R4T5Y6" "CLASSIC"
    [("B", Player.mk "Player" None false); ("A", Player.mk "Player" None false)]
    ["B"; "A"] 0 None [].

(** ** Further predicates and states *)

(** The three queue keys. *)
Definition modes : list string := ["CLASSIC"; "REVEAL_DIGITS"; "REVEAL_POSITIONS"].

(** The socket [id] is in no queue. *)
Definition not_waiting (s : server) (id : string) : Prop :=
  forall m q, queues s !! m = Some q -> id ∉ q.

(** What holds of a socket [id] that waits in the queue of [m]: it is
    connected, its [queueMode] is [m], and it has no [roomCode]. *)
Definition waits_properly (s : server) (m id : string) : Prop :=
  exists so, sockets s !! id = Some so
    /\ Socket.queueMode (Socket.data_ so) = Some m
    /\ Js.truthy (Socket.roomCode (Socket.data_ so)) = false.

(** The queue invariant: the keys of [queues] are the three modes, a
    [queueMode] is one of them, no queue has a duplicate, and whoever
    waits does so properly. *)
Definition queues_ok (s : server) : Prop :=
  (forall m, is_Some (queues s !! m) <-> m ∈ modes)
  /\ (forall id so m, sockets s !! id = Some so ->
        Socket.queueMode (Socket.data_ so) = Some m -> m ∈ modes)
  /\ (forall m q, queues s !! m = Some q ->
        NoDup q /\ forall id, id ∈ q -> waits_properly s m id).

(** How a handler outside the queue code may change a socket: it keeps
    [queueMode], and does not give a [roomCode] to a socket without one;
    a new socket has no [queueMode]. *)
Definition socket_kept (o o' : option Socket.t) : Prop :=
  match o, o' with
  | Some so, Some so' =>
      Socket.queueMode (Socket.data_ so') = Socket.queueMode (Socket.data_ so)
      /\ (Js.truthy (Socket.roomCode (Socket.data_ so)) = false ->
          Js.truthy (Socket.roomCode (Socket.data_ so')) = false)
  | None, Some so' => Socket.queueMode (Socket.data_ so') = None
  | Some _, None => False
  | None, None => True
  end.

(** A player's [ready] flag and secret go together, and a committed
    secret is a 4-digit string. *)
Definition player_wf (p : Player.t) : Prop :=
  match Player.secret p with
  | Some sec => Js.test_4digits sec = true /\ Player.ready p = true
  | None => Player.ready p = false
  end.

(** A history entry of [room]: a 4-digit guess by one of the seats, a
    score of at most 4, and the feedback field of the room's mode only. *)
Definition item_wf (room : Room.t) (h : Item.t) : Prop :=
  Js.test_4digits (Item.guess h) = true
  /\ Item.correctCount h <= 4
  /\ Item.by_ h ∈ Room.order room
  /\ (is_Some (Item.feedbackDigits h) <-> Room.mode room = "REVEAL_DIGITS")
  /\ (is_Some (Item.feedbackMask h) <-> Room.mode room = "REVEAL_POSITIONS").

(** The shape of a registered room. *)
Definition room_wf (room : Room.t) : Prop :=
  length (Room.players room) <= 2
  /\ NoDup (Obj.keys (Room.players room))
  /\ (forall id, id ∈ Room.order room <-> id ∈ Obj.keys (Room.players room))
  /\ Room.turnIndex room < length (Room.order room)
  /\ Forall (fun kv => player_wf (snd kv)) (Room.players room)
  /\ Forall (item_wf room) (Room.history room).

Definition rooms_wf (s : server) : Prop := map_Forall (fun _ r => room_wf r) (rooms s).

(** A waits in the CLASSIC queue. *)
Definition one_waiting : server :=
  run [message "A" (ev_queue_join (Some "classic") None "q1w2e3")] after_duel.

(** Payloads meant for the socket that sent the event: errors,
    acknowledgements and queue:joined. *)
Definition is_private (p : payload) : bool :=
  match p with
  | error_msg _ | ack_code _ | ack_error _ | ack_ok | queue_joined _ => true
  | _ => false
  end.

(** Every room registered in [s'] was registered in [s] or has the code
    [drawn]. *)
Definition adds_only (drawn : option string) (s s' : server) : Prop :=
  forall c, is_Some (rooms s' !! c) -> is_Some (rooms s !! c) \/ drawn = Some c.

(** The room code an input draws, if it carries a nanoid value. *)
Definition drawn_code (i : input) : option string :=
  match i with
  | message _ (ev_create_room _ _ nano) => Some (Js.toUpperCase nano)
  | message _ (ev_queue_join _ _ nano) => Some (Js.toUpperCase nano)
  | _ => None
  end.

(** A and B in a fresh room, nothing committed yet. *)
Definition duel_joined : server :=
  run [connection "A"; connection "B";
       message "A" (ev_create_room (Some "ann") None "abc123");
       message "B" (ev_join_room (Some "abc123") (Some "bob"))] init.

Definition joined_room : Room.t :=
  Room.mk "ABC123" "CLASSIC"
    [("A", Player.mk "ann" None false); ("B", Player.mk "bob" None false)]
    ["A"; "B"] 0 None [].

(** ** The earlier server's disconnect (src/unnamed/part_000)

    The earlier server keeps a room when a player disconnects: it takes
    the player out of every room, and deletes a room only when no player
    is left.  Its [rooms] Map is iterated in insertion order, so it is a
    list of entries here. *)
Module Earlier.

(** [delete o[k]]. *)
Definition obj_delete {A} (o : list (string * A)) (k : string) : Obj.t A :=
  filter (fun kv => fst kv <> k) o.

(** The room after [delete room.players[me]] and the filter of [order]. *)
Definition without_player (me : string) (room : Room.t) : Room.t :=
  Room.with_order (filter (fun x => x <> me) (Room.order room))
    (Room.with_players (obj_delete (Room.players room) me) room).

(** The [disconnect] handler: the rooms left, and the room-updates in the
    order of iteration. *)
Fixpoint on_disconnect (me : string) (rooms : list (string * Room.t))
  : list (string * Room.t) * list emit :=
  match rooms with
  | [] => ([], [])
  | (code, room) :: rest =>
      let '(rest', out) := on_disconnect me rest in
      match Obj.get (Room.players room) me with
      | None => ((code, room) :: rest', out)
      | Some _ =>
          let room := without_player me room in
          let out := (code, room_update (publicRoom room)) :: out in
          if (length (Obj.keys (Room.players room)) =? 0)%nat
          then (rest', out)
          else ((code, room) :: rest', out)
      end
  end.

End Earlier.

(** The number of hit marks in a list of marks of [feedbackMask]. *)
Definition hit_marks (marks : list string) : nat :=
  length (filter (fun m => m = "●") marks).

(** How a step may change the history of a room that stays registered
    under its code: extend it at the tail, or empty it. *)
Definition history_kept (s s' : server) : Prop :=
  forall c room room',
    rooms s !! c = Some room -> rooms s' !! c = Some room' ->
    Room.history room `prefix_of` Room.history room' \/ Room.history room' = [].

(** Every room of [s'] is a room of [s] or has an empty history. *)
Definition old_or_empty (s s' : server) : Prop :=
  forall c room',
    rooms s' !! c = Some room' ->
    rooms s !! c = Some room' \/ Room.history room' = [].

(** * Properties *)

Example countCorrectPositions_example : countCorrectPositions "1111" "1123" = 2.
Proof. reflexivity. Qed.

Example feedbackMask_example : feedbackMask "1111" "1123" = "● ● ○ ○".
Proof. reflexivity. Qed.

Example trim_example : Js.trim "  ab c " = "ab c".
Proof. reflexivity. Qed.

Example toUpperCase_example : Js.toUpperCase "aZ_-9x" = "AZ_-9X".
Proof. reflexivity. Qed.

(** ** Scoring *)

Lemma test_4digits_shape (s : string) :
  Js.test_4digits s = true ->
  exists a b c d, s = String a (String b (String c (String d EmptyString))).
Proof.
  unfold Js.test_4digits.
  destruct s as [|a [|b [|c [|d [|e s]]]]]; simpl; try discriminate.
  intros _. by exists a, b, c, d.
Qed.

Lemma test_4digits_truthy (s : string) :
  Js.test_4digits s = true -> Js.truthy (Some s) = true.
Proof. destruct s; [discriminate|done]. Qed.

Lemma countCorrectPositions_unfold a b c d a' b' c' d' :
  countCorrectPositions
    (String a (String b (String c (String d EmptyString))))
    (String a' (String b' (String c' (String d' EmptyString))))
  = Nat.b2n (bool_decide (a = a')) + Nat.b2n (bool_decide (b = b'))
    + Nat.b2n (bool_decide (c = c')) + Nat.b2n (bool_decide (d = d')).
Proof.
  unfold countCorrectPositions, Js.at_. simpl.
  repeat case_bool_decide; simplify_eq; simpl; try reflexivity; congruence.
Qed.

(** C5. For 4-digit strings [guess] and [secret],
    [countCorrectPositions guess secret] is 4 exactly when the two
    strings are equal. *)
Theorem countCorrectPositions_4_iff_equal (guess secret : string) :
  Js.test_4digits guess = true ->
  Js.test_4digits secret = true ->
  countCorrectPositions guess secret = 4 <-> guess = secret.
Proof.
  intros Hg Hs.
  destruct (test_4digits_shape _ Hg) as (a & b & c & d & ->).
  destruct (test_4digits_shape _ Hs) as (a' & b' & c' & d' & ->).
  rewrite countCorrectPositions_unfold.
  split.
  - repeat case_bool_decide; simpl; intros; subst; try reflexivity; lia.
  - intros [= -> -> -> ->].
    rewrite !bool_decide_eq_true_2 by reflexivity. reflexivity.
Qed.

Lemma countCorrectPositions_4_iff_equal_witness :
  Js.test_4digits "5678" = true /\
  (countCorrectPositions "5678" "5678" = 4 <-> "5678" = "5678").
Proof.
  split; [reflexivity|].
  apply (countCorrectPositions_4_iff_equal "5678" "5678"); reflexivity.
Defined.

(** The loop of [feedbackDigits] keeps its set duplicate-free and within
    the secret's digits. *)
Lemma feedbackDigits_loop (s g acc : list ascii) :
  NoDup acc ->
  (forall d, d ∈ acc -> d ∈ s) ->
  let r :=
    fold_left (fun set d => if bool_decide (d ∈ s) then Js.set_add d set else set)
              g acc in
  NoDup r /\ forall d, d ∈ r -> d ∈ s.
Proof.
  revert acc. induction g as [|x g IH]; intros acc Hnd Hsub; simpl.
  - done.
  - apply IH.
    + case_bool_decide; [|done]. unfold Js.set_add. case_bool_decide; [done|].
      apply NoDup_app. split_and!; [done| |apply NoDup_singleton].
      intros y Hy Hy'. apply list_elem_of_singleton in Hy'. by subst.
    + intros d. case_bool_decide; [|by auto]. unfold Js.set_add.
      case_bool_decide; [by auto|].
      rewrite elem_of_app, list_elem_of_singleton. intros [?| ->]; auto.
Qed.

(** C8. [feedbackDigits guess secret] has no duplicate digit and each of
    its digits occurs in [secret] (for all strings, so for 4-digit ones);
    for secret "1123" and guess "1111" it is exactly the digit 1, and
    [countCorrectPositions "1111" "1123"] is 2. *)
Theorem feedbackDigits_set_of_secret_digits :
  (forall guess secret : string,
      NoDup (feedbackDigits guess secret) /\
      forall d, d ∈ feedbackDigits guess secret -> d ∈ Js.split secret) /\
  feedbackDigits "1111" "1123" = ["1"%char] /\
  countCorrectPositions "1111" "1123" = 2.
Proof.
  split; [|split; reflexivity].
  intros guess secret. unfold feedbackDigits.
  apply feedbackDigits_loop; [apply NoDup_nil_2|].
  intros d Hd. by apply elem_of_nil in Hd.
Qed.

(** ** Outbound summaries *)

(** C10. The room-update payload ([publicRoom]) and the history-update
    payload ([slimHistory] over the history) are the same for two rooms
    that differ only in the players' secrets. *)
Theorem summaries_hide_secrets (r1 r2 : Room.t) :
  secret_variant r1 r2 ->
  publicRoom r1 = publicRoom r2 /\
  map slimHistory (Room.history r1) = map slimHistory (Room.history r2).
Proof.
  intros (Hc & Hm & Hp & Ho & Ht & Hw & Hh). split.
  - unfold publicRoom. rewrite Hc, Hm, Ho, Ht, Hw. f_equal.
    induction Hp as [|[i p] [j q] ps qs (Hi & Hn & Hr) _ IH]; simpl in *; [done|].
    by rewrite Hi, Hn, Hr, IH.
  - by rewrite Hh.
Qed.

Lemma summaries_hide_secrets_witness :
  secret_variant room_view1 room_view2 /\
  publicRoom room_view1 = publicRoom room_view2 /\
  map slimHistory (Room.history room_view1)
  = map slimHistory (Room.history room_view2).
Proof.
  assert (secret_variant room_view1 room_view2) as H.
  { repeat split; simpl; try reflexivity. repeat constructor. }
  exact (conj H (summaries_hide_secrets room_view1 room_view2 H)).
Defined.

(** ** Runs *)

Lemma reachable_run (inputs : list input) (s : server) :
  reachable s -> reachable (run inputs s).
Proof.
  revert s. induction inputs as [|i inputs IH]; intros s Hs; simpl; [done|].
  apply IH. by constructor.
Qed.

Lemma duel_started_reachable : reachable duel_started.
Proof. apply reachable_run, reachable_init. Qed.

Lemma duel_started_room : rooms duel_started !! "ABC123" = Some duel_room.
Proof. vm_compute. reflexivity. Qed.

Lemma duel_room_active : active duel_room.
Proof.
  repeat split; simpl; try reflexivity.
  repeat constructor; simpl; eauto.
Qed.

(** ** The guess handler *)

Lemma on_guess_out_of_turn s me code g now room :
  rooms s !! code = Some room ->
  turn_seat room <> Some me ->
  on_guess me code g now s = (s, []).
Proof.
  intros Hr Ht. unfold on_guess. rewrite Hr.
  destruct (Js.truthy (Room.winner room)); [done|].
  by rewrite bool_decide_eq_false_2.
Qed.

(** C7. A guess whose sender is not the socket at
    [order[turnIndex mod order.length]] of the target room changes
    nothing: the whole server state is as before, so the room's history,
    turnIndex and winner are. *)
Theorem out_of_turn_guess_changes_nothing s me code g now room :
  rooms s !! code = Some room ->
  turn_seat room <> Some me ->
  let s' := fst (step (message me (ev_guess code g now)) s) in
  s' = s /\
  exists room', rooms s' !! code = Some room'
    /\ Room.history room' = Room.history room
    /\ Room.turnIndex room' = Room.turnIndex room
    /\ Room.winner room' = Room.winner room.
Proof.
  intros Hr Ht s'.
  assert (s' = s) as Hs.
  { unfold s'. simpl. destruct (sockets s !! me); [|done].
    simpl. by rewrite (on_guess_out_of_turn _ _ _ _ _ _ Hr Ht). }
  split; [done|]. rewrite Hs. by exists room.
Qed.

Lemma out_of_turn_guess_changes_nothing_witness :
  rooms duel_started !! "ABC123" = Some duel_room /\
  turn_seat duel_room <> Some "B" /\
  let s' := fst (step (message "B" (ev_guess "ABC123" "1234" 7%Z)) duel_started) in
  s' = duel_started /\
  exists room', rooms s' !! "ABC123" = Some room'
    /\ Room.history room' = Room.history duel_room
    /\ Room.turnIndex room' = Room.turnIndex duel_room
    /\ Room.winner room' = Room.winner duel_room.
Proof.
  assert (rooms duel_started !! "ABC123" = Some duel_room) as H1
    by (vm_compute; reflexivity).
  assert (turn_seat duel_room <> Some "B") as H2 by (vm_compute; discriminate).
  exact (conj H1 (conj H2
    (out_of_turn_guess_changes_nothing duel_started "B" "ABC123" "1234" 7%Z
       duel_room H1 H2))).
Defined.

(** In a two-seat order, the seat after the guesser's is the opponent
    that the guess handler looks up. *)
Lemma next_seat_is_opponent (order : list string) (t : nat) (me opp : string) :
  length order = 2 ->
  order !! (t mod 2) = Some me ->
  find (fun id => negb (String.eqb id me)) order = Some opp ->
  order !! (((t + 1) mod 2) mod 2) = Some opp /\ opp <> me.
Proof.
  intros Hlen Hme Hopp.
  destruct order as [|x [|y [|z o]]]; simpl in Hlen; try lia.
  assert (opp <> me) as Hne.
  { apply find_some in Hopp as [_ Hopp].
    apply negb_true_iff, String.eqb_neq in Hopp. done. }
  split; [|done].
  assert (t mod 2 = 0 \/ t mod 2 = 1) as [H0|H1]
    by (pose proof (Nat.mod_upper_bound t 2); lia).
  - rewrite H0 in Hme. simpl in Hme. injection Hme as ->.
    simpl in Hopp. rewrite String.eqb_refl in Hopp. simpl in Hopp.
    destruct (String.eqb y me); simpl in Hopp; [discriminate|].
    injection Hopp as ->.
    replace (((t + 1) mod 2) mod 2) with 1; [done|].
    rewrite Nat.Div0.mod_mod. rewrite Nat.Div0.add_mod, H0. done.
  - rewrite H1 in Hme. simpl in Hme. injection Hme as ->.
    simpl in Hopp. destruct (String.eqb x me) eqn:Hx; simpl in Hopp.
    + rewrite String.eqb_refl in Hopp. discriminate.
    + injection Hopp as ->.
      replace (((t + 1) mod 2) mod 2) with 0; [done|].
      rewrite Nat.Div0.mod_mod. rewrite Nat.Div0.add_mod, H1. done.
Qed.

(** C6, as worded, fails: A creates a room, joins it again, B joins,
    both commit.  The room has the two players A and B and the order
    [A; A; B] with turnIndex 0.  A's in-turn guess 0000 scores 0 against
    5678; turnIndex becomes 1, which is A's second seat, so the turn
    does not go to B. *)
Lemma self_join_keeps_turn : ~ guess_passes_turn.
Proof.
  intros H.
  specialize (H self_joined "A" "ABC123" "0000" 7%Z self_joined_room "B"
                (Player.mk "bob" (Some "5678") true) "5678"
                (Room.with_turnIndex 1
                   (Room.with_history [Item.mk "A" "0000" 0 7%Z None None]
                      self_joined_room))).
  discriminate H.
  - apply reachable_run, reachable_init.
  - vm_compute. reflexivity.
  - reflexivity.
  - reflexivity.
  - reflexivity.
  - reflexivity.
  - reflexivity.
  - reflexivity.
  - reflexivity.
  - vm_compute. discriminate.
  - vm_compute. reflexivity.
Qed.

(** C6, amended. An in-turn, well-formed guess in a winner-free room,
    against a committed opponent secret: when it does not score 4,
    turnIndex becomes [(turnIndex + 1) mod order.length] and no winner is
    set, and when [order] has exactly two seats this is the opponent's
    seat; when it scores 4, turnIndex is unchanged and the guesser is the
    winner. *)
Theorem guess_turn_alternation s me code g now room so opp p sec :
  sockets s !! me = Some so ->
  rooms s !! code = Some room ->
  Room.winner room = None ->
  turn_seat room = Some me ->
  Js.test_4digits g = true ->
  find (fun id => negb (String.eqb id me)) (Room.order room) = Some opp ->
  Obj.get (Room.players room) opp = Some p ->
  Player.secret p = Some sec ->
  Js.test_4digits sec = true ->
  let s' := fst (step (message me (ev_guess code g now)) s) in
  exists room', rooms s' !! code = Some room' /\
    if (countCorrectPositions g sec =? 4)%nat
    then Room.turnIndex room' = Room.turnIndex room
         /\ Room.winner room' = Some me
    else Room.turnIndex room' = (Room.turnIndex room + 1) mod length (Room.order room)
         /\ Room.winner room' = None
         /\ (length (Room.order room) = 2 ->
             turn_seat room' = Some opp /\ opp <> me).
Proof.
  intros Hso Hr Hw Hturn Hg Hopp Hp Hsec Hs4 s'.
  unfold s'. simpl. rewrite Hso. simpl. unfold on_guess.
  rewrite Hr, Hw. simpl.
  rewrite (bool_decide_eq_true_2 _ Hturn). simpl.
  rewrite Hg. simpl. rewrite Hopp. simpl. rewrite Hp. simpl. rewrite Hsec.
  rewrite (test_4digits_truthy _ Hs4). simpl.
  destruct (countCorrectPositions g sec =? 4)%nat eqn:Hc; simpl.
  - eexists. rewrite lookup_insert_eq. split; [reflexivity|]. done.
  - eexists. rewrite lookup_insert_eq. split; [reflexivity|]. simpl.
    split; [done|]. split; [done|]. intros Hlen.
    unfold turn_seat in *. simpl. rewrite Hlen in *.
    destruct (next_seat_is_opponent _ _ _ _ Hlen Hturn Hopp) as [H1 H2].
    done.
Qed.

Lemma guess_turn_alternation_witness :
  let s' := fst (step (message "A" (ev_guess "ABC123" "5178" 7%Z)) duel_started) in
  exists room', rooms s' !! "ABC123" = Some room' /\
    if (countCorrectPositions "5178" "5678" =? 4)%nat
    then Room.turnIndex room' = Room.turnIndex duel_room
         /\ Room.winner room' = Some "A"
    else Room.turnIndex room'
         = (Room.turnIndex duel_room + 1) mod length (Room.order duel_room)
         /\ Room.winner room' = None
         /\ (length (Room.order duel_room) = 2 ->
             turn_seat room' = Some "B" /\ "B" <> "A").
Proof.
  apply (guess_turn_alternation duel_started "A" "ABC123" "5178" 7%Z duel_room
           (Socket.mk (Socket.mkData (Some "ABC123") None None) 0)
           "B" (Player.mk "bob" (Some "5678") true) "5678");
    vm_compute; reflexivity.
Defined.

(** ** Committing a secret *)

Lemma obj_set_length {A} (o : Obj.t A) k v :
  is_Some (Obj.get o k) -> length (Obj.set o k v) = length o.
Proof.
  unfold Obj.get. induction o as [|[k' v'] o IH]; simpl.
  - intros [? ?]. discriminate.
  - destruct (String.eqb k' k); simpl; [done|]. intros H. by rewrite IH.
Qed.

Lemma obj_set_Forall {A} (P : string * A -> Prop) (o : Obj.t A) k v :
  Forall P o -> P (k, v) -> Forall P (Obj.set o k v).
Proof.
  intros Ho Hkv. induction Ho as [|[k' v'] o Hx Ho IH]; simpl.
  - by constructor.
  - destruct (String.eqb k' k); by constructor.
Qed.

Lemma ready_count_all (ps : Obj.t Player.t) :
  Forall (fun kv => Player.ready (snd kv) = true) ps ->
  length (filter (fun pl => Player.ready pl = true) (Obj.values ps)) = length ps.
Proof.
  induction 1 as [|[k p] ps Hp _ IH]; simpl; [done|].
  simpl in Hp. rewrite filter_cons_True by done. simpl. by rewrite IH.
Qed.

(** C2, as worded, fails: in the started duel (turnIndex 0) A commits
    again, the coin falls on 1, and turnIndex is 1 afterwards. *)
Lemma recommit_redraws_turn : ~ recommit_keeps_turn.
Proof.
  intros H.
  specialize (H duel_started "A" "ABC123" "1234" true duel_room
                (Room.with_turnIndex 1 duel_room)).
  discriminate H.
  - apply duel_started_reachable.
  - apply duel_started_room.
  - apply duel_room_active.
  - by eexists.
  - vm_compute. reflexivity.
Qed.

(** C2, amended. In a room of two players who have both committed and
    without a winner, a set-secret by one of the two with a well-formed
    secret leaves the ready count at 2.  When [order] has exactly two
    seats it assigns turnIndex the value drawn at that commit (0 or 1)
    and leaves winner unset; when [order] has another length, turnIndex
    and winner are as before.  With a malformed secret nothing changes. *)
Theorem recommit_in_active_game s me code secret coin room so :
  sockets s !! me = Some so ->
  rooms s !! code = Some room ->
  both_committed room ->
  is_Some (Obj.get (Room.players room) me) ->
  let s' := fst (step (message me (ev_set_secret code secret coin)) s) in
  if Js.test_4digits secret
  then exists room', rooms s' !! code = Some room'
         /\ Room.winner room' = None
         /\ Room.turnIndex room'
            = if (length (Room.order room) =? 2)%nat
              then Nat.b2n coin else Room.turnIndex room
  else s' = s.
Proof.
  intros Hso Hr (Hn & Hall & Hw) [p Hp] s'.
  unfold s'. simpl. rewrite Hso. simpl. unfold on_set_secret.
  rewrite Hr, Hp.
  destruct (Js.test_4digits secret) eqn:Ht; simpl; [|done].
  set (ps := Obj.set (Room.players room) me
               (Player.mk (Player.name p) (Some secret) true)).
  assert (length (filter (fun pl => Player.ready pl = true) (Obj.values ps)) = 2)
    as ->.
  { rewrite ready_count_all.
    - unfold ps. rewrite obj_set_length by eauto. done.
    - unfold ps. apply obj_set_Forall; [|done].
      eapply Forall_impl; [exact Hall|]. by intros ? [? ?]. }
  destruct (length (Room.order room) =? 2)%nat; simpl;
    eexists; rewrite lookup_insert_eq; (split; [reflexivity|]); done.
Qed.

Lemma recommit_in_active_game_witness :
  both_committed duel_room /\
  let s' :=
    fst (step (message "A" (ev_set_secret "ABC123" "4321" true)) duel_started) in
  if Js.test_4digits "4321"
  then exists room', rooms s' !! "ABC123" = Some room'
         /\ Room.winner room' = None
         /\ Room.turnIndex room'
            = if (length (Room.order duel_room) =? 2)%nat
              then Nat.b2n true else Room.turnIndex duel_room
  else s' = duel_started.
Proof.
  assert (both_committed duel_room) as Hc.
  { destruct duel_room_active as (H1 & H2 & _ & H4). by repeat split. }
  split; [exact Hc|].
  apply (recommit_in_active_game duel_started "A" "ABC123" "4321" true duel_room
           (Socket.mk (Socket.mkData (Some "ABC123") None None) 0)).
  - vm_compute. reflexivity.
  - vm_compute. reflexivity.
  - exact Hc.
  - simpl. eauto.
Defined.

(** With A seated twice the same commit draws nothing: turnIndex stays
    0 whatever the coin. *)
Example recommit_with_three_seats :
  rooms self_joined !! "ABC123" = Some self_joined_room
  /\ both_committed self_joined_room
  /\ Room.turnIndex <$>
       rooms (fst (step (message "A" (ev_set_secret "ABC123" "4321" true))
                     self_joined)) !! "ABC123"
     = Some 0.
Proof.
  split; [vm_compute; reflexivity|]. split; [|vm_compute; reflexivity].
  repeat split; simpl; try reflexivity.
  repeat constructor; simpl; eauto.
Qed.

(** ** Reset and destruction *)

Lemma rooms_clear_roomCodes (ids : list string) (s : server) :
  rooms (fold_left (fun s id => set_data id (Socket.with_roomCode None) s) ids s)
  = rooms s.
Proof.
  revert s. induction ids as [|i ids IH]; intros s; simpl; [done|]. by rewrite IH.
Qed.

Lemma rooms_destroyRoom (code reason : string) (s : server) :
  rooms (fst (destroyRoom code reason s)) = delete code (rooms s).
Proof.
  unfold destroyRoom. destruct (rooms s !! code) eqn:H; simpl.
  - by rewrite rooms_clear_roomCodes.
  - symmetry. by apply delete_id.
Qed.

(** C9. A reset-room event for a room with fewer than 2 players removes
    the room from the registry: looking its code up afterwards fails. *)
Theorem reset_below_two_players_destroys s me code room so :
  sockets s !! me = Some so ->
  rooms s !! code = Some room ->
  length (Obj.keys (Room.players room)) < 2 ->
  rooms (fst (step (message me (ev_reset_room code)) s)) !! code = None.
Proof.
  intros Hso Hr Hlt. simpl. rewrite Hso. simpl.
  unfold on_reset_room. rewrite Hr.
  apply Nat.ltb_lt in Hlt. rewrite Hlt.
  rewrite rooms_destroyRoom. apply lookup_delete_eq.
Qed.

Lemma reset_below_two_players_destroys_witness :
  rooms solo !! "ABC123" = Some solo_room /\
  length (Obj.keys (Room.players solo_room)) < 2 /\
  rooms (fst (step (message "A" (ev_reset_room "ABC123")) solo)) !! "ABC123" = None.
Proof.
  assert (rooms solo !! "ABC123" = Some solo_room) as H1 by (vm_compute; reflexivity).
  assert (length (Obj.keys (Room.players solo_room)) < 2) as H2 by (simpl; lia).
  assert (sockets solo !! "A"
          = Some (Socket.mk (Socket.mkData (Some "ABC123") None None) 0)) as H0
    by (vm_compute; reflexivity).
  exact (conj H1 (conj H2
    (reset_below_two_players_destroys solo "A" "ABC123" solo_room _ H0 H1 H2))).
Defined.

(** The earlier server's reset keeps a room with fewer than 2 players
    registered. *)
Lemma legacy_reset_keeps_room s code room :
  rooms s !! code = Some room ->
  is_Some (rooms (fst (Legacy.on_reset_room code s)) !! code).
Proof.
  intros Hr. unfold Legacy.on_reset_room. rewrite Hr. simpl.
  rewrite lookup_insert_eq. eauto.
Qed.

(** ** Registry invariant *)

Lemma winner_justified_None room : Room.winner room = None -> winner_justified room.
Proof. intros H w Hw. congruence. Qed.

Lemma rooms_leave_queue_first me s : rooms (leave_queue_first me s) = rooms s.
Proof. unfold leave_queue_first. by destruct (Js.truthy _). Qed.

Lemma rooms_popOpponent mode me s : rooms (snd (popOpponent mode me s)) = rooms s.
Proof.
  unfold popOpponent. destruct (queues s !! mode) as [q|]; [|done].
  by destruct (splice_first me q).
Qed.

Lemma rooms_sweep me (ms : list string) s :
  rooms (fold_left (fun s m => dequeue m me s) ms s) = rooms s.
Proof.
  revert s. induction ms as [|m ms IH]; intros s; simpl; [done|]. by rewrite IH.
Qed.

Lemma rooms_ok_insert key room s s' :
  rooms_ok s -> room_ok key room -> rooms s' = <[key := room]> (rooms s) ->
  rooms_ok s'.
Proof. unfold rooms_ok. intros Hs Hr ->. by apply map_Forall_insert_2. Qed.

Lemma rooms_ok_same s s' : rooms_ok s -> rooms s' = rooms s -> rooms_ok s'.
Proof. unfold rooms_ok. by intros Hs ->. Qed.

Lemma rooms_ok_destroyRoom code reason s :
  rooms_ok s -> rooms_ok (fst (destroyRoom code reason s)).
Proof.
  unfold rooms_ok. rewrite rooms_destroyRoom. intros H. by apply map_Forall_delete.
Qed.


Lemma rooms_ok_create_room me name mode nano s :
  rooms_ok s -> rooms_ok (fst (on_create_room me name mode nano s)).
Proof.
  intros Hs. unfold on_create_room, makeRoom. simpl.
  unfold rooms_ok. simpl. rewrite rooms_leave_queue_first.
  apply map_Forall_insert_2; [|by apply map_Forall_insert_2].
  split; [done|]. by apply winner_justified_None.
Qed.

Lemma rooms_ok_join_room me code name s :
  rooms_ok s -> rooms_ok (fst (on_join_room me code name s)).
Proof.
  intros Hs. unfold on_join_room.
  assert (rooms_ok (leave_queue_first me s)) as Hs'
    by (eapply rooms_ok_same; [exact Hs|apply rooms_leave_queue_first]).
  destruct (rooms (leave_queue_first me s) !! _) as [room|] eqn:Hr; [|done].
  destruct (2 <=? _)%nat; [done|]. simpl.
  eapply rooms_ok_insert; [exact Hs'| |reflexivity].
  destruct (Hs' _ _ Hr) as [Hc Hw]. split; [done|]. exact Hw.
Qed.

Lemma rooms_ok_set_secret me code secret coin s :
  rooms_ok s -> rooms_ok (fst (on_set_secret me code secret coin s)).
Proof.
  intros Hs. unfold on_set_secret.
  destruct (rooms s !! code) as [room|] eqn:Hr; [|done].
  destruct (Obj.get _ me) as [p|]; [|done].
  destruct (Js.test_4digits secret); [|done]. simpl.
  destruct (Hs _ _ Hr) as [Hc Hw].
  eapply rooms_ok_insert; [exact Hs| |reflexivity].
  destruct (_ && _); (split; [done|]).
  - by apply winner_justified_None.
  - exact Hw.
Qed.

Lemma rooms_ok_guess me code g now s :
  rooms_ok s -> rooms_ok (fst (on_guess me code g now s)).
Proof.
  intros Hs. unfold on_guess.
  destruct (rooms s !! code) as [room|] eqn:Hr; [|done].
  destruct (Js.truthy (Room.winner room)); [done|].
  destruct (negb (bool_decide _)); [done|].
  destruct (negb (Js.test_4digits g)); [done|].
  destruct (negb (Js.truthy _)); [done|].
  destruct (Hs _ _ Hr) as [Hc Hw].
  match goal with
  | |- context [make_item ?r ?m ?g ?x ?n] => set (item := make_item r m g x n)
  end.
  eapply rooms_ok_insert; [exact Hs| |reflexivity].
  destruct (Item.correctCount item =? 4)%nat eqn:Hi; (split; [done|]).
  - intros w [= <-]. exists item. simpl.
    rewrite elem_of_app, list_elem_of_singleton.
    apply Nat.eqb_eq in Hi. auto.
  - intros w Hw'. simpl in Hw'. destruct (Hw _ Hw') as (h & Hh & H4 & Hb).
    exists h. simpl. rewrite elem_of_app. auto.
Qed.

Lemma rooms_ok_queue_join_listener me mode name nano s :
  rooms_ok s -> rooms_ok (fst (queue_join_listener me mode name nano s)).
Proof.
  intros Hs. unfold queue_join_listener.
  destruct (queues s !! _); [|done].
  destruct (Js.truthy (get_data me Socket.roomCode s)); [done|].
  destruct (isInAnyQueue me s); [done|].
  match goal with
  | |- context [popOpponent ?m ?e ?x] =>
      pose proof (rooms_popOpponent m e x) as Hpop;
      destruct (popOpponent m e x) as [opp s1]
  end.
  simpl in Hpop.
  destruct (negb (Js.truthy opp)).
  { simpl. eapply rooms_ok_same; [exact Hs|done]. }
  destruct (sockets (dequeue _ me s1) !! _) as [oppSocket|].
  - simpl. unfold rooms_ok. simpl. rewrite Hpop.
    apply map_Forall_insert_2; [|by apply map_Forall_insert_2].
    split; [done|]. by apply winner_justified_None.
  - simpl. eapply rooms_ok_same; [exact Hs|done].
Qed.

Lemma rooms_ok_run_listeners n f s :
  (forall s, rooms_ok s -> rooms_ok (fst (f s))) ->
  rooms_ok s -> rooms_ok (fst (run_listeners n f s)).
Proof.
  intros Hf. revert s. induction n as [|n IH]; intros s Hs; simpl; [done|].
  specialize (Hf s Hs). destruct (f s) as [s1 o1]. simpl in Hf.
  specialize (IH s1 Hf). destruct (run_listeners n f s1). done.
Qed.

Lemma rooms_ok_reset_room code s :
  rooms_ok s -> rooms_ok (fst (on_reset_room code s)).
Proof.
  intros Hs. unfold on_reset_room.
  destruct (rooms s !! code) as [room|] eqn:Hr; [|done].
  destruct (_ <? 2)%nat; [by apply rooms_ok_destroyRoom|]. simpl.
  destruct (Hs _ _ Hr) as [Hc Hw].
  eapply rooms_ok_insert; [exact Hs| |reflexivity].
  split; [done|]. by apply winner_justified_None.
Qed.

Lemma rooms_ok_message me e s : rooms_ok s -> rooms_ok (fst (on_message me e s)).
Proof.
  intros Hs. destruct e; simpl.
  - by apply rooms_ok_create_room.
  - by apply rooms_ok_join_room.
  - by apply rooms_ok_set_secret.
  - by apply rooms_ok_guess.
  - unfold on_queue_join. destruct (sockets s !! me); [|done].
    apply rooms_ok_run_listeners; [|done].
    intros. by apply rooms_ok_queue_join_listener.
  - unfold on_queue_leave. eapply rooms_ok_same; [exact Hs|].
    simpl. by destruct (Js.truthy _).
  - by apply rooms_ok_reset_room.
  - unfold on_leave_room. destruct (rooms s !! code); [|done].
    destruct (Obj.get _ me); [|done]. by apply rooms_ok_destroyRoom.
  - assert (rooms_ok (fst (on_disconnecting me s))) as H.
    { unfold on_disconnecting.
      set (s1 := if Js.truthy _ then _ else s).
      assert (rooms_ok s1) as H1.
      { eapply rooms_ok_same; [exact Hs|]. unfold s1. by destruct (Js.truthy _). }
      destruct (_ && _); [by apply rooms_ok_destroyRoom|done]. }
    destruct (on_disconnecting me s) as [s1 o1]. simpl in *.
    eapply rooms_ok_same; [exact H|]. simpl. unfold on_disconnect. apply rooms_sweep.
Qed.

Lemma rooms_ok_init : rooms_ok init.
Proof. unfold rooms_ok. simpl. apply map_Forall_empty. Qed.

Lemma reachable_rooms_ok s : reachable s -> rooms_ok s.
Proof.
  induction 1 as [|i s Hs IH]; [apply rooms_ok_init|].
  destruct i as [id|me e]; simpl.
  - destruct (sockets s !! id); done.
  - destruct (sockets s !! me); [|done]. by apply rooms_ok_message.
Qed.

(** C3, as worded, fails: after A's winning guess B commits a secret
    again; both players are ready, so winner is cleared, while the
    history still holds the guess that scored 4. *)
Lemma winner_cleared_with_winning_guess : ~ winner_iff_winning_guess.
Proof.
  intros H.
  assert (reachable duel_recommitted) as Hreach
    by (repeat apply reachable_run; apply reachable_init).
  assert (rooms duel_recommitted !! "ABC123" = Some recommitted_room) as Hroom
    by (vm_compute; reflexivity).
  destruct (H _ _ _ Hreach Hroom) as [_ Hback].
  apply Hback; [|reflexivity].
  exists winning_item. split; [|reflexivity].
  simpl. apply list_elem_of_singleton. reflexivity.
Qed.

(** C3, amended. In every reachable state, a room whose winner is set
    has in its history a guess by the winner that scored 4.  (The
    converse is what a commit with both players ready breaks.) *)
Theorem winner_implies_winning_guess s code room w :
  reachable s ->
  rooms s !! code = Some room ->
  Room.winner room = Some w ->
  exists h, h ∈ Room.history room /\ Item.correctCount h = 4 /\ Item.by_ h = w.
Proof.
  intros Hs Hr Hw. destruct (reachable_rooms_ok s Hs _ _ Hr) as [_ H]. by apply H.
Qed.

Lemma winner_implies_winning_guess_witness :
  rooms duel_won !! "ABC123" = Some won_room /\
  Room.winner won_room = Some "A" /\
  exists h, h ∈ Room.history won_room /\ Item.correctCount h = 4 /\ Item.by_ h = "A".
Proof.
  assert (rooms duel_won !! "ABC123" = Some won_room) as H1
    by (vm_compute; reflexivity).
  assert (reachable duel_won) as H0
    by (repeat apply reachable_run; apply reachable_init).
  exact (conj H1 (conj eq_refl
    (winner_implies_winning_guess duel_won "ABC123" won_room "A" H0 H1 eq_refl))).
Defined.

(** ** Room codes *)

Lemma reachable_code_is_key s key room :
  reachable s -> rooms s !! key = Some room -> Room.code room = key.
Proof. intros Hs Hr. by destruct (reachable_rooms_ok s Hs _ _ Hr). Qed.


(** The colliding room replaces the live one: after C's create-room the
    registry still has one room, ABC123, now with C as its only player,
    while A's socket still points at that code. *)
Example colliding_create_replaces_room :
  let s :=
    run [connection "C"; message "C" (ev_create_room None None "abc123")]
        duel_started in
  size (rooms s) = 1
  /\ (Obj.keys ∘ Room.players <$> rooms s !! "ABC123") = Some ["C"]
  /\ get_data "A" Socket.roomCode s = Some "ABC123".
Proof. vm_compute. auto. Qed.



(** ** Matchmaking *)

(** A socket without a [queue:join] listener does not react to the
    event. *)
Lemma queue_join_without_listener s me mode name nano so :
  sockets s !! me = Some so ->
  Socket.queueJoinListeners so = 0 ->
  step (message me (ev_queue_join mode name nano)) s = (s, []).
Proof.
  intros Hso H0. simpl. rewrite Hso. simpl. unfold on_queue_join.
  by rewrite Hso, H0.
Qed.

(** A socket has no [queue:join] listener when it connects. *)
Lemma connection_has_no_listener s id :
  sockets s !! id = None ->
  Socket.queueJoinListeners <$> sockets (fst (step (connection id) s)) !! id = Some 0.
Proof. intros H. simpl. rewrite H. simpl. by rewrite lookup_insert_eq. Qed.

(** *** The listener count

    Only a scored guess of its own gives a socket a listener. *)

Lemma listeners_alter_data (m : gmap string Socket.t) id' f id :
  Socket.queueJoinListeners <$> alter (Socket.map_data f) id' m !! id
  = Socket.queueJoinListeners <$> m !! id.
Proof.
  destruct (decide (id' = id)) as [->|Hne].
  - rewrite lookup_alter_eq. by destruct (m !! id).
  - by rewrite lookup_alter_ne.
Qed.

Lemma listeners_set_data id' f s id :
  listeners_of (set_data id' f s) id = listeners_of s id.
Proof.
  unfold listeners_of, set_data. cbn [sockets with_sockets].
  destruct (decide (id' = id)) as [->|Hne].
  - rewrite lookup_alter_eq. by destruct (sockets s !! id).
  - by rewrite lookup_alter_ne.
Qed.

Lemma listeners_same_sockets s s' id :
  sockets s' = sockets s -> listeners_of s' id = listeners_of s id.
Proof. unfold listeners_of. by intros ->. Qed.

Lemma listeners_leave_queue_first me s id :
  listeners_of (leave_queue_first me s) id = listeners_of s id.
Proof.
  unfold leave_queue_first. destruct (Js.truthy _); [|done].
  by rewrite listeners_set_data.
Qed.

Lemma listeners_clear_roomCodes ids s id :
  listeners_of
    (fold_left (fun s id => set_data id (Socket.with_roomCode None) s) ids s) id
  = listeners_of s id.
Proof.
  revert s. induction ids as [|i ids IH]; intros s; simpl; [done|].
  by rewrite IH, listeners_set_data.
Qed.

Lemma listeners_destroyRoom code reason s id :
  listeners_of (fst (destroyRoom code reason s)) id = listeners_of s id.
Proof.
  unfold destroyRoom. destruct (rooms s !! code); [|done]. simpl.
  rewrite <- (listeners_clear_roomCodes (Obj.keys (Room.players t)) s id).
  by apply listeners_same_sockets.
Qed.

Lemma sockets_popOpponent mode me s : sockets (snd (popOpponent mode me s)) = sockets s.
Proof.
  unfold popOpponent. destruct (queues s !! mode) as [q|]; [|done].
  by destruct (splice_first me q).
Qed.

Lemma listeners_queue_join_listener me mode name nano s id :
  listeners_of (fst (queue_join_listener me mode name nano s)) id = listeners_of s id.
Proof.
  unfold queue_join_listener.
  destruct (queues s !! _); [|done].
  destruct (Js.truthy (get_data me Socket.roomCode s)); [done|].
  destruct (isInAnyQueue me s); [done|].
  match goal with
  | |- context [popOpponent ?m ?e ?x] =>
      pose proof (sockets_popOpponent m e x) as Hpop;
      destruct (popOpponent m e x) as [opp s1]
  end.
  cbn [snd] in Hpop.
  assert (listeners_of s1 id = listeners_of s id) as H1.
  { rewrite (listeners_same_sockets _ _ _ Hpop).
    unfold listeners_of, enqueue, set_data. cbn [sockets with_queues with_sockets].
    by rewrite !listeners_alter_data. }
  destruct (negb (Js.truthy opp)); [done|].
  destruct (sockets (dequeue _ me s1) !! _) as [oppSocket|]; [|done].
  simpl. rewrite !listeners_set_data. done.
Qed.

Lemma listeners_run_listeners n f s id :
  (forall s, listeners_of (fst (f s)) id = listeners_of s id) ->
  listeners_of (fst (run_listeners n f s)) id = listeners_of s id.
Proof.
  intros Hf. revert s. induction n as [|n IH]; intros s; simpl; [done|].
  specialize (Hf s). destruct (f s) as [s1 o1]. simpl in Hf.
  specialize (IH s1). destruct (run_listeners n f s1). simpl in *. congruence.
Qed.

Lemma listeners_on_guess me code g now s id :
  id <> me -> listeners_of (fst (on_guess me code g now s)) id = listeners_of s id.
Proof.
  intros Hne. unfold on_guess.
  destruct (rooms s !! code) as [room|]; [|done].
  destruct (Js.truthy (Room.winner room)); [done|].
  destruct (negb (bool_decide _)); [done|].
  destruct (negb (Js.test_4digits g)); [done|].
  destruct (negb (Js.truthy _)); [done|].
  unfold listeners_of. simpl. by rewrite lookup_alter_ne.
Qed.

(** X27. Only a guess of its own changes a connected socket's number of
    [queue:join] listeners. *)
Lemma listeners_only_by_own_guess me e s id :
  (forall code g now, id = me -> e <> ev_guess code g now) ->
  e <> ev_disconnect ->
  listeners_of (fst (on_message me e s)) id = listeners_of s id.
Proof.
  intros Hg Hd. destruct e; simpl; try done.
  - unfold on_create_room. simpl. rewrite listeners_set_data.
    rewrite <- (listeners_leave_queue_first me s id). done.
  - unfold on_join_room.
    destruct (rooms (leave_queue_first me s) !! _) as [room|];
      [|apply listeners_leave_queue_first].
    destruct (2 <=? _)%nat; [apply listeners_leave_queue_first|]. simpl.
    rewrite listeners_set_data. apply listeners_leave_queue_first.
  - unfold on_set_secret. destruct (rooms s !! code) as [room|]; [|done].
    destruct (Obj.get _ me); [|done]. by destruct (Js.test_4digits secret).
  - destruct (decide (id = me)) as [->|Hne].
    + by specialize (Hg code guess now eq_refl).
    + by apply listeners_on_guess.
  - unfold on_queue_join. destruct (sockets s !! me); [|done].
    apply listeners_run_listeners. intros. apply listeners_queue_join_listener.
  - unfold on_queue_leave. simpl. rewrite listeners_set_data.
    by destruct (Js.truthy _).
  - unfold on_reset_room. destruct (rooms s !! code) as [room|]; [|done].
    destruct (_ <? 2)%nat; [apply listeners_destroyRoom|done].
  - unfold on_leave_room. destruct (rooms s !! code) as [room|]; [|done].
    destruct (Obj.get _ me); [|done]. apply listeners_destroyRoom.
Qed.

(** *** The listener body *)

Lemma not_in_any_queue id s m q :
  isInAnyQueue id s = false -> queues s !! m = Some q -> id ∉ q.
Proof.
  unfold isInAnyQueue. intros H Hq Hin.
  apply bool_decide_eq_false in H. apply H. by exists m, q.
Qed.

Lemma toUpperCase_nonempty (s : string) : s <> "" -> Js.toUpperCase s <> "".
Proof. destruct s; [done|]. intros _. simpl. discriminate. Qed.

Lemma truthy_Some (s : string) : s <> "" -> Js.truthy (Some s) = true.
Proof. intros H. simpl. apply negb_true_iff. by apply String.eqb_neq. Qed.

Lemma filter_drop_last (me : string) (rest : list string) :
  me ∉ rest -> filter (fun id => id <> me) (rest ++ [me]) = rest.
Proof.
  intros H. rewrite filter_app. rewrite filter_cons_False by (intros ?; done).
  rewrite filter_nil, app_nil_r.
  induction rest as [|x rest IH]; [done|].
  apply not_elem_of_cons in H as [Hx Hr].
  rewrite filter_cons_True by done. by rewrite IH.
Qed.

Lemma queue_join_listener_pairs s me opp rest mode name nano so oso :
  let M := Js.toUpperCase (Js.or_else mode "CLASSIC") in
  sockets s !! me = Some so ->
  sockets s !! opp = Some oso ->
  opp <> me -> opp <> "" ->
  Js.truthy (Socket.roomCode (Socket.data_ so)) = false ->
  isInAnyQueue me s = false ->
  queues s !! M = Some (opp :: rest) ->
  let s' := fst (queue_join_listener me mode name nano s) in
  let C := Js.toUpperCase nano in
  exists room,
    rooms s' = <[C := room]> (rooms s)
    /\ Room.code room = C
    /\ Room.order room = [me; opp]
    /\ Obj.keys (Room.players room) = [me; opp]
    /\ queues s' = <[M := rest]> (queues s)
    /\ get_data me Socket.roomCode s' = Some C
    /\ get_data opp Socket.roomCode s' = Some C.
Proof.
  intros M Hme Hopp Hne Hnz Hroom Hq HM s' C.
  pose proof (not_in_any_queue _ _ _ _ Hq HM) as Hnotin.
  apply not_elem_of_cons in Hnotin as [Hne' Hrest].
  unfold s', queue_join_listener. fold M. rewrite HM.
  assert (get_data me Socket.roomCode s = Socket.roomCode (Socket.data_ so)) as ->
    by (unfold get_data; by rewrite Hme).
  rewrite Hroom, Hq.
  unfold enqueue, queue_of. simpl. rewrite HM. simpl.
  rewrite bool_decide_eq_false_2
    by (intros Hin; apply elem_of_cons in Hin as [?|?]; done).
  unfold popOpponent. simpl. rewrite lookup_insert_eq. simpl.
  rewrite bool_decide_eq_true_2 by done.
  rewrite (truthy_Some _ Hnz). simpl.
  unfold dequeue, queue_of. simpl. rewrite lookup_insert_eq. simpl.
  rewrite !lookup_alter_ne by done. rewrite Hopp. simpl.
  rewrite filter_drop_last by done.
  assert (String.eqb me opp = false) as Eqb by (by apply String.eqb_neq).
  cbn [Obj.set Room.players]. rewrite Eqb.
  eexists. split_and!.
  - by rewrite insert_insert_eq.
  - reflexivity.
  - reflexivity.
  - reflexivity.
  - by rewrite !insert_insert_eq.
  - unfold get_data, set_data. cbn [sockets with_rooms with_queues with_sockets].
    rewrite lookup_alter_ne by done.
    rewrite !lookup_alter_eq, Hme. done.
  - unfold get_data, set_data. cbn [sockets with_rooms with_queues with_sockets].
    rewrite lookup_alter_eq.
    rewrite !lookup_alter_ne by done. rewrite Hopp. done.
Qed.

Lemma queue_join_listener_in_room s me mode name nano :
  is_Some (queues s !! Js.toUpperCase (Js.or_else mode "CLASSIC")) ->
  Js.truthy (get_data me Socket.roomCode s) = true ->
  fst (queue_join_listener me mode name nano s) = s.
Proof.
  intros [q Hq] Hroom. unfold queue_join_listener. by rewrite Hq, Hroom.
Qed.

Lemma run_listeners_idle n f s :
  fst (f s) = s -> fst (run_listeners n f s) = s.
Proof.
  intros Hf. induction n as [|n IH]; simpl; [done|].
  destruct (f s) as [s1 o1]. simpl in Hf. subst s1.
  destruct (run_listeners n f s). done.
Qed.

Lemma queue_join_pairs_when_registered s me opp rest mode name nano so oso :
  let M := Js.toUpperCase (Js.or_else mode "CLASSIC") in
  sockets s !! me = Some so ->
  sockets s !! opp = Some oso ->
  0 < Socket.queueJoinListeners so ->
  opp <> me -> opp <> "" -> nano <> "" ->
  Js.truthy (Socket.roomCode (Socket.data_ so)) = false ->
  isInAnyQueue me s = false ->
  queues s !! M = Some (opp :: rest) ->
  let s' := fst (step (message me (ev_queue_join mode name nano)) s) in
  let C := Js.toUpperCase nano in
  exists room,
    rooms s' = <[C := room]> (rooms s)
    /\ Room.code room = C
    /\ Room.order room = [me; opp]
    /\ Obj.keys (Room.players room) = [me; opp]
    /\ queues s' = <[M := rest]> (queues s)
    /\ get_data me Socket.roomCode s' = Some C
    /\ get_data opp Socket.roomCode s' = Some C.
Proof.
  intros M Hme Hopp Hn Hne Hnz Hnano Hroom Hq HM s' C.
  destruct (queue_join_listener_pairs s me opp rest mode name nano so oso
              Hme Hopp Hne Hnz Hroom Hq HM)
    as (room & Hrooms & Hcode & Hord & Hkeys & Hqs & Hrc & Hrc').
  exists room.
  assert (s' = fst (queue_join_listener me mode name nano s)) as ->; [|done].
  unfold s'. simpl. rewrite Hme. simpl. unfold on_queue_join. rewrite Hme.
  destruct (Socket.queueJoinListeners so) as [|n]; [lia|]. simpl.
  destruct (queue_join_listener me mode name nano s) as [s1 o1] eqn:E1.
  simpl in *.
  pose proof (run_listeners_idle n (queue_join_listener me mode name nano) s1) as Hidle.
  destruct (run_listeners n _ s1) as [s2 o2]. simpl in *.
  apply Hidle. apply queue_join_listener_in_room.
  - fold M. rewrite Hqs, lookup_insert_eq. eauto.
  - rewrite Hrc. apply truthy_Some. by apply toUpperCase_nonempty.
Qed.

Lemma queue_join_listener_queued s me mode name nano :
  isInAnyQueue me s = true ->
  fst (queue_join_listener me mode name nano s) = s.
Proof.
  intros Hq. unfold queue_join_listener.
  destruct (queues s !! _); [|done].
  destruct (Js.truthy _); [done|]. by rewrite Hq.
Qed.

Lemma queue_join_listener_waits s me mode name nano so :
  let M := Js.toUpperCase (Js.or_else mode "CLASSIC") in
  sockets s !! me = Some so ->
  Js.truthy (Socket.roomCode (Socket.data_ so)) = false ->
  isInAnyQueue me s = false ->
  queues s !! M = Some [] ->
  let s' := fst (queue_join_listener me mode name nano s) in
  rooms s' = rooms s
  /\ queues s' = <[M := [me]]> (queues s)
  /\ (forall id, id <> me -> sockets s' !! id = sockets s !! id)
  /\ (exists so', sockets s' !! me = Some so'
        /\ Socket.roomCode (Socket.data_ so') = Socket.roomCode (Socket.data_ so)
        /\ Socket.queueJoinListeners so' = Socket.queueJoinListeners so).
Proof.
  intros M Hme Hroom Hq HM s'.
  unfold s', queue_join_listener. fold M. rewrite HM.
  assert (get_data me Socket.roomCode s = Socket.roomCode (Socket.data_ so)) as ->
    by (unfold get_data; by rewrite Hme).
  rewrite Hroom, Hq.
  unfold enqueue, queue_of. simpl. rewrite HM. simpl.
  unfold popOpponent. simpl. rewrite lookup_insert_eq. simpl.
  rewrite bool_decide_eq_false_2 by (intros Hin; by apply Hin).
  simpl. split_and!.
  - reflexivity.
  - by rewrite insert_insert_eq.
  - intros id Hid. by rewrite !lookup_alter_ne.
  - rewrite !lookup_alter_eq, Hme. simpl. eauto.
Qed.

Lemma in_queue_after_insert id m q s s' :
  queues s' = <[m := q]> (queues s) -> id ∈ q -> isInAnyQueue id s' = true.
Proof.
  intros Hqs Hin. unfold isInAnyQueue. apply bool_decide_eq_true.
  exists m, q. by rewrite Hqs, lookup_insert_eq.
Qed.

Lemma not_in_queue_after_insert id m q s s' :
  queues s' = <[m := q]> (queues s) -> id ∉ q ->
  isInAnyQueue id s = false -> isInAnyQueue id s' = false.
Proof.
  intros Hqs Hin H. unfold isInAnyQueue in *.
  apply bool_decide_eq_false in H. apply bool_decide_eq_false.
  intros (m' & q' & Hl & Hin'). rewrite Hqs in Hl.
  destruct (decide (m = m')) as [->|Hne].
  - rewrite lookup_insert_eq in Hl. by simplify_eq.
  - rewrite lookup_insert_ne in Hl by done. apply H. by exists m', q'.
Qed.

Lemma queue_join_waits_when_registered s me mode name nano so :
  let M := Js.toUpperCase (Js.or_else mode "CLASSIC") in
  sockets s !! me = Some so ->
  0 < Socket.queueJoinListeners so ->
  Js.truthy (Socket.roomCode (Socket.data_ so)) = false ->
  isInAnyQueue me s = false ->
  queues s !! M = Some [] ->
  let s' := fst (step (message me (ev_queue_join mode name nano)) s) in
  rooms s' = rooms s
  /\ queues s' = <[M := [me]]> (queues s)
  /\ (forall id, id <> me -> sockets s' !! id = sockets s !! id)
  /\ (exists so', sockets s' !! me = Some so'
        /\ Socket.roomCode (Socket.data_ so') = Socket.roomCode (Socket.data_ so)
        /\ Socket.queueJoinListeners so' = Socket.queueJoinListeners so).
Proof.
  intros M Hme Hn Hroom Hq HM s'.
  pose proof (queue_join_listener_waits s me mode name nano so Hme Hroom Hq HM) as H.
  assert (s' = fst (queue_join_listener me mode name nano s)) as ->; [|done].
  unfold s'. simpl. rewrite Hme. simpl. unfold on_queue_join. rewrite Hme.
  destruct (Socket.queueJoinListeners so) as [|n]; [lia|]. simpl.
  destruct (queue_join_listener me mode name nano s) as [s1 o1] eqn:E1.
  simpl in *. destruct H as (_ & Hqs & _).
  pose proof (run_listeners_idle n (queue_join_listener me mode name nano) s1) as Hidle.
  destruct (run_listeners n _ s1) as [s2 o2]. simpl in *.
  apply Hidle. apply queue_join_listener_queued.
  eapply in_queue_after_insert; [exact Hqs|]. apply list_elem_of_singleton. done.
Qed.

(** X26. What the listener does once it is registered: two distinct sockets
    that both carry it, in no room and no queue, join the empty queue of
    the same mode one after the other; one room is created, under the
    code drawn at the second join, with exactly these two as players (the
    second joiner first), and neither is left in a queue. *)
Lemma two_registered_joiners_are_paired s a b mode name_a name_b nano_a nano_b sa sb :
  let M := Js.toUpperCase (Js.or_else mode "CLASSIC") in
  a <> b -> a <> "" -> nano_b <> "" ->
  sockets s !! a = Some sa -> sockets s !! b = Some sb ->
  0 < Socket.queueJoinListeners sa -> 0 < Socket.queueJoinListeners sb ->
  Js.truthy (Socket.roomCode (Socket.data_ sa)) = false ->
  Js.truthy (Socket.roomCode (Socket.data_ sb)) = false ->
  isInAnyQueue a s = false -> isInAnyQueue b s = false ->
  queues s !! M = Some [] ->
  let s' := run [message a (ev_queue_join mode name_a nano_a);
                 message b (ev_queue_join mode name_b nano_b)] s in
  let C := Js.toUpperCase nano_b in
  exists room,
    rooms s' = <[C := room]> (rooms s)
    /\ Room.code room = C
    /\ Room.order room = [b; a]
    /\ Obj.keys (Room.players room) = [b; a]
    /\ isInAnyQueue a s' = false
    /\ isInAnyQueue b s' = false.
Proof.
  intros M Hab Ha Hnano Hsa Hsb Hna Hnb Hra Hrb Hqa Hqb HM s' C.
  unfold s', run. cbn [fold_left].
  destruct (queue_join_waits_when_registered s a mode name_a nano_a sa
              Hsa Hna Hra Hqa HM) as (Hrooms1 & Hqs1 & Hothers & _).
  set (s1 := fst (step (message a (ev_queue_join mode name_a nano_a)) s)) in *.
  assert (sockets s1 !! b = Some sb) as Hsb1 by (rewrite Hothers; done).
  assert (exists sa1, sockets s1 !! a = Some sa1) as [sa1 Hsa1].
  { destruct (queue_join_waits_when_registered s a mode name_a nano_a sa
                Hsa Hna Hra Hqa HM) as (_ & _ & _ & so' & ? & _). eauto. }
  assert (isInAnyQueue b s1 = false) as Hqb1.
  { eapply not_in_queue_after_insert; [exact Hqs1| |exact Hqb].
    intros Hin. apply list_elem_of_singleton in Hin. congruence. }
  assert (queues s1 !! M = Some [a]) as HM1 by (rewrite Hqs1; apply lookup_insert_eq).
  destruct (queue_join_pairs_when_registered s1 b a [] mode name_b nano_b sb sa1
              Hsb1 Hsa1 Hnb Hab Ha Hnano Hrb Hqb1 HM1)
    as (room & Hrooms2 & Hcode & Hord & Hkeys & Hqs2 & _).
  exists room. rewrite Hrooms2, Hrooms1. split_and!; try done.
  - eapply (not_in_queue_after_insert a M [] s); [|apply not_elem_of_nil|exact Hqa].
    by rewrite Hqs2, Hqs1, insert_insert_eq.
  - eapply not_in_queue_after_insert; [exact Hqs2|apply not_elem_of_nil|done].
Qed.

(** C1 on the code. Two sockets A and B that have just connected (in no
    room, in no queue) both send queue:join for CLASSIC: neither event is
    heard, since the listener is only registered by a scored guess.  No
    room is created, nothing is emitted, the state is unchanged. *)
Theorem queue_join_unheard_before_first_guess :
  let '(s1, out1) :=
    step (message "A" (ev_queue_join (Some "CLASSIC") (Some "ann") "abc123"))
         two_idle in
  let '(s2, out2) :=
    step (message "B" (ev_queue_join (Some "CLASSIC") (Some "bob") "def456")) s1 in
  s2 = two_idle /\ out1 = [] /\ out2 = [] /\ rooms s2 = ∅
  /\ get_data "A" Socket.roomCode two_idle = None
  /\ get_data "B" Socket.roomCode two_idle = None
  /\ isInAnyQueue "A" two_idle = false
  /\ isInAnyQueue "B" two_idle = false.
Proof. vm_compute. repeat split; reflexivity. Qed.

(** Once both sockets have made a scored guess, and so carry the
    listener, the same two events pair them: one room, the later joiner
    first in [order], both out of the queues. *)
Example matchmaking_after_both_guessed :
  let s :=
    run [message "A" (ev_queue_join (Some "classic") None "q1w2e3");
         message "B" (ev_queue_join (Some "classic") None "r4t5y6")] after_duel in
  rooms after_duel = ∅
  /\ rooms s !! "R4T5Y6" = Some matched_room
  /\ size (rooms s) = 1
  /\ isInAnyQueue "A" s = false
  /\ isInAnyQueue "B" s = false.
Proof. vm_compute. repeat split; reflexivity. Qed.

(** * Further properties *)

(** ** More on scoring *)

Lemma count_loop_bound (guess secret : string) (idx : list nat) (c : nat) :
  fold_left
    (fun c i => if bool_decide (Js.at_ guess i = Js.at_ secret i) then S c else c)
    idx c <= c + length idx.
Proof.
  revert c. induction idx as [|i idx IH]; intros c; simpl; [lia|].
  case_bool_decide.
  - specialize (IH (S c)). lia.
  - specialize (IH c). lia.
Qed.

Lemma count_loop_sym (guess secret : string) (idx : list nat) (c : nat) :
  fold_left
    (fun c i => if bool_decide (Js.at_ guess i = Js.at_ secret i) then S c else c)
    idx c
  = fold_left
    (fun c i => if bool_decide (Js.at_ secret i = Js.at_ guess i) then S c else c)
    idx c.
Proof.
  revert c. induction idx as [|i idx IH]; intros c; simpl; [done|].
  repeat case_bool_decide; try congruence; apply IH.
Qed.

(** X1. [countCorrectPositions] is between 0 and 4 for all strings, and
    does not depend on which argument is the guess and which the secret. *)
Theorem countCorrectPositions_range_sym (guess secret : string) :
  countCorrectPositions guess secret <= 4
  /\ countCorrectPositions guess secret = countCorrectPositions secret guess.
Proof.
  split.
  - unfold countCorrectPositions.
    pose proof (count_loop_bound guess secret (seq 0 4) 0) as H. simpl in *. lia.
  - apply count_loop_sym.
Qed.

Lemma feedbackDigits_loop_elem (s g acc : list ascii) (d : ascii) :
  d ∈ fold_left (fun set d => if bool_decide (d ∈ s) then Js.set_add d set else set)
        g acc
  <-> d ∈ acc \/ (d ∈ g /\ d ∈ s).
Proof.
  revert acc. induction g as [|x g IH]; intros acc; simpl.
  - split; [auto|]. intros [?|[H _]]; [done|]. by apply elem_of_nil in H.
  - rewrite IH. unfold Js.set_add. rewrite elem_of_cons.
    case_bool_decide as Hx.
    + case_bool_decide as Hacc.
      * split; [intros [?|[? ?]]; auto|].
        intros [?|[[->|?] ?]]; auto.
      * rewrite elem_of_app, list_elem_of_singleton.
        split; [intros [[?| ->]|[? ?]]; auto|].
        intros [?|[[->|?] ?]]; auto.
    + split; [intros [?|[? ?]]; auto|].
      intros [?|[[->|?] ?]]; auto. done.
Qed.

(** X2. [feedbackDigits guess secret] holds exactly the digits that
    occur both in the guess and in the secret. *)
Theorem feedbackDigits_exactly_common_digits (guess secret : string) (d : ascii) :
  d ∈ feedbackDigits guess secret <-> d ∈ Js.split guess /\ d ∈ Js.split secret.
Proof.
  unfold feedbackDigits. rewrite feedbackDigits_loop_elem.
  split; [intros [H|?]; [by apply elem_of_nil in H|done]|auto].
Qed.

(** X3. For 4-digit strings, [feedbackMask] is four marks joined by
    single spaces, each a hit or a miss mark, and the number of hit marks
    is [countCorrectPositions]. *)
Theorem feedbackMask_marks_match_count (guess secret : string) :
  Js.test_4digits guess = true ->
  Js.test_4digits secret = true ->
  exists marks,
    feedbackMask guess secret = Js.join " " marks
    /\ length marks = 4
    /\ Forall (fun m => m = "●" \/ m = "○") marks
    /\ hit_marks marks = countCorrectPositions guess secret.
Proof.
  intros Hg Hs.
  destruct (test_4digits_shape _ Hg) as (a & b & c & d & ->).
  destruct (test_4digits_shape _ Hs) as (a' & b' & c' & d' & ->).
  rewrite countCorrectPositions_unfold.
  unfold feedbackMask, Js.split, Js.at_. cbn [list_ascii_of_string imap String.get].
  eexists. split; [reflexivity|]. split; [reflexivity|]. split.
  - simpl. repeat (apply Forall_cons_2; [case_bool_decide; auto|]). apply Forall_nil_2.
  - unfold hit_marks. simpl.
    repeat case_bool_decide; simplify_eq; try reflexivity; congruence.
Qed.

Lemma feedbackMask_marks_match_count_witness :
  exists marks,
    feedbackMask "1111" "1123" = Js.join " " marks
    /\ length marks = 4
    /\ Forall (fun m => m = "●" \/ m = "○") marks
    /\ hit_marks marks = countCorrectPositions "1111" "1123".
Proof.
  apply (feedbackMask_marks_match_count "1111" "1123"); reflexivity.
Defined.

(** ** Queue primitives *)

Lemma splice_first_spec (exceptId : string) (q : list string) :
  match splice_first exceptId q with
  | (Some opp, q') =>
      exists pre post, q = pre ++ opp :: post /\ q' = pre ++ post
        /\ opp <> exceptId /\ Forall (fun x => x = exceptId) pre
  | (None, q') => q' = q /\ Forall (fun x => x = exceptId) q
  end.
Proof.
  induction q as [|x q IH]; simpl.
  - split; [done|apply Forall_nil_2].
  - case_bool_decide as Hx.
    + exists [], q. split_and!; try done; apply Forall_nil_2.
    + assert (x = exceptId) as -> by (destruct (decide (x = exceptId)); [done|]; by destruct Hx).
      destruct (splice_first exceptId q) as [[opp|] q'].
      * destruct IH as (pre & post & -> & -> & Hne & Hpre).
        exists (exceptId :: pre), post. split_and!; try done; by apply Forall_cons_2.
      * destruct IH as [-> Hall]. split; [done|]. by apply Forall_cons_2.
Qed.

Lemma with_queues_id (s : server) (m : string) (q : list string) :
  queues s !! m = Some q -> with_queues (<[m := q]> (queues s)) s = s.
Proof. intros H. destruct s as [r qs k]. unfold with_queues. simpl in *. by rewrite insert_id. Qed.

(** X4. [popOpponent] is first-in first-out: it takes out the earliest
    entry of the mode's queue that is not [exceptId] and leaves the rest
    in order; when every entry is [exceptId] (or the queue is empty) it
    returns nothing and the state is unchanged. *)
Theorem popOpponent_takes_first_other (mode exceptId : string) (s : server)
    (q : list string) :
  queues s !! mode = Some q ->
  match popOpponent mode exceptId s with
  | (Some opp, s') =>
      exists pre post, q = pre ++ opp :: post
        /\ Forall (fun x => x = exceptId) pre
        /\ opp <> exceptId
        /\ s' = with_queues (<[mode := pre ++ post]> (queues s)) s
  | (None, s') => s' = s /\ Forall (fun x => x = exceptId) q
  end.
Proof.
  intros Hq. unfold popOpponent. rewrite Hq.
  pose proof (splice_first_spec exceptId q) as H.
  destruct (splice_first exceptId q) as [[opp|] q'].
  - destruct H as (pre & post & -> & -> & Hne & Hpre). by exists pre, post.
  - destruct H as [-> Hall]. split; [|done]. by apply with_queues_id.
Qed.

Lemma popOpponent_takes_first_other_witness :
  let s := with_queues (<["CLASSIC" := ["A"; "B"; "C"]]> (queues init)) init in
  queues s !! "CLASSIC" = Some ["A"; "B"; "C"] /\
  match popOpponent "CLASSIC" "A" s with
  | (Some opp, s') =>
      exists pre post, ["A"; "B"; "C"] = pre ++ opp :: post
        /\ Forall (fun x => x = "A") pre
        /\ opp <> "A"
        /\ s' = with_queues (<["CLASSIC" := pre ++ post]> (queues s)) s
  | (None, s') => s' = s /\ Forall (fun x => x = "A") ["A"; "B"; "C"]
  end.
Proof.
  intros s.
  assert (queues s !! "CLASSIC" = Some ["A"; "B"; "C"]) as H by (vm_compute; reflexivity).
  exact (conj H (popOpponent_takes_first_other "CLASSIC" "A" s _ H)).
Defined.

Lemma queue_of_enqueue mode id s :
  queue_of mode (enqueue mode id s)
  = if bool_decide (id ∈ queue_of mode s) then queue_of mode s
    else queue_of mode s ++ [id].
Proof. unfold enqueue, queue_of at 1. simpl. by rewrite lookup_insert_eq. Qed.

Lemma queue_of_dequeue mode id s :
  queue_of mode (dequeue mode id s) = filter (fun x => x <> id) (queue_of mode s).
Proof. unfold dequeue, queue_of at 1. simpl. by rewrite lookup_insert_eq. Qed.

Lemma filter_absent (id : string) (q : list string) :
  id ∉ q -> filter (fun x => x <> id) q = q.
Proof.
  induction q as [|x q IH]; [done|]. intros H.
  apply not_elem_of_cons in H as [Hx Hq].
  rewrite filter_cons_True by done. by rewrite IH.
Qed.

(** X5. Queue round trip: enqueueing a socket that is not in the mode's
    queue puts it at the tail, enqueueing it again changes nothing, and
    dequeueing it gives the queue back as it was. *)
Theorem enqueue_dequeue_round_trip (mode id : string) (s : server) :
  id ∉ queue_of mode s ->
  queue_of mode (enqueue mode id s) = queue_of mode s ++ [id]
  /\ enqueue mode id (enqueue mode id s) = enqueue mode id s
  /\ queue_of mode (dequeue mode id (enqueue mode id s)) = queue_of mode s.
Proof.
  intros Hid.
  assert (queue_of mode (enqueue mode id s) = queue_of mode s ++ [id]) as He.
  { rewrite queue_of_enqueue. by rewrite bool_decide_eq_false_2. }
  split_and!.
  - exact He.
  - unfold enqueue at 1. rewrite He.
    rewrite bool_decide_eq_true_2
      by (apply elem_of_app; right; by apply list_elem_of_singleton).
    unfold enqueue. simpl. rewrite bool_decide_eq_false_2 by done.
    by rewrite insert_insert_eq.
  - rewrite queue_of_dequeue, He. rewrite filter_app.
    rewrite filter_absent by done.
    rewrite filter_cons_False by (intros H; by apply H).
    by rewrite filter_nil, app_nil_r.
Qed.

Lemma enqueue_dequeue_round_trip_witness :
  ("B" ∉ queue_of "CLASSIC" init) /\
  queue_of "CLASSIC" (enqueue "CLASSIC" "B" init) = queue_of "CLASSIC" init ++ ["B"]
  /\ enqueue "CLASSIC" "B" (enqueue "CLASSIC" "B" init) = enqueue "CLASSIC" "B" init
  /\ queue_of "CLASSIC" (dequeue "CLASSIC" "B" (enqueue "CLASSIC" "B" init))
     = queue_of "CLASSIC" init.
Proof.
  assert ("B" ∉ queue_of "CLASSIC" init) as H by (vm_compute; apply not_elem_of_nil).
  exact (conj H (enqueue_dequeue_round_trip "CLASSIC" "B" init H)).
Defined.

(** ** The queue invariant *)

Lemma isInAnyQueue_false id s : isInAnyQueue id s = false <-> not_waiting s id.
Proof.
  unfold isInAnyQueue, not_waiting. rewrite bool_decide_eq_false. split.
  - intros H m q Hq Hin. apply H. by exists m, q.
  - intros H (m & q & Hq & Hin). by apply (H m q).
Qed.

Lemma mode_truthy m : m ∈ modes -> Js.truthy (Some m) = true.
Proof.
  unfold modes. rewrite !elem_of_cons. intros [->|[->|[->|H]]]; try done.
  by apply elem_of_nil in H.
Qed.

Lemma queues_ok_ext s s' :
  queues s' = queues s -> sockets s' = sockets s -> queues_ok s -> queues_ok s'.
Proof.
  intros Hq Hk (K & Q & W). unfold queues_ok, waits_properly. rewrite Hq, Hk. done.
Qed.

Lemma queues_ok_frame s s' :
  queues_ok s ->
  queues s' = queues s ->
  (forall id, socket_kept (sockets s !! id) (sockets s' !! id)) ->
  queues_ok s'.
Proof.
  intros (K & Q & W) Hq Hk. split_and!.
  - by rewrite Hq.
  - intros id so' m Hso' Hm. specialize (Hk id). rewrite Hso' in Hk.
    destruct (sockets s !! id) as [so|] eqn:Hso; simpl in Hk.
    + destruct Hk as [Hk _]. apply (Q id so m Hso). congruence.
    + congruence.
  - rewrite Hq. intros m q Hmq. destruct (W m q Hmq) as [Hnd Hw].
    split; [done|]. intros id Hid.
    destruct (Hw id Hid) as (so & Hso & Hm & Hr).
    specialize (Hk id). rewrite Hso in Hk.
    destruct (sockets s' !! id) as [so'|] eqn:Hso'; simpl in Hk; [|done].
    destruct Hk as [Hk1 Hk2]. exists so'. split_and!; [done|congruence|auto].
Qed.

Lemma socket_kept_refl o : socket_kept o o.
Proof. destruct o; simpl; auto. Qed.

Lemma socket_kept_trans o1 o2 o3 :
  socket_kept o1 o2 -> socket_kept o2 o3 -> socket_kept o1 o3.
Proof.
  destruct o1, o2, o3; simpl; try tauto.
  - intros [? ?] [? ?]. split; [congruence|auto].
  - intros ? [? ?]. congruence.
Qed.

(** Replacing a queue by a sublist of itself. *)
Lemma queues_ok_shrink s m q q' :
  queues_ok s -> queues s !! m = Some q -> q' `sublist_of` q ->
  queues_ok (with_queues (<[m := q']> (queues s)) s).
Proof.
  intros (K & Q & W) Hq Hsub. split_and!.
  - intros m'. simpl. destruct (decide (m = m')) as [<-|Hne].
    + rewrite lookup_insert_eq. rewrite <- K, Hq. split; eauto.
    + rewrite lookup_insert_ne by done. apply K.
  - exact Q.
  - intros m' q'' . simpl. destruct (decide (m = m')) as [<-|Hne].
    + rewrite lookup_insert_eq. intros [= <-]. destruct (W m q Hq) as [Hnd Hw].
      split; [by eapply sublist_NoDup|].
      intros id Hid. apply Hw. by eapply elem_of_sublist.
    + rewrite lookup_insert_ne by done. apply W.
Qed.

Lemma not_waiting_shrink s m q q' id :
  not_waiting s id -> queues s !! m = Some q -> q' `sublist_of` q ->
  not_waiting (with_queues (<[m := q']> (queues s)) s) id.
Proof.
  intros Hn Hq Hsub m' q''. simpl. destruct (decide (m = m')) as [<-|Hne].
  - rewrite lookup_insert_eq. intros [= <-] Hin. apply (Hn m q Hq).
    by eapply elem_of_sublist.
  - rewrite lookup_insert_ne by done. apply Hn.
Qed.

Lemma filter_sublist (id : string) (q : list string) :
  filter (fun x => x <> id) q `sublist_of` q.
Proof. apply sublist_filter. Qed.

Lemma queues_ok_key s m : queues_ok s -> m ∈ modes -> exists q, queues s !! m = Some q.
Proof. intros (K & _) Hm. by apply K. Qed.

Lemma queues_ok_dequeue s m id :
  queues_ok s -> m ∈ modes -> queues_ok (dequeue m id s).
Proof.
  intros Hs Hm. destruct (queues_ok_key s m Hs Hm) as [q Hq].
  unfold dequeue, queue_of. rewrite Hq. simpl.
  eapply queues_ok_shrink; [done|done|apply filter_sublist].
Qed.

Lemma not_waiting_dequeue_other s m id id' :
  not_waiting s id' -> not_waiting (dequeue m id s) id'.
Proof.
  intros Hn m' q'. unfold dequeue, queue_of. simpl.
  destruct (decide (m = m')) as [<-|Hne].
  - rewrite lookup_insert_eq. intros [= <-] Hin.
    apply list_elem_of_filter in Hin as [_ Hin].
    destruct (queues s !! m) as [q|] eqn:Hq; simpl in Hin.
    + by apply (Hn m q).
    + by apply elem_of_nil in Hin.
  - rewrite lookup_insert_ne by done. apply Hn.
Qed.

(** A waiting socket waits in the queue its [queueMode] names, so
    dequeueing it there takes it out of every queue. *)
Lemma not_waiting_dequeue s m id so :
  queues_ok s ->
  sockets s !! id = Some so ->
  Socket.queueMode (Socket.data_ so) = Some m ->
  not_waiting (dequeue m id s) id.
Proof.
  intros (K & Q & W) Hso Hm m' q'. unfold dequeue, queue_of. simpl.
  destruct (decide (m = m')) as [<-|Hne].
  - rewrite lookup_insert_eq. intros [= <-] Hin.
    apply list_elem_of_filter in Hin as [Hin _]. by apply Hin.
  - rewrite lookup_insert_ne by done. intros Hq Hin.
    destruct (W m' q' Hq) as [_ Hw]. destruct (Hw id Hin) as (so' & Hso' & Hm' & _).
    congruence.
Qed.

(** A socket whose [queueMode] is not set (or not truthy) waits nowhere. *)
Lemma not_waiting_without_queueMode s id :
  queues_ok s ->
  Js.truthy (get_data id Socket.queueMode s) = false ->
  not_waiting s id.
Proof.
  intros (K & Q & W) Hf m q Hq Hin.
  destruct (W m q Hq) as [_ Hw]. destruct (Hw id Hin) as (so & Hso & Hm & _).
  unfold get_data in Hf. rewrite Hso in Hf. simpl in Hf. rewrite Hm in Hf.
  rewrite mode_truthy in Hf; [done|]. apply K. eauto.
Qed.

(** Changing the data of a socket that waits nowhere. *)
Lemma queues_ok_set_data s id f :
  queues_ok s -> not_waiting s id ->
  (forall d m, Socket.queueMode (f d) = Some m ->
     Socket.queueMode d = Some m \/ m ∈ modes) ->
  queues_ok (set_data id f s).
Proof.
  intros (K & Q & W) Hn Hf. split_and!.
  - exact K.
  - intros id' so' m. unfold set_data. cbn [sockets with_sockets].
    destruct (decide (id = id')) as [<-|Hne].
    + rewrite lookup_alter_eq. destruct (sockets s !! id) as [so|] eqn:Hso; [|done].
      simpl. intros [= <-]. simpl. intros Hm.
      destruct (Hf _ _ Hm) as [Hd|?]; [|done]. by apply (Q id so).
    + rewrite lookup_alter_ne by done. apply Q.
  - intros m q Hq. destruct (W m q Hq) as [Hnd Hw]. split; [done|].
    intros id' Hid'. destruct (Hw id' Hid') as (so & Hso & Hm & Hr).
    exists so. split_and!; try done.
    unfold set_data. cbn [sockets with_sockets].
    rewrite lookup_alter_ne; [done|]. intros <-. by apply (Hn m q).
Qed.

Lemma get_data_connected s id f so :
  sockets s !! id = Some so -> get_data id f s = f (Socket.data_ so).
Proof. intros H. unfold get_data. by rewrite H. Qed.

Lemma queues_ok_leave_queue_first me s :
  queues_ok s ->
  queues_ok (leave_queue_first me s) /\ not_waiting (leave_queue_first me s) me.
Proof.
  intros Hs. unfold leave_queue_first.
  destruct (Js.truthy (get_data me Socket.queueMode s)) eqn:Ht.
  - unfold get_data in Ht.
    destruct (sockets s !! me) as [so|] eqn:Hso; [|done]. simpl in Ht.
    destruct (Socket.queueMode (Socket.data_ so)) as [m|] eqn:Hm; [|done].
    rewrite (get_data_connected _ _ _ _ Hso), Hm. simpl.
    assert (m ∈ modes) as Hmodes by (destruct Hs as (_ & Q & _); eauto).
    pose proof (not_waiting_dequeue s m me so Hs Hso Hm) as Hn.
    split; [|exact Hn].
    apply queues_ok_set_data; [by apply queues_ok_dequeue|done|].
    intros d m'. simpl. discriminate.
  - split; [done|]. by apply not_waiting_without_queueMode.
Qed.

Lemma queues_ok_enqueue s m id :
  queues_ok s -> m ∈ modes -> waits_properly s m id -> queues_ok (enqueue m id s).
Proof.
  intros Hs Hm Hw. destruct (queues_ok_key s m Hs Hm) as [q Hq].
  unfold enqueue, queue_of. rewrite Hq. simpl.
  case_bool_decide as Hin.
  - rewrite with_queues_id by done. done.
  - destruct Hs as (K & Q & W). split_and!.
    + intros m'. simpl. destruct (decide (m = m')) as [<-|Hne].
      * rewrite lookup_insert_eq. split; eauto.
      * rewrite lookup_insert_ne by done. apply K.
    + exact Q.
    + intros m' q'. simpl. destruct (decide (m = m')) as [<-|Hne].
      * rewrite lookup_insert_eq. intros [= <-]. destruct (W m q Hq) as [Hnd Hq'].
        split.
        -- apply NoDup_app. split_and!; [done| |apply NoDup_singleton].
           intros x Hx Hx'. apply list_elem_of_singleton in Hx'. by subst.
        -- intros id'. rewrite elem_of_app, list_elem_of_singleton.
           intros [?| ->]; [by apply Hq'|done].
      * rewrite lookup_insert_ne by done. apply W.
Qed.

Lemma socket_kept_clear_roomCode (m : gmap string Socket.t) id' id :
  socket_kept (m !! id)
    (alter (Socket.map_data (Socket.with_roomCode None)) id' m !! id).
Proof.
  destruct (decide (id' = id)) as [->|Hne].
  - rewrite lookup_alter_eq. destruct (m !! id); simpl; auto.
  - rewrite lookup_alter_ne by done. apply socket_kept_refl.
Qed.

Lemma clear_roomCodes_kept ids s :
  queues (fold_left (fun s id => set_data id (Socket.with_roomCode None) s) ids s)
  = queues s
  /\ forall id, socket_kept (sockets s !! id)
       (sockets (fold_left (fun s id => set_data id (Socket.with_roomCode None) s)
                   ids s) !! id).
Proof.
  revert s. induction ids as [|i ids IH]; intros s; simpl.
  - split; [done|]. intros. apply socket_kept_refl.
  - destruct (IH (set_data i (Socket.with_roomCode None) s)) as [Hq Hk].
    split; [by rewrite Hq|]. intros id.
    eapply socket_kept_trans; [|apply Hk]. apply socket_kept_clear_roomCode.
Qed.

Lemma queues_ok_destroyRoom code reason s :
  queues_ok s -> queues_ok (fst (destroyRoom code reason s)).
Proof.
  intros Hs. unfold destroyRoom. destruct (rooms s !! code) as [room|]; [|done].
  simpl. destruct (clear_roomCodes_kept (Obj.keys (Room.players room)) s) as [Hq Hk].
  eapply queues_ok_frame; [exact Hs|exact Hq|exact Hk].
Qed.

Lemma not_waiting_destroyRoom code reason s id :
  not_waiting s id -> not_waiting (fst (destroyRoom code reason s)) id.
Proof.
  intros Hn. unfold destroyRoom. destruct (rooms s !! code) as [room|]; [|done].
  simpl. destruct (clear_roomCodes_kept (Obj.keys (Room.players room)) s) as [Hq _].
  unfold not_waiting. simpl. rewrite Hq. exact Hn.
Qed.

Lemma splice_first_sublist (exceptId : string) (q : list string) :
  snd (splice_first exceptId q) `sublist_of` q.
Proof.
  induction q as [|x q IH]; simpl; [done|].
  case_bool_decide.
  - simpl. by apply sublist_cons.
  - destruct (splice_first exceptId q) as [opp q']. simpl in *. by apply sublist_skip.
Qed.

Lemma queues_ok_popOpponent mode me s :
  queues_ok s -> queues_ok (snd (popOpponent mode me s)).
Proof.
  intros Hs. unfold popOpponent. destruct (queues s !! mode) as [q|] eqn:Hq; [|done].
  pose proof (splice_first_sublist me q) as Hsub.
  destruct (splice_first me q) as [opp q']. simpl in *.
  by eapply queues_ok_shrink.
Qed.

(** The socket that [popOpponent] returns is left in no queue. *)
Lemma not_waiting_popped mode me s opp s' :
  queues_ok s -> popOpponent mode me s = (Some opp, s') -> not_waiting s' opp.
Proof.
  intros (K & Q & W) Hpop.
  unfold popOpponent in Hpop. destruct (queues s !! mode) as [q|] eqn:Hq; [|done].
  pose proof (splice_first_spec me q) as Hspec.
  destruct (splice_first me q) as [o q']. injection Hpop as -> <-.
  destruct Hspec as (pre & post & -> & -> & Hne & Hpre).
  destruct (W mode _ Hq) as [Hnd Hw].
  intros m' q''. simpl. destruct (decide (mode = m')) as [<-|Hm].
  - rewrite lookup_insert_eq. intros [= <-] Hin.
    apply NoDup_app in Hnd as (_ & Hdisj & Hnd').
    apply NoDup_cons in Hnd' as [Hnp _].
    apply elem_of_app in Hin as [Hin|Hin]; [|done].
    apply (Hdisj opp Hin). apply elem_of_cons. by left.
  - rewrite lookup_insert_ne by done. intros Hq' Hin.
    destruct (W m' q'' Hq') as [_ Hw']. destruct (Hw' opp Hin) as (so & Hso & Hm' & _).
    assert (opp ∈ pre ++ opp :: post) as Hin0
      by (apply elem_of_app; right; apply elem_of_cons; by left).
    destruct (Hw opp Hin0) as (so0 & Hso0 & Hm0 & _). congruence.
Qed.

Lemma queues_ok_queue_join_listener me mode name nano s so :
  queues_ok s -> sockets s !! me = Some so ->
  queues_ok (fst (queue_join_listener me mode name nano s)).
Proof.
  intros Hs Hso. unfold queue_join_listener.
  set (M := Js.toUpperCase (Js.or_else mode "CLASSIC")).
  destruct (queues s !! M) as [q0|] eqn:Hq0; [|done].
  assert (M ∈ modes) as HM by (destruct Hs as (K & _); apply K; eauto).
  rewrite (get_data_connected _ _ _ _ Hso).
  destruct (Js.truthy (Socket.roomCode (Socket.data_ so))) eqn:Hroom; [done|].
  destruct (isInAnyQueue me s) eqn:Hin; [done|].
  apply isInAnyQueue_false in Hin.
  set (s1 := set_data me (Socket.with_playerName (Some (Js.trimmed_or name "Player"))) s).
  set (s2 := set_data me (Socket.with_queueMode (Some M)) s1).
  assert (queues_ok s1) as Hs1.
  { apply queues_ok_set_data; [done|done|]. intros d m Hm. by left. }
  assert (queues_ok s2) as Hs2.
  { apply queues_ok_set_data; [done|done|]. intros d m [= <-]. by right. }
  assert (exists so2, sockets s2 !! me = Some so2
            /\ Socket.queueMode (Socket.data_ so2) = Some M
            /\ Js.truthy (Socket.roomCode (Socket.data_ so2)) = false)
    as (so2 & Hso2 & Hm2 & Hr2).
  { unfold s2, s1, set_data. cbn [sockets with_sockets].
    rewrite !lookup_alter_eq, Hso. simpl. eauto. }
  assert (waits_properly s2 M me) as Hw2 by (by exists so2).
  pose proof (queues_ok_enqueue s2 M me Hs2 HM Hw2) as Hs3.
  set (s3 := enqueue M me s2) in *.
  pose proof (queues_ok_popOpponent M me s3 Hs3) as Hs4.
  pose proof (sockets_popOpponent M me s3) as Hk4.
  pose proof (not_waiting_popped M me s3) as Hpopped.
  destruct (popOpponent M me s3) as [opp s4]. simpl in Hs4, Hk4.
  destruct (negb (Js.truthy opp)) eqn:Hopp; [done|].
  destruct opp as [o|]; [|done]. cbn [from_option id].
  specialize (Hpopped o s4 Hs3 eq_refl).
  assert (sockets s4 !! me = Some so2) as Hso4 by (by rewrite Hk4).
  pose proof (queues_ok_dequeue s4 M me Hs4 HM) as Hs5.
  pose proof (not_waiting_dequeue s4 M me so2 Hs4 Hso4 Hm2) as Hn5.
  pose proof (not_waiting_dequeue_other s4 M me o Hpopped) as Hn5o.
  assert (sockets (dequeue M me s4) !! me = Some so2) as Hso5 by exact Hso4.
  set (s5 := dequeue M me s4) in *. clearbody s5.
  destruct (sockets s5 !! o) as [oppSocket|] eqn:Hoso.
  - unfold makeRoom. cbn [fst snd].
    match goal with
    | |- queues_ok (set_data o ?f (set_data me ?g ?x)) =>
        assert (queues_ok x) as Hx by (by apply (queues_ok_ext s5));
        assert (not_waiting x me) as Hxm by exact Hn5;
        assert (not_waiting x o) as Hxo by exact Hn5o
    end.
    apply queues_ok_set_data; [|done|intros d m Hm; by left].
    apply queues_ok_set_data; [done|done|intros d m Hm; by left].
  - cbn [fst]. apply queues_ok_enqueue; [done|done|]. by exists so2.
Qed.

Lemma connected_listeners s id : is_Some (sockets s !! id) <-> is_Some (listeners_of s id).
Proof. unfold listeners_of. by rewrite fmap_is_Some. Qed.

Lemma queues_ok_run_listeners n me mode name nano s :
  queues_ok s -> is_Some (sockets s !! me) ->
  queues_ok (fst (run_listeners n (queue_join_listener me mode name nano) s)).
Proof.
  revert s. induction n as [|n IH]; intros s Hs [so Hso]; simpl; [done|].
  pose proof (queues_ok_queue_join_listener me mode name nano s so Hs Hso) as H1.
  pose proof (listeners_queue_join_listener me mode name nano s me) as Hl.
  destruct (queue_join_listener me mode name nano s) as [s1 o1]. simpl in *.
  assert (is_Some (sockets s1 !! me)) as Hc.
  { apply connected_listeners. rewrite Hl. apply connected_listeners. eauto. }
  specialize (IH s1 H1 Hc).
  destruct (run_listeners n _ s1). done.
Qed.

Lemma queues_ok_create_room me name mode nano s :
  queues_ok s -> queues_ok (fst (on_create_room me name mode nano s)).
Proof.
  intros Hs. destruct (queues_ok_leave_queue_first me s Hs) as [H1 Hn].
  unfold on_create_room, makeRoom. cbn [fst snd].
  match goal with
  | |- queues_ok (set_data me ?g ?x) =>
      assert (queues_ok x) as Hx by (by apply (queues_ok_ext (leave_queue_first me s)));
      assert (not_waiting x me) as Hxm by exact Hn
  end.
  apply queues_ok_set_data; [done|done|intros d m Hm; by left].
Qed.

Lemma queues_ok_join_room me code name s :
  queues_ok s -> queues_ok (fst (on_join_room me code name s)).
Proof.
  intros Hs. destruct (queues_ok_leave_queue_first me s Hs) as [H1 Hn].
  unfold on_join_room.
  destruct (rooms (leave_queue_first me s) !! _) as [room|]; [|done].
  destruct (2 <=? _)%nat; [done|]. cbn [fst].
  match goal with
  | |- queues_ok (set_data me ?g ?x) =>
      assert (queues_ok x) as Hx by (by apply (queues_ok_ext (leave_queue_first me s)));
      assert (not_waiting x me) as Hxm by exact Hn
  end.
  apply queues_ok_set_data; [done|done|intros d m Hm; by left].
Qed.

Lemma queues_ok_set_secret me code secret coin s :
  queues_ok s -> queues_ok (fst (on_set_secret me code secret coin s)).
Proof.
  intros Hs. unfold on_set_secret.
  destruct (rooms s !! code) as [room|]; [|done].
  destruct (Obj.get _ me); [|done].
  destruct (negb (Js.test_4digits secret)); [done|].
  by apply (queues_ok_ext s).
Qed.

Lemma queues_ok_guess me code g now s :
  queues_ok s -> queues_ok (fst (on_guess me code g now s)).
Proof.
  intros Hs. unfold on_guess.
  destruct (rooms s !! code) as [room|]; [|done].
  destruct (Js.truthy (Room.winner room)); [done|].
  destruct (negb (bool_decide _)); [done|].
  destruct (negb (Js.test_4digits g)); [done|].
  destruct (negb (Js.truthy _)); [done|].
  cbn [fst]. eapply queues_ok_frame; [exact Hs|done|].
  intros id. cbn [sockets with_sockets with_rooms].
  destruct (decide (me = id)) as [<-|Hne].
  - rewrite lookup_alter_eq. destruct (sockets s !! me); simpl; auto.
  - rewrite lookup_alter_ne by done. apply socket_kept_refl.
Qed.

Lemma queues_ok_queue_leave me s :
  queues_ok s -> queues_ok (fst (on_queue_leave me s)).
Proof.
  intros Hs. unfold on_queue_leave. cbn [fst].
  destruct (Js.truthy (get_data me Socket.queueMode s)) eqn:Ht.
  - unfold get_data in Ht |- *.
    destruct (sockets s !! me) as [so|] eqn:Hso; [|done]. simpl in Ht |- *.
    destruct (Socket.queueMode (Socket.data_ so)) as [m|] eqn:Hm; [|done]. simpl.
    assert (m ∈ modes) as Hmodes by (destruct Hs as (_ & Q & _); eauto).
    apply queues_ok_set_data;
      [by apply queues_ok_dequeue|by eapply not_waiting_dequeue|].
    intros d m'. simpl. discriminate.
  - apply queues_ok_set_data;
      [done|by apply not_waiting_without_queueMode|].
    intros d m'. simpl. discriminate.
Qed.

Lemma queues_ok_reset_room code s :
  queues_ok s -> queues_ok (fst (on_reset_room code s)).
Proof.
  intros Hs. unfold on_reset_room.
  destruct (rooms s !! code) as [room|]; [|done].
  destruct (_ <? 2)%nat; [by apply queues_ok_destroyRoom|].
  by apply (queues_ok_ext s).
Qed.

Lemma queues_ok_leave_room me code s :
  queues_ok s -> queues_ok (fst (on_leave_room me code s)).
Proof.
  intros Hs. unfold on_leave_room.
  destruct (rooms s !! code) as [room|]; [|done].
  destruct (Obj.get _ me); [|done]. by apply queues_ok_destroyRoom.
Qed.

Lemma queues_ok_disconnecting me s :
  queues_ok s ->
  queues_ok (fst (on_disconnecting me s))
  /\ not_waiting (fst (on_disconnecting me s)) me.
Proof.
  intros Hs. unfold on_disconnecting.
  set (s1 := if Js.truthy (get_data me Socket.queueMode s)
             then dequeue (default "" (get_data me Socket.queueMode s)) me s else s).
  assert (queues_ok s1 /\ not_waiting s1 me) as [H1 Hn1].
  { unfold s1. destruct (Js.truthy (get_data me Socket.queueMode s)) eqn:Ht.
    - unfold get_data in Ht |- *.
      destruct (sockets s !! me) as [so|] eqn:Hso; [|done]. simpl in Ht |- *.
      destruct (Socket.queueMode (Socket.data_ so)) as [m|] eqn:Hm; [|done]. simpl.
      assert (m ∈ modes) as Hmodes by (destruct Hs as (_ & Q & _); eauto).
      split; [by apply queues_ok_dequeue|by eapply not_waiting_dequeue].
    - split; [done|by apply not_waiting_without_queueMode]. }
  clearbody s1.
  destruct (_ && _).
  - split; [by apply queues_ok_destroyRoom|by apply not_waiting_destroyRoom].
  - done.
Qed.

Lemma queues_ok_sweep me (ms : list string) s :
  queues_ok s -> Forall (fun m => m ∈ modes) ms ->
  queues_ok (fold_left (fun s m => dequeue m me s) ms s).
Proof.
  intros Hs Hms. revert s Hs. induction Hms as [|m ms Hm _ IH]; intros s Hs; simpl.
  - done.
  - apply IH. by apply queues_ok_dequeue.
Qed.

Lemma not_waiting_sweep me id (ms : list string) s :
  not_waiting s id -> not_waiting (fold_left (fun s m => dequeue m me s) ms s) id.
Proof.
  revert s. induction ms as [|m ms IH]; intros s Hn; simpl; [done|].
  apply IH. by apply not_waiting_dequeue_other.
Qed.

Lemma sockets_sweep me (ms : list string) s :
  sockets (fold_left (fun s m => dequeue m me s) ms s) = sockets s.
Proof. revert s. induction ms as [|m ms IH]; intros s; simpl; [done|]. by rewrite IH. Qed.

Lemma queue_keys_are_modes s :
  queues_ok s -> Forall (fun m => m ∈ modes) (map fst (map_to_list (queues s))).
Proof.
  intros (K & _). apply Forall_forall. intros m Hm.
  apply list_elem_of_fmap in Hm as ([m' q] & -> & Hin).
  apply elem_of_map_to_list in Hin. apply K. simpl. eauto.
Qed.

Lemma queues_ok_delete_socket me s :
  queues_ok s -> not_waiting s me ->
  queues_ok (with_sockets (delete me (sockets s)) s).
Proof.
  intros (K & Q & W) Hn. split_and!.
  - exact K.
  - intros id so m. simpl. intros Hso. apply lookup_delete_Some in Hso as [_ Hso].
    by apply (Q id so).
  - intros m q Hq. simpl in Hq. destruct (W m q Hq) as [Hnd Hw]. split; [done|].
    intros id Hid. destruct (Hw id Hid) as (so & Hso & Hm & Hr).
    exists so. split_and!; try done. simpl.
    rewrite lookup_delete_ne; [done|]. intros <-. by apply (Hn m q).
Qed.

Lemma queues_ok_message me e s :
  queues_ok s -> is_Some (sockets s !! me) ->
  queues_ok (fst (on_message me e s)).
Proof.
  intros Hs Hme. destruct e; simpl.
  - by apply queues_ok_create_room.
  - by apply queues_ok_join_room.
  - by apply queues_ok_set_secret.
  - by apply queues_ok_guess.
  - unfold on_queue_join. destruct Hme as [so Hso]. rewrite Hso.
    apply queues_ok_run_listeners; eauto.
  - by apply queues_ok_queue_leave.
  - by apply queues_ok_reset_room.
  - by apply queues_ok_leave_room.
  - destruct (queues_ok_disconnecting me s Hs) as [H1 Hn1].
    destruct (on_disconnecting me s) as [s1 o1]. cbn [fst] in *.
    unfold on_disconnect.
    pose proof (queues_ok_sweep me _ s1 H1 (queue_keys_are_modes s1 H1)) as H2.
    pose proof (not_waiting_sweep me me (map fst (map_to_list (queues s1))) s1 Hn1) as Hn2.
    by apply queues_ok_delete_socket.
Qed.

Lemma queues_ok_init : queues_ok init.
Proof.
  split_and!.
  - intros m. unfold init, modes. simpl.
    rewrite !elem_of_cons, elem_of_nil.
    destruct (decide (m = "CLASSIC")) as [->|H1]; [split; eauto|].
    rewrite lookup_insert_ne by done.
    destruct (decide (m = "REVEAL_DIGITS")) as [->|H2]; [split; eauto|].
    rewrite lookup_insert_ne by done.
    destruct (decide (m = "REVEAL_POSITIONS")) as [->|H3]; [split; eauto|].
    rewrite lookup_insert_ne by done. rewrite lookup_empty.
    split; [intros [? ?]; done|]. intros [?|[?|[?|?]]]; done.
  - intros id so m. simpl. by rewrite lookup_empty.
  - intros m q. unfold init. simpl. intros Hq.
    assert (q = []) as ->.
    { destruct (decide (m = "CLASSIC")) as [->|H1];
        [rewrite lookup_insert_eq in Hq; congruence|].
      rewrite lookup_insert_ne in Hq by done.
      destruct (decide (m = "REVEAL_DIGITS")) as [->|H2];
        [rewrite lookup_insert_eq in Hq; congruence|].
      rewrite lookup_insert_ne in Hq by done.
      destruct (decide (m = "REVEAL_POSITIONS")) as [->|H3];
        [rewrite lookup_insert_eq in Hq; congruence|].
      rewrite lookup_insert_ne in Hq by done. by rewrite lookup_empty in Hq. }
    split; [apply NoDup_nil_2|]. intros id Hid. by apply elem_of_nil in Hid.
Qed.

Lemma reachable_queues_ok s : reachable s -> queues_ok s.
Proof.
  induction 1 as [|i s Hs IH]; [apply queues_ok_init|].
  destruct i as [id|me e]; simpl.
  - destruct (sockets s !! id) eqn:Hid; [done|]. cbn [fst].
    eapply queues_ok_frame; [exact IH|done|].
    intros id'. cbn [sockets with_sockets].
    destruct (decide (id = id')) as [<-|Hne].
    + rewrite lookup_insert_eq, Hid. done.
    + rewrite lookup_insert_ne by done. apply socket_kept_refl.
  - destruct (sockets s !! me) eqn:Hme; [|done]. apply queues_ok_message; eauto.
Qed.

(** X6. In every reachable state the queues are exactly those of the
    three modes and no queue holds a socket twice. *)
Theorem reachable_queues_are_duplicate_free s m q :
  reachable s ->
  queues s !! m = Some q ->
  NoDup q /\ m ∈ modes /\ (forall m', m' ∈ modes -> is_Some (queues s !! m')).
Proof.
  intros Hs Hq. destruct (reachable_queues_ok s Hs) as (K & Q & W).
  destruct (W m q Hq) as [Hnd _]. split_and!; [done| |].
  - apply K. eauto.
  - intros m'. apply K.
Qed.

(** X7. In every reachable state a socket that waits in a mode's queue is
    connected, has that mode as its [queueMode], has no [roomCode], and
    waits in no other mode's queue. *)
Theorem reachable_waiting_socket s m q id :
  reachable s ->
  queues s !! m = Some q ->
  id ∈ q ->
  waits_properly s m id
  /\ forall m' q', queues s !! m' = Some q' -> id ∈ q' -> m' = m.
Proof.
  intros Hs Hq Hid. destruct (reachable_queues_ok s Hs) as (K & Q & W).
  destruct (W m q Hq) as [_ Hw]. destruct (Hw id Hid) as (so & Hso & Hm & Hr).
  split; [by exists so|].
  intros m' q' Hq' Hid'. destruct (W m' q' Hq') as [_ Hw'].
  destruct (Hw' id Hid') as (so' & Hso' & Hm' & _). congruence.
Qed.

(** ** The shape of registered rooms *)

Lemma obj_keys_set {A} (o : Obj.t A) k v :
  Obj.keys (Obj.set o k v)
  = if bool_decide (k ∈ Obj.keys o) then Obj.keys o else Obj.keys o ++ [k].
Proof.
  unfold Obj.keys. induction o as [|[k' v'] o IH]; simpl; [done|].
  destruct (String.eqb k' k) eqn:E.
  - apply String.eqb_eq in E as ->. simpl.
    rewrite bool_decide_eq_true_2; [done|]. apply elem_of_cons. by left.
  - apply String.eqb_neq in E. simpl. rewrite IH.
    destruct (bool_decide (k ∈ map fst o)) eqn:B.
    + apply bool_decide_eq_true in B.
      rewrite bool_decide_eq_true_2; [done|]. apply elem_of_cons. by right.
    + apply bool_decide_eq_false in B.
      rewrite bool_decide_eq_false_2; [done|].
      intros [?|?]%elem_of_cons; [congruence|done].
Qed.

Lemma obj_keys_length {A} (o : Obj.t A) : length (Obj.keys o) = length o.
Proof. unfold Obj.keys. apply length_map. Qed.

Lemma obj_get_key {A} (o : Obj.t A) k v : Obj.get o k = Some v -> k ∈ Obj.keys o.
Proof.
  unfold Obj.get. induction o as [|[k' v'] o IH]; simpl; [done|].
  destruct (String.eqb k' k) eqn:E.
  - apply String.eqb_eq in E as ->. intros _. apply elem_of_cons. by left.
  - intros H. apply elem_of_cons. right. by apply IH.
Qed.

Lemma obj_get_elem {A} (o : Obj.t A) k v : Obj.get o k = Some v -> (k, v) ∈ o.
Proof.
  unfold Obj.get. induction o as [|[k' v'] o IH]; simpl; [done|].
  destruct (String.eqb k' k) eqn:E.
  - apply String.eqb_eq in E as ->. simpl. intros [= ->]. apply elem_of_cons. by left.
  - intros H. apply elem_of_cons. right. by apply IH.
Qed.

Lemma item_wf_mono (r r' : Room.t) (h : Item.t) :
  Room.mode r' = Room.mode r ->
  (forall id, id ∈ Room.order r -> id ∈ Room.order r') ->
  item_wf r h -> item_wf r' h.
Proof.
  intros Hm Ho (H1 & H2 & H3 & H4 & H5). unfold item_wf. rewrite Hm. auto 10.
Qed.

Lemma turn_seat_in_order room me : turn_seat room = Some me -> me ∈ Room.order room.
Proof.
  unfold turn_seat. destruct (length (Room.order room)); [done|].
  intros H. by eapply list_elem_of_lookup_2.
Qed.

Lemma room_wf_created code mode me name :
  room_wf (Room.with_order ([] ++ [me])
             (Room.with_players (Obj.set [] me (Player.mk name None false))
                (Room.mk code mode [] [] 0 None []))).
Proof.
  unfold room_wf. simpl.
  split_and!; try done; try lia; try apply NoDup_singleton;
    try apply Forall_nil_2; by repeat constructor.
Qed.

Lemma room_wf_matched code mode me opp n1 n2 :
  room_wf (Room.with_order ([] ++ [me; opp])
             (Room.with_players
                (Obj.set (Obj.set [] me (Player.mk n1 None false)) opp
                   (Player.mk n2 None false))
                (Room.mk code mode [] [] 0 None []))).
Proof.
  unfold room_wf. simpl. destruct (String.eqb me opp) eqn:E; simpl.
  - apply String.eqb_eq in E as ->.
    split_and!; try done; try lia; try apply NoDup_singleton;
      try apply Forall_nil_2; try (by repeat constructor).
    intros id. rewrite !elem_of_cons. tauto.
  - apply String.eqb_neq in E.
    split_and!; try done; try lia; try apply Forall_nil_2;
      try (by repeat constructor).
    apply NoDup_cons. split; [|apply NoDup_singleton].
    intros H. apply list_elem_of_singleton in H. done.
Qed.

Lemma room_wf_joined room me name :
  room_wf room ->
  length (Obj.keys (Room.players room)) < 2 ->
  room_wf (Room.with_order (Room.order room ++ [me])
             (Room.with_players
                (Obj.set (Room.players room) me (Player.mk name None false)) room)).
Proof.
  intros (Hlen & Hnd & Hord & Ht & Hp & Hh) Hlt.
  rewrite obj_keys_length in Hlt.
  unfold room_wf. simpl. rewrite obj_keys_set.
  split_and!.
  - rewrite <- obj_keys_length, obj_keys_set.
    case_bool_decide; rewrite ?length_app, obj_keys_length; simpl; lia.
  - case_bool_decide as Hin; [done|].
    apply NoDup_app. split_and!; [done| |apply NoDup_singleton].
    intros x Hx Hx'. apply list_elem_of_singleton in Hx'. by subst.
  - intros id. rewrite elem_of_app, list_elem_of_singleton, Hord.
    case_bool_decide as Hin.
    + split; [intros [?| ->]; done|auto].
    + by rewrite elem_of_app, list_elem_of_singleton.
  - rewrite length_app. simpl. lia.
  - apply obj_set_Forall; [done|]. done.
  - eapply Forall_impl; [exact Hh|]. intros h. apply item_wf_mono; [done|].
    simpl. intros id Hid. apply elem_of_app. by left.
Qed.

Lemma room_wf_committed room me p secret coin :
  room_wf room ->
  Obj.get (Room.players room) me = Some p ->
  Js.test_4digits secret = true ->
  let room1 :=
    Room.with_players
      (Obj.set (Room.players room) me (Player.mk (Player.name p) (Some secret) true))
      room in
  room_wf
    (if ((length (filter (fun pl => Player.ready pl = true)
                         (Obj.values (Room.players room1))) =? 2)
         && (length (Room.order room1) =? 2))%nat
     then Room.with_winner None (Room.with_turnIndex (Nat.b2n coin) room1)
     else room1).
Proof.
  intros (Hlen & Hnd & Hord & Ht & Hp & Hh) Hget Hsec room1.
  assert (room_wf room1) as H1.
  { unfold room_wf, room1. simpl. rewrite obj_keys_set.
    rewrite bool_decide_eq_true_2 by (by eapply obj_get_key).
    split_and!; try done.
    - rewrite obj_set_length; [done|eauto].
    - apply obj_set_Forall; [done|]. done. }
  destruct (_ && _) eqn:E; [|done].
  apply andb_true_iff in E as [_ E]. apply Nat.eqb_eq in E.
  destruct H1 as (? & ? & ? & ? & ? & ?).
  unfold room_wf. simpl in *. split_and!; try done.
  rewrite E. destruct coin; simpl; lia.
Qed.

Lemma countCorrectPositions_le_4 (guess secret : string) :
  countCorrectPositions guess secret <= 4.
Proof.
  unfold countCorrectPositions.
  pose proof (count_loop_bound guess secret (seq 0 4) 0) as H. simpl in *. lia.
Qed.

Lemma room_wf_guessed room me g sec now :
  room_wf room ->
  turn_seat room = Some me ->
  Js.test_4digits g = true ->
  let item := make_item room me g sec now in
  let room1 := Room.with_history (Room.history room ++ [item]) room in
  room_wf
    (if (Item.correctCount item =? 4)%nat
     then Room.with_winner (Some me) room1
     else Room.with_turnIndex
            ((Room.turnIndex room1 + 1) mod length (Room.order room1)) room1).
Proof.
  intros (Hlen & Hnd & Hord & Ht & Hp & Hh) Hturn Hg item room1.
  assert (item_wf room item) as Hitem.
  { unfold item_wf, item, make_item. simpl. split_and!.
    - done.
    - apply countCorrectPositions_le_4.
    - by apply turn_seat_in_order.
    - destruct (String.eqb (Room.mode room) "REVEAL_DIGITS") eqn:E.
      + apply String.eqb_eq in E. split; eauto.
      + apply String.eqb_neq in E. split; [intros [? ?]; done|done].
    - destruct (String.eqb (Room.mode room) "REVEAL_POSITIONS") eqn:E.
      + apply String.eqb_eq in E. split; eauto.
      + apply String.eqb_neq in E. split; [intros [? ?]; done|done]. }
  assert (Forall (item_wf room) (Room.history room ++ [item])) as Hh'.
  { apply Forall_app. split; [done|]. by apply Forall_singleton. }
  destruct (_ =? 4)%nat; unfold room_wf; simpl; split_and!; try done.
  apply Nat.mod_upper_bound. lia.
Qed.

Lemma room_wf_reset room :
  room_wf room ->
  let room1 :=
    Room.with_winner None
      (Room.with_history []
         (Room.with_players
            (map (fun '(id, p) => (id, Player.mk (Player.name p) None false))
                 (Room.players room)) room)) in
  room_wf
    (Room.with_turnIndex
       (if (length (Room.order room1) =? 2)%nat
        then (Room.turnIndex room1 + 1) mod 2 else 0) room1).
Proof.
  intros (Hlen & Hnd & Hord & Ht & Hp & Hh) room1.
  assert (Obj.keys
            (map (fun '(id, p) => (id, Player.mk (Player.name p) None false))
                 (Room.players room)) = Obj.keys (Room.players room)) as Hkeys.
  { unfold Obj.keys. rewrite map_map. apply map_ext. by intros [? ?]. }
  unfold room_wf. simpl. rewrite Hkeys. split_and!; try done.
  - by rewrite length_map.
  - destruct (length (Room.order room) =? 2)%nat eqn:E.
    + apply Nat.eqb_eq in E.
      pose proof (Nat.mod_upper_bound (Room.turnIndex room + 1) 2). lia.
    + lia.
  - apply Forall_map. eapply Forall_impl; [exact Hp|]. by intros [? ?].
Qed.

Lemma rooms_wf_insert key room s s' :
  rooms_wf s -> room_wf room -> rooms s' = <[key := room]> (rooms s) -> rooms_wf s'.
Proof. unfold rooms_wf. intros Hs Hr ->. by apply map_Forall_insert_2. Qed.

Lemma rooms_wf_same s s' : rooms_wf s -> rooms s' = rooms s -> rooms_wf s'.
Proof. unfold rooms_wf. by intros Hs ->. Qed.

Lemma rooms_wf_destroyRoom code reason s :
  rooms_wf s -> rooms_wf (fst (destroyRoom code reason s)).
Proof.
  unfold rooms_wf. rewrite rooms_destroyRoom. intros H. by apply map_Forall_delete.
Qed.

Lemma rooms_wf_create_room me name mode nano s :
  rooms_wf s -> rooms_wf (fst (on_create_room me name mode nano s)).
Proof.
  intros Hs. unfold on_create_room, makeRoom. cbn [fst snd].
  unfold rooms_wf. cbn [rooms with_rooms set_data with_sockets].
  rewrite insert_insert_eq, rooms_leave_queue_first.
  apply map_Forall_insert_2; [|done]. apply room_wf_created.
Qed.

Lemma rooms_wf_join_room me code name s :
  rooms_wf s -> rooms_wf (fst (on_join_room me code name s)).
Proof.
  intros Hs. unfold on_join_room.
  assert (rooms_wf (leave_queue_first me s)) as Hs'
    by (eapply rooms_wf_same; [exact Hs|apply rooms_leave_queue_first]).
  destruct (rooms (leave_queue_first me s) !! _) as [room|] eqn:Hr; [|done].
  destruct (2 <=? _)%nat eqn:E; [done|]. cbn [fst].
  apply Nat.leb_gt in E.
  eapply rooms_wf_insert; [exact Hs'| |reflexivity].
  apply room_wf_joined; [by apply (Hs' _ _ Hr)|done].
Qed.

Lemma rooms_wf_set_secret me code secret coin s :
  rooms_wf s -> rooms_wf (fst (on_set_secret me code secret coin s)).
Proof.
  intros Hs. unfold on_set_secret.
  destruct (rooms s !! code) as [room|] eqn:Hr; [|done].
  destruct (Obj.get _ me) as [p|] eqn:Hp; [|done].
  destruct (Js.test_4digits secret) eqn:Ht; [|done]. cbn [negb fst].
  eapply rooms_wf_insert; [exact Hs| |reflexivity].
  by apply room_wf_committed; [apply (Hs _ _ Hr)| |].
Qed.

Lemma rooms_wf_guess me code g now s :
  rooms_wf s -> rooms_wf (fst (on_guess me code g now s)).
Proof.
  intros Hs. unfold on_guess.
  destruct (rooms s !! code) as [room|] eqn:Hr; [|done].
  destruct (Js.truthy (Room.winner room)); [done|].
  case_bool_decide as Hturn; [|done]. cbn [negb].
  destruct (Js.test_4digits g) eqn:Hg; [|done]. cbn [negb].
  destruct (negb (Js.truthy _)); [done|]. cbn [fst].
  eapply rooms_wf_insert; [exact Hs| |reflexivity].
  by apply room_wf_guessed; [apply (Hs _ _ Hr)| |].
Qed.

Lemma rooms_wf_queue_join_listener me mode name nano s :
  rooms_wf s -> rooms_wf (fst (queue_join_listener me mode name nano s)).
Proof.
  intros Hs. unfold queue_join_listener.
  destruct (queues s !! _); [|done].
  destruct (Js.truthy (get_data me Socket.roomCode s)); [done|].
  destruct (isInAnyQueue me s); [done|].
  match goal with
  | |- context [popOpponent ?m ?e ?x] =>
      pose proof (rooms_popOpponent m e x) as Hpop;
      destruct (popOpponent m e x) as [opp s1]
  end.
  cbn [snd] in Hpop.
  assert (rooms s1 = rooms s) as Hpop' by exact Hpop. clear Hpop.
  destruct (negb (Js.truthy opp)).
  { eapply rooms_wf_same; [exact Hs|done]. }
  destruct (sockets (dequeue _ me s1) !! _) as [oppSocket|].
  - unfold makeRoom. cbn [fst snd]. unfold rooms_wf.
    cbn [rooms with_rooms set_data with_sockets dequeue with_queues Room.code].
    rewrite insert_insert_eq, Hpop'.
    apply map_Forall_insert_2; [|done]. apply room_wf_matched.
  - eapply rooms_wf_same; [exact Hs|done].
Qed.

Lemma rooms_wf_run_listeners n f s :
  (forall s, rooms_wf s -> rooms_wf (fst (f s))) ->
  rooms_wf s -> rooms_wf (fst (run_listeners n f s)).
Proof.
  intros Hf. revert s. induction n as [|n IH]; intros s Hs; simpl; [done|].
  specialize (Hf s Hs). destruct (f s) as [s1 o1]. simpl in Hf.
  specialize (IH s1 Hf). destruct (run_listeners n f s1). done.
Qed.

Lemma rooms_wf_reset_room code s :
  rooms_wf s -> rooms_wf (fst (on_reset_room code s)).
Proof.
  intros Hs. unfold on_reset_room.
  destruct (rooms s !! code) as [room|] eqn:Hr; [|done].
  destruct (_ <? 2)%nat; [by apply rooms_wf_destroyRoom|]. cbn [fst].
  eapply rooms_wf_insert; [exact Hs| |reflexivity].
  apply room_wf_reset. by apply (Hs _ _ Hr).
Qed.

Lemma rooms_wf_message me e s : rooms_wf s -> rooms_wf (fst (on_message me e s)).
Proof.
  intros Hs. destruct e; simpl.
  - by apply rooms_wf_create_room.
  - by apply rooms_wf_join_room.
  - by apply rooms_wf_set_secret.
  - by apply rooms_wf_guess.
  - unfold on_queue_join. destruct (sockets s !! me); [|done].
    apply rooms_wf_run_listeners; [|done].
    intros. by apply rooms_wf_queue_join_listener.
  - unfold on_queue_leave. eapply rooms_wf_same; [exact Hs|].
    simpl. by destruct (Js.truthy _).
  - by apply rooms_wf_reset_room.
  - unfold on_leave_room. destruct (rooms s !! code); [|done].
    destruct (Obj.get _ me); [|done]. by apply rooms_wf_destroyRoom.
  - assert (rooms_wf (fst (on_disconnecting me s))) as H.
    { unfold on_disconnecting.
      set (s1 := if Js.truthy _ then _ else s).
      assert (rooms_wf s1) as H1.
      { eapply rooms_wf_same; [exact Hs|]. unfold s1. by destruct (Js.truthy _). }
      destruct (_ && _); [by apply rooms_wf_destroyRoom|done]. }
    destruct (on_disconnecting me s) as [s1 o1]. simpl in *.
    eapply rooms_wf_same; [exact H|]. simpl. unfold on_disconnect. apply rooms_sweep.
Qed.

Lemma reachable_rooms_wf s : reachable s -> rooms_wf s.
Proof.
  induction 1 as [|i s Hs IH].
  - unfold rooms_wf. simpl. apply map_Forall_empty.
  - destruct i as [id|me e]; simpl.
    + destruct (sockets s !! id); done.
    + destruct (sockets s !! me); [|done]. by apply rooms_wf_message.
Qed.

Lemma one_waiting_reachable : reachable one_waiting.
Proof. repeat apply reachable_run. apply reachable_init. Qed.

Lemma one_waiting_queue : queues one_waiting !! "CLASSIC" = Some ["A"].
Proof. vm_compute. reflexivity. Qed.

Lemma reachable_queues_are_duplicate_free_witness :
  NoDup ["A"] /\ "CLASSIC" ∈ modes
  /\ (forall m', m' ∈ modes -> is_Some (queues one_waiting !! m')).
Proof.
  exact (reachable_queues_are_duplicate_free one_waiting "CLASSIC" ["A"]
           one_waiting_reachable one_waiting_queue).
Defined.

Lemma reachable_waiting_socket_witness :
  waits_properly one_waiting "CLASSIC" "A"
  /\ forall m' q', queues one_waiting !! m' = Some q' -> "A" ∈ q' -> m' = "CLASSIC".
Proof.
  apply (reachable_waiting_socket one_waiting "CLASSIC" ["A"] "A"
           one_waiting_reachable one_waiting_queue).
  apply list_elem_of_singleton. reflexivity.
Defined.

(** ** Disconnecting *)

Lemma filter_filter_same (id : string) (q : list string) :
  filter (fun x => x <> id) (filter (fun x => x <> id) q)
  = filter (fun x => x <> id) q.
Proof.
  apply filter_absent. intros Hin. apply list_elem_of_filter in Hin as [Hin _].
  by apply Hin.
Qed.

Lemma queue_of_dequeue_ne m m' id s :
  m <> m' -> queue_of m' (dequeue m id s) = queue_of m' s.
Proof. intros Hne. unfold dequeue, queue_of at 1. simpl. by rewrite lookup_insert_ne. Qed.

Lemma sweep_lookup me (ms : list string) s m :
  queues (fold_left (fun s m => dequeue m me s) ms s) !! m
  = if bool_decide (m ∈ ms)
    then Some (filter (fun x => x <> me) (queue_of m s))
    else queues s !! m.
Proof.
  revert s. induction ms as [|m0 ms IH]; intros s; simpl.
  - done.
  - rewrite IH. destruct (decide (m0 = m)) as [->|Hne].
    + rewrite (bool_decide_eq_true_2 (m ∈ m :: ms)) by (apply elem_of_cons; by left).
      case_bool_decide.
      * by rewrite queue_of_dequeue, filter_filter_same.
      * unfold dequeue. simpl. by rewrite lookup_insert_eq.
    + case_bool_decide as Hin.
      * rewrite bool_decide_eq_true_2 by (apply elem_of_cons; by right).
        by rewrite queue_of_dequeue_ne.
      * rewrite bool_decide_eq_false_2
          by (intros [?|?]%elem_of_cons; [congruence|done]).
        unfold dequeue. simpl. by rewrite lookup_insert_ne.
Qed.

(** The sweep of the [disconnect] listener leaves the socket in no queue,
    whatever the state. *)
Lemma not_waiting_on_disconnect me s : not_waiting (on_disconnect me s) me.
Proof.
  intros m q. unfold on_disconnect. rewrite sweep_lookup.
  case_bool_decide as Hin.
  - intros [= <-] Hq. apply list_elem_of_filter in Hq as [Hq _]. by apply Hq.
  - intros Hq. destruct Hin. apply list_elem_of_fmap.
    exists (m, q). split; [done|]. by apply elem_of_map_to_list.
Qed.

Lemma rooms_on_disconnecting me s c r :
  rooms (fst (on_disconnecting me s)) !! c = Some r -> rooms s !! c = Some r.
Proof.
  unfold on_disconnecting.
  set (s1 := if Js.truthy _ then _ else s).
  assert (rooms s1 = rooms s) as H1 by (unfold s1; by destruct (Js.truthy _)).
  clearbody s1. destruct (_ && _).
  - rewrite rooms_destroyRoom, <- H1. intros H.
    by apply lookup_delete_Some in H as [_ H].
  - cbn [fst]. by rewrite H1.
Qed.

(** X8. Disconnecting removes the socket from the connected sockets and
    from every queue, creates no room, and leaves no room registered
    under the socket's [roomCode]. *)
Theorem disconnect_cleans_up s me so :
  sockets s !! me = Some so ->
  let s' := fst (step (message me ev_disconnect) s) in
  sockets s' !! me = None
  /\ not_waiting s' me
  /\ (forall c r, rooms s' !! c = Some r -> rooms s !! c = Some r)
  /\ (forall c, Socket.roomCode (Socket.data_ so) = Some c -> c <> "" ->
        rooms s' !! c = None).
Proof.
  intros Hso s'. unfold s'. simpl. rewrite Hso.
  pose proof (rooms_on_disconnecting me s) as Hrooms.
  assert (forall c, Socket.roomCode (Socket.data_ so) = Some c -> c <> "" ->
            rooms (fst (on_disconnecting me s)) !! c = None) as Hgone.
  { intros c Hc Hne. unfold on_disconnecting.
    set (s1 := if Js.truthy _ then _ else s).
    assert (rooms s1 = rooms s /\ sockets s1 = sockets s) as [H1 H2]
      by (unfold s1; by destruct (Js.truthy _)).
    assert (get_data me Socket.roomCode s1 = Some c) as ->
      by (unfold get_data; by rewrite H2, Hso).
    clearbody s1. rewrite (truthy_Some c Hne). simpl.
    case_bool_decide as Hex.
    - rewrite rooms_destroyRoom. apply lookup_delete_eq.
    - destruct (rooms s1 !! c) eqn:E; [|done]. destruct Hex. eauto. }
  destruct (on_disconnecting me s) as [s1 o1]. cbn [fst] in *.
  split_and!.
  - simpl. apply lookup_delete_eq.
  - intros m q. simpl. apply (not_waiting_on_disconnect me s1 m q).
  - intros c r. simpl. unfold on_disconnect. rewrite rooms_sweep. apply Hrooms.
  - intros c Hc Hne. simpl. unfold on_disconnect. rewrite rooms_sweep. by apply Hgone.
Qed.

Lemma disconnect_cleans_up_witness :
  let s' := fst (step (message "A" ev_disconnect) duel_started) in
  sockets s' !! "A" = None
  /\ not_waiting s' "A"
  /\ (forall c r, rooms s' !! c = Some r -> rooms duel_started !! c = Some r)
  /\ (forall c, Some "ABC123" = Some c -> c <> "" -> rooms s' !! c = None).
Proof.
  apply (disconnect_cleans_up duel_started "A"
           (Socket.mk (Socket.mkData (Some "ABC123") None None) 0)).
  vm_compute. reflexivity.
Defined.

(** ** Registered rooms *)

(** X10. In every reachable state a registered room has at most two
    players, each under a different id; its [order] holds exactly the
    players' ids (possibly repeated); and [turnIndex] is a valid index
    into [order]. *)
Theorem reachable_room_shape s code room :
  reachable s ->
  rooms s !! code = Some room ->
  length (Obj.keys (Room.players room)) <= 2
  /\ NoDup (Obj.keys (Room.players room))
  /\ (forall id, id ∈ Room.order room <-> id ∈ Obj.keys (Room.players room))
  /\ Room.turnIndex room < length (Room.order room).
Proof.
  intros Hs Hr. destruct (reachable_rooms_wf s Hs _ _ Hr) as (H1 & H2 & H3 & H4 & _).
  rewrite obj_keys_length. done.
Qed.

Lemma reachable_room_shape_witness :
  length (Obj.keys (Room.players duel_room)) <= 2
  /\ NoDup (Obj.keys (Room.players duel_room))
  /\ (forall id, id ∈ Room.order duel_room <-> id ∈ Obj.keys (Room.players duel_room))
  /\ Room.turnIndex duel_room < length (Room.order duel_room).
Proof.
  exact (reachable_room_shape duel_started "ABC123" duel_room
           duel_started_reachable duel_started_room).
Defined.

(** X11. In every reachable state a player is ready exactly when a
    secret is committed: the two fields are set together by set-secret
    and cleared together by reset-room. *)
Theorem reachable_player_secret s code room id p :
  reachable s ->
  rooms s !! code = Some room ->
  Obj.get (Room.players room) id = Some p ->
  Player.ready p = true <-> is_Some (Player.secret p).
Proof.
  intros Hs Hr Hp.
  destruct (reachable_rooms_wf s Hs _ _ Hr) as (_ & _ & _ & _ & Hps & _).
  apply obj_get_elem in Hp.
  rewrite Forall_forall in Hps. specialize (Hps _ Hp). simpl in Hps.
  unfold player_wf in Hps. destruct (Player.secret p) as [sec|].
  - destruct Hps as [H1 H2]. split; eauto.
  - rewrite Hps. split; [done|]. intros [? ?]. done.
Qed.

Lemma reachable_player_secret_witness :
  Obj.get (Room.players duel_room) "B" = Some (Player.mk "bob" (Some "5678") true) /\
  (Player.ready (Player.mk "bob" (Some "5678") true) = true
   <-> is_Some (Player.secret (Player.mk "bob" (Some "5678") true))).
Proof.
  split; [reflexivity|].
  exact (reachable_player_secret duel_started "ABC123" duel_room "B" _
           duel_started_reachable duel_started_room eq_refl).
Defined.

(** X12. In every reachable state each history entry holds a 4-digit
    guess made by one of the room's players and a score of at most 4; it
    carries [feedbackDigits] exactly in a REVEAL_DIGITS room and
    [feedbackMask] exactly in a REVEAL_POSITIONS room. *)
Theorem reachable_history_entry s code room h :
  reachable s ->
  rooms s !! code = Some room ->
  h ∈ Room.history room ->
  Js.test_4digits (Item.guess h) = true
  /\ Item.correctCount h <= 4
  /\ Item.by_ h ∈ Obj.keys (Room.players room)
  /\ (is_Some (Item.feedbackDigits h) <-> Room.mode room = "REVEAL_DIGITS")
  /\ (is_Some (Item.feedbackMask h) <-> Room.mode room = "REVEAL_POSITIONS").
Proof.
  intros Hs Hr Hh.
  destruct (reachable_rooms_wf s Hs _ _ Hr) as (_ & _ & Hord & _ & _ & Hhs).
  rewrite Forall_forall in Hhs. destruct (Hhs _ Hh) as (H1 & H2 & H3 & H4 & H5).
  split_and!; try done. by apply Hord.
Qed.

Lemma reachable_history_entry_witness :
  rooms duel_won !! "ABC123" = Some won_room /\
  Js.test_4digits (Item.guess winning_item) = true
  /\ Item.correctCount winning_item <= 4
  /\ Item.by_ winning_item ∈ Obj.keys (Room.players won_room)
  /\ (is_Some (Item.feedbackDigits winning_item) <-> Room.mode won_room = "REVEAL_DIGITS")
  /\ (is_Some (Item.feedbackMask winning_item)
      <-> Room.mode won_room = "REVEAL_POSITIONS").
Proof.
  assert (rooms duel_won !! "ABC123" = Some won_room) as H1 by (vm_compute; reflexivity).
  assert (reachable duel_won) as H0
    by (repeat apply reachable_run; apply reachable_init).
  assert (winning_item ∈ Room.history won_room) as H2
    by (apply list_elem_of_singleton; reflexivity).
  exact (conj H1 (reachable_history_entry duel_won "ABC123" won_room winning_item
                    H0 H1 H2)).
Defined.

(** X13. In every reachable state the [currentTurn] of the room summary
    is the seat the guess handler lets through (or null when that id is
    empty): [order[turnIndex]] and [order[turnIndex % order.length]]
    agree. *)
Theorem reachable_currentTurn_is_turn_seat s code room :
  reachable s ->
  rooms s !! code = Some room ->
  Public.currentTurn (publicRoom room) = Js.or_null (turn_seat room).
Proof.
  intros Hs Hr. destruct (reachable_rooms_wf s Hs _ _ Hr) as (_ & _ & _ & Ht & _).
  unfold publicRoom, turn_seat. cbn [Public.currentTurn].
  destruct (length (Room.order room)) as [|n] eqn:E; [lia|].
  by rewrite Nat.mod_small by lia.
Qed.

Lemma reachable_currentTurn_is_turn_seat_witness :
  Public.currentTurn (publicRoom duel_room) = Js.or_null (turn_seat duel_room).
Proof.
  exact (reachable_currentTurn_is_turn_seat duel_started "ABC123" duel_room
           duel_started_reachable duel_started_room).
Defined.

(** ** What a handler does to its room *)

Lemma obj_get_set_eq {A} (o : Obj.t A) k v : Obj.get (Obj.set o k v) k = Some v.
Proof.
  unfold Obj.get. induction o as [|[k' v'] o IH]; simpl.
  - by rewrite String.eqb_refl.
  - destruct (String.eqb k' k) eqn:E; simpl.
    + by rewrite String.eqb_refl.
    + by rewrite E.
Qed.

Lemma obj_get_set_ne {A} (o : Obj.t A) k k' v :
  k' <> k -> Obj.get (Obj.set o k v) k' = Obj.get o k'.
Proof.
  intros Hne. unfold Obj.get. induction o as [|[k0 v0] o IH]; simpl.
  - assert (String.eqb k k' = false) as -> by (apply String.eqb_neq; congruence).
    done.
  - destruct (String.eqb k0 k) eqn:E; simpl.
    + apply String.eqb_eq in E as ->.
      assert (String.eqb k k' = false) as -> by (apply String.eqb_neq; congruence).
      done.
    + destruct (String.eqb k0 k'); [done|]. apply IH.
Qed.

(** X14. A set-secret event either changes nothing and emits nothing
    (unknown room, sender not a player, or secret not 4 digits), or it
    records the secret and the ready flag of the sender alone, keeps the
    other players, the order and the history, and emits one room-update
    to the room. *)
Theorem set_secret_outcome s me code secret coin :
  let '(s', out) := step (message me (ev_set_secret code secret coin)) s in
  (s' = s /\ out = [])
  \/ (exists room p room',
        rooms s !! code = Some room
        /\ Obj.get (Room.players room) me = Some p
        /\ Js.test_4digits secret = true
        /\ s' = with_rooms (<[code := room']> (rooms s)) s
        /\ Obj.get (Room.players room') me
           = Some (Player.mk (Player.name p) (Some secret) true)
        /\ (forall id, id <> me ->
              Obj.get (Room.players room') id = Obj.get (Room.players room) id)
        /\ Room.order room' = Room.order room
        /\ Room.history room' = Room.history room
        /\ out = [(code, room_update (publicRoom room'))]).
Proof.
  simpl. destruct (sockets s !! me); [|by left]. simpl. unfold on_set_secret.
  destruct (rooms s !! code) as [room|] eqn:Hr; [|by left].
  destruct (Obj.get (Room.players room) me) as [p|] eqn:Hp; [|by left].
  destruct (Js.test_4digits secret) eqn:Ht; [|by left]. cbn [negb].
  right. exists room, p. eexists. split_and!; try reflexivity; try done.
  - destruct (_ && _); simpl; apply obj_get_set_eq.
  - intros id Hid. destruct (_ && _); simpl; by apply obj_get_set_ne.
  - by destruct (_ && _).
  - by destruct (_ && _).
Qed.

(** X15. A guess event either changes nothing, emitting at most one
    error message, to the sender alone; or it is scored: the room is
    winner-free, it is the sender's turn, the guess is 4 digits, exactly
    one entry by the sender is appended to the history, players and order
    are kept, and history-update and room-update go to the room, after
    game-over when the guess scores 4. *)
Theorem guess_outcome s me code g now :
  let '(s', out) := step (message me (ev_guess code g now)) s in
  (s' = s
   /\ (out = [] \/ out = [(me, error_msg "Guess must be 4 digits.")]
       \/ out = [(me, error_msg "Opponent not ready yet.")]))
  \/ (exists room room' item,
        rooms s !! code = Some room
        /\ Js.truthy (Room.winner room) = false
        /\ turn_seat room = Some me
        /\ Js.test_4digits g = true
        /\ rooms s' = <[code := room']> (rooms s)
        /\ queues s' = queues s
        /\ Room.history room' = Room.history room ++ [item]
        /\ Item.by_ item = me /\ Item.guess item = g
        /\ Room.players room' = Room.players room
        /\ Room.order room' = Room.order room
        /\ out = (if (Item.correctCount item =? 4)%nat
                  then [(code, game_over me)] else [])
                 ++ [(code, history_update (map slimHistory (Room.history room')));
                     (code, room_update (publicRoom room'))]).
Proof.
  assert (forall (st : server) (out : list emit),
            out = [] \/ out = [(me, error_msg "Guess must be 4 digits.")]
            \/ out = [(me, error_msg "Opponent not ready yet.")] ->
            (st = st /\ (out = [] \/ out = [(me, error_msg "Guess must be 4 digits.")]
                         \/ out = [(me, error_msg "Opponent not ready yet.")]))) as Hsame
    by (intros; split; [reflexivity|assumption]).
  simpl. destruct (sockets s !! me); [|left; apply Hsame; tauto].
  simpl. unfold on_guess.
  destruct (rooms s !! code) as [room|] eqn:Hr; [|left; apply Hsame; tauto].
  destruct (Js.truthy (Room.winner room)) eqn:Hw; [left; apply Hsame; tauto|].
  case_bool_decide as Hturn; cbn [negb]; [|left; apply Hsame; tauto].
  destruct (Js.test_4digits g) eqn:Hg; cbn [negb]; [|left; apply Hsame; tauto].
  destruct (Js.truthy (_ ≫= _)) eqn:Hopp; cbn [negb]; [|left; apply Hsame; tauto].
  right. exists room. eexists. eexists. split_and!; try reflexivity; try done.
  all: by destruct (_ =? 4)%nat.
Qed.

Lemma flip_differs (t : nat) : (t + 1) mod 2 <> t mod 2.
Proof.
  assert (t mod 2 = 0 \/ t mod 2 = 1) as [H|H]
    by (pose proof (Nat.mod_upper_bound t 2); lia);
    rewrite Nat.Div0.add_mod, H; simpl; lia.
Qed.

(** X16. A reset-room event for a room with at least two players keeps
    the room registered with the same players (names and ids) and order,
    clears every secret and ready flag, the history and the winner, and,
    when the order has two seats, sets turnIndex to the other seat
    ([(turnIndex + 1) mod 2]); with another order length turnIndex is 0. *)
Theorem reset_starts_new_round s me code room so :
  sockets s !! me = Some so ->
  rooms s !! code = Some room ->
  2 <= length (Obj.keys (Room.players room)) ->
  let s' := fst (step (message me (ev_reset_room code)) s) in
  exists room',
    rooms s' = <[code := room']> (rooms s)
    /\ Room.history room' = []
    /\ Room.winner room' = None
    /\ Room.order room' = Room.order room
    /\ map (fun kv => (fst kv, Player.name (snd kv))) (Room.players room')
       = map (fun kv => (fst kv, Player.name (snd kv))) (Room.players room)
    /\ Forall (fun kv => Player.secret (snd kv) = None /\ Player.ready (snd kv) = false)
              (Room.players room')
    /\ (length (Room.order room) = 2 ->
          Room.turnIndex room' = (Room.turnIndex room + 1) mod 2
          /\ Room.turnIndex room' <> Room.turnIndex room mod 2)
    /\ (length (Room.order room) <> 2 -> Room.turnIndex room' = 0).
Proof.
  intros Hso Hr Hlen s'. unfold s'. simpl. rewrite Hso. simpl.
  unfold on_reset_room. rewrite Hr.
  assert ((length (Obj.keys (Room.players room)) <? 2)%nat = false) as ->
    by (apply Nat.ltb_ge; lia).
  cbn [fst]. eexists. split_and!; try reflexivity.
  - simpl. rewrite map_map. apply map_ext. by intros [? ?].
  - simpl. apply Forall_map. apply Forall_forall. by intros [? ?] _.
  - intros E. simpl. rewrite E. simpl. split; [done|]. apply flip_differs.
  - intros E. simpl. apply Nat.eqb_neq in E. by rewrite E.
Qed.

Lemma reset_starts_new_round_witness :
  let s' := fst (step (message "B" (ev_reset_room "ABC123")) duel_won) in
  exists room',
    rooms s' = <["ABC123" := room']> (rooms duel_won)
    /\ Room.history room' = []
    /\ Room.winner room' = None
    /\ Room.order room' = Room.order won_room
    /\ map (fun kv => (fst kv, Player.name (snd kv))) (Room.players room')
       = map (fun kv => (fst kv, Player.name (snd kv))) (Room.players won_room)
    /\ Forall (fun kv => Player.secret (snd kv) = None /\ Player.ready (snd kv) = false)
              (Room.players room')
    /\ (length (Room.order won_room) = 2 ->
          Room.turnIndex room' = (Room.turnIndex won_room + 1) mod 2
          /\ Room.turnIndex room' <> Room.turnIndex won_room mod 2)
    /\ (length (Room.order won_room) <> 2 -> Room.turnIndex room' = 0).
Proof.
  apply (reset_starts_new_round duel_won "B" "ABC123" won_room
           (Socket.mk (Socket.mkData (Some "ABC123") None None) 0)).
  - vm_compute. reflexivity.
  - vm_compute. reflexivity.
  - simpl. lia.
Defined.

Lemma clear_roomCodes_lookup ids s id :
  sockets (fold_left (fun s id => set_data id (Socket.with_roomCode None) s) ids s)
    !! id
  = if bool_decide (id ∈ ids)
    then Socket.map_data (Socket.with_roomCode None) <$> sockets s !! id
    else sockets s !! id.
Proof.
  revert s. induction ids as [|i ids IH]; intros s; simpl; [done|].
  rewrite IH. unfold set_data. cbn [sockets with_sockets].
  destruct (decide (i = id)) as [->|Hne].
  - rewrite (bool_decide_eq_true_2 (id ∈ id :: ids)) by (apply elem_of_cons; by left).
    rewrite lookup_alter_eq. case_bool_decide; [|done].
    by destruct (sockets s !! id).
  - rewrite lookup_alter_ne by done. case_bool_decide as Hin.
    + by rewrite bool_decide_eq_true_2 by (apply elem_of_cons; by right).
    + by rewrite bool_decide_eq_false_2
        by (intros [?|?]%elem_of_cons; [congruence|done]).
Qed.

(** X17. [destroyRoom] on a registered room removes exactly that room,
    leaves the queues alone, clears the [roomCode] of each of its players
    that is connected, touches no other socket, and emits room-destroyed
    to the room; destroying again is a no-op. *)
Theorem destroyRoom_tears_down s code reason room :
  rooms s !! code = Some room ->
  let '(s', out) := destroyRoom code reason s in
  rooms s' = delete code (rooms s)
  /\ queues s' = queues s
  /\ (forall id, id ∈ Obj.keys (Room.players room) ->
        get_data id Socket.roomCode s' = None)
  /\ (forall id, id ∉ Obj.keys (Room.players room) ->
        sockets s' !! id = sockets s !! id)
  /\ out = [(code, room_destroyed reason)]
  /\ destroyRoom code reason s' = (s', []).
Proof.
  intros Hr. unfold destroyRoom at 1. rewrite Hr.
  pose proof (clear_roomCodes_kept (Obj.keys (Room.players room)) s) as [Hq _].
  pose proof (rooms_clear_roomCodes (Obj.keys (Room.players room)) s) as Hrooms.
  pose proof (clear_roomCodes_lookup (Obj.keys (Room.players room)) s) as Hk.
  set (s1 := fold_left _ _ s) in *. clearbody s1.
  split_and!.
  - simpl. by rewrite Hrooms.
  - exact Hq.
  - intros id Hid. unfold get_data. simpl. rewrite Hk.
    rewrite bool_decide_eq_true_2 by done. by destruct (sockets s !! id).
  - intros id Hid. simpl. rewrite Hk. by rewrite bool_decide_eq_false_2.
  - reflexivity.
  - unfold destroyRoom. simpl. by rewrite lookup_delete_eq.
Qed.

Lemma destroyRoom_tears_down_witness :
  let '(s', out) := destroyRoom "ABC123" "player-left" duel_started in
  rooms s' = delete "ABC123" (rooms duel_started)
  /\ queues s' = queues duel_started
  /\ (forall id, id ∈ Obj.keys (Room.players duel_room) ->
        get_data id Socket.roomCode s' = None)
  /\ (forall id, id ∉ Obj.keys (Room.players duel_room) ->
        sockets s' !! id = sockets duel_started !! id)
  /\ out = [("ABC123", room_destroyed "player-left")]
  /\ destroyRoom "ABC123" "player-left" s' = (s', []).
Proof.
  exact (destroyRoom_tears_down duel_started "ABC123" "player-left" duel_room
           duel_started_room).
Defined.

(** X18. A leave-room event destroys the room when the sender is one of
    its players, and changes nothing (and emits nothing) when the sender
    is not. *)
Theorem leave_room_only_for_members s me code so room :
  sockets s !! me = Some so ->
  rooms s !! code = Some room ->
  let '(s', out) := step (message me (ev_leave_room code)) s in
  match Obj.get (Room.players room) me with
  | Some _ =>
      rooms s' = delete code (rooms s)
      /\ out = [(code, room_destroyed "player-left")]
  | None => s' = s /\ out = []
  end.
Proof.
  intros Hso Hr. simpl. rewrite Hso. simpl. unfold on_leave_room. rewrite Hr.
  destruct (Obj.get (Room.players room) me); [|done].
  pose proof (rooms_destroyRoom code "player-left" s) as H1.
  assert (snd (destroyRoom code "player-left" s)
          = [(code, room_destroyed "player-left")]) as H2
    by (unfold destroyRoom; by rewrite Hr).
  destruct (destroyRoom code "player-left" s) as [s' out]. simpl in *. done.
Qed.

Lemma leave_room_only_for_members_witness :
  let '(s', out) := step (message "C" (ev_leave_room "ABC123")) two_rooms in
  match Obj.get (Room.players duel_room) "C" with
  | Some _ =>
      rooms s' = delete "ABC123" (rooms two_rooms)
      /\ out = [("ABC123", room_destroyed "player-left")]
  | None => s' = two_rooms /\ out = []
  end.
Proof.
  apply (leave_room_only_for_members two_rooms "C" "ABC123"
           (Socket.mk (Socket.mkData (Some "XYZ789") None None) 0) duel_room).
  - vm_compute. reflexivity.
  - vm_compute. reflexivity.
Defined.

Lemma filter_ready_none (l : list Player.t) :
  Forall (fun q => Player.ready q = false) l ->
  filter (fun pl => Player.ready pl = true) l = [].
Proof.
  induction 1 as [|q l Hq _ IH]; [done|].
  rewrite filter_cons_False by (rewrite Hq; done). exact IH.
Qed.

Lemma ready_count_after_first_commit (o : Obj.t Player.t) me p' :
  NoDup (Obj.keys o) ->
  (forall id q, (id, q) ∈ o -> id <> me -> Player.ready q = false) ->
  length (filter (fun pl => Player.ready pl = true) (Obj.values (Obj.set o me p')))
  <= 1.
Proof.
  unfold Obj.keys, Obj.values.
  induction o as [|[k v] o IH]; intros Hnd Hothers; simpl.
  - destruct (decide (Player.ready p' = true)).
    + rewrite filter_cons_True by done. simpl. lia.
    + rewrite filter_cons_False by done. simpl. lia.
  - simpl in Hnd. apply NoDup_cons in Hnd as [Hk Hnd].
    destruct (String.eqb k me) eqn:E.
    + apply String.eqb_eq in E as ->. simpl.
      assert (filter (fun pl => Player.ready pl = true) (map snd o) = []) as Hnone.
      { apply filter_ready_none, Forall_forall. intros q Hq.
        apply list_elem_of_fmap in Hq as ([id q'] & -> & Hin). simpl.
        rewrite (Hothers id q'); [done|by apply elem_of_cons; right|].
        intros ->. apply Hk. apply list_elem_of_fmap. by exists (me, q'). }
      destruct (decide (Player.ready p' = true)).
      * rewrite filter_cons_True by done. rewrite Hnone. simpl. lia.
      * rewrite filter_cons_False by done. rewrite Hnone. simpl. lia.
    + apply String.eqb_neq in E. simpl.
      rewrite filter_cons_False
        by (rewrite (Hothers k v); [done|by apply elem_of_cons; left|done]).
      apply IH; [done|]. intros id q Hin. apply Hothers. by apply elem_of_cons; right.
Qed.

(** X19. In a reachable state, an accepted set-secret by a player while
    no other player of the room is ready (the first commit of a round)
    leaves turnIndex and winner as they are. *)
Theorem first_commit_keeps_turn s me code secret coin room p so :
  reachable s ->
  sockets s !! me = Some so ->
  rooms s !! code = Some room ->
  Obj.get (Room.players room) me = Some p ->
  Js.test_4digits secret = true ->
  (forall id q, (id, q) ∈ Room.players room -> id <> me -> Player.ready q = false) ->
  let s' := fst (step (message me (ev_set_secret code secret coin)) s) in
  exists room', rooms s' !! code = Some room'
    /\ Room.turnIndex room' = Room.turnIndex room
    /\ Room.winner room' = Room.winner room
    /\ Obj.get (Room.players room') me
       = Some (Player.mk (Player.name p) (Some secret) true).
Proof.
  intros Hs Hso Hr Hp Ht Hothers s'.
  destruct (reachable_rooms_wf s Hs _ _ Hr) as (_ & Hnd & _).
  unfold s'. simpl. rewrite Hso. simpl. unfold on_set_secret.
  rewrite Hr, Hp, Ht. cbn [negb fst rooms with_rooms].
  rewrite lookup_insert_eq. eexists. split; [reflexivity|].
  pose proof (ready_count_after_first_commit (Room.players room) me
                (Player.mk (Player.name p) (Some secret) true) Hnd Hothers) as Hc.
  cbn [Room.players Room.with_players].
  destruct (length (filter _ _) =? 2)%nat eqn:E.
  - apply Nat.eqb_eq in E. lia.
  - cbn [andb]. split_and!; try reflexivity. apply obj_get_set_eq.
Qed.

Lemma duel_joined_reachable : reachable duel_joined.
Proof. apply reachable_run, reachable_init. Qed.

Lemma duel_joined_room : rooms duel_joined !! "ABC123" = Some joined_room.
Proof. vm_compute. reflexivity. Qed.

Lemma first_commit_keeps_turn_witness :
  let s' :=
    fst (step (message "B" (ev_set_secret "ABC123" "5678" true)) duel_joined) in
  exists room', rooms s' !! "ABC123" = Some room'
    /\ Room.turnIndex room' = Room.turnIndex joined_room
    /\ Room.winner room' = Room.winner joined_room
    /\ Obj.get (Room.players room') "B"
       = Some (Player.mk (Player.name (Player.mk "bob" None false)) (Some "5678") true).
Proof.
  apply (first_commit_keeps_turn duel_joined "B" "ABC123" "5678" true joined_room
           (Player.mk "bob" None false)
           (Socket.mk (Socket.mkData (Some "ABC123") None None) 0)
           duel_joined_reachable).
  - vm_compute. reflexivity.
  - apply duel_joined_room.
  - reflexivity.
  - reflexivity.
  - intros id q Hin Hne. simpl in Hin.
    apply elem_of_cons in Hin as [[= -> ->]|Hin]; [reflexivity|].
    apply list_elem_of_singleton in Hin as [= -> ->]. done.
Defined.

(** X23. Two commits start the game: in a two-seat room whose two
    players are not ready, a well-formed set-secret by each in turn
    leaves both ready with their secrets, no winner, and turnIndex equal
    to the value drawn at the second commit (0 or 1). *)
Theorem two_commits_start_the_game s a b code room pa pb sa sb ca cb soa sob :
  sockets s !! a = Some soa ->
  sockets s !! b = Some sob ->
  rooms s !! code = Some room ->
  Room.players room = [(a, pa); (b, pb)] ->
  a <> b ->
  Player.ready pa = false -> Player.ready pb = false ->
  length (Room.order room) = 2 ->
  Js.test_4digits sa = true -> Js.test_4digits sb = true ->
  let s' := run [message a (ev_set_secret code sa ca);
                 message b (ev_set_secret code sb cb)] s in
  exists room', rooms s' !! code = Some room'
    /\ Room.players room'
       = [(a, Player.mk (Player.name pa) (Some sa) true);
          (b, Player.mk (Player.name pb) (Some sb) true)]
    /\ Room.turnIndex room' = Nat.b2n cb
    /\ Nat.b2n cb < 2
    /\ Room.winner room' = None
    /\ Room.order room' = Room.order room
    /\ Room.history room' = Room.history room.
Proof.
  intros Ha Hb Hr Hps Hab Hra Hrb Hlen Hsa Hsb s'.
  assert (String.eqb a b = false) as Eab by (by apply String.eqb_neq).
  unfold s', run. cbn [fold_left].
  assert (fst (step (message a (ev_set_secret code sa ca)) s)
          = with_rooms
              (<[code := Room.with_players
                           [(a, Player.mk (Player.name pa) (Some sa) true); (b, pb)]
                           room]> (rooms s)) s) as ->.
  { simpl. rewrite Ha. simpl. unfold on_set_secret. rewrite Hr, Hps.
    unfold Obj.get. simpl. rewrite String.eqb_refl. simpl. rewrite Hsa. simpl.
    rewrite filter_cons_False by (rewrite Hrb; done). simpl. done. }
  simpl. rewrite Hb. simpl. unfold on_set_secret. simpl.
  rewrite lookup_insert_eq. simpl.
  unfold Obj.get. simpl. rewrite Eab. simpl. rewrite String.eqb_refl. simpl.
  rewrite Hsb. simpl.
  rewrite Hlen. simpl.
  rewrite lookup_insert_eq. eexists. split; [reflexivity|]. simpl.
  split_and!; try reflexivity. destruct cb; simpl; lia.
Qed.

Lemma two_commits_start_the_game_witness :
  let s' := run [message "A" (ev_set_secret "ABC123" "1234" false);
                 message "B" (ev_set_secret "ABC123" "5678" true)] duel_joined in
  exists room', rooms s' !! "ABC123" = Some room'
    /\ Room.players room'
       = [("A", Player.mk "ann" (Some "1234") true);
          ("B", Player.mk "bob" (Some "5678") true)]
    /\ Room.turnIndex room' = Nat.b2n true
    /\ Nat.b2n true < 2
    /\ Room.winner room' = None
    /\ Room.order room' = Room.order joined_room
    /\ Room.history room' = Room.history joined_room.
Proof.
  apply (two_commits_start_the_game duel_joined "A" "B" "ABC123" joined_room
           (Player.mk "ann" None false) (Player.mk "bob" None false)
           "1234" "5678" false true
           (Socket.mk (Socket.mkData (Some "ABC123") None None) 0)
           (Socket.mk (Socket.mkData (Some "ABC123") None None) 0));
    try (vm_compute; reflexivity).
  discriminate.
Defined.

(** ** Leaving the queue *)

(** X20. In a reachable state a queue:leave event leaves the sender in
    no queue, with [queueMode] cleared; the rooms are untouched and the
    acknowledgement goes to the sender. *)
Theorem queue_leave_leaves_every_queue s me so :
  reachable s ->
  sockets s !! me = Some so ->
  let '(s', out) := step (message me ev_queue_leave) s in
  not_waiting s' me
  /\ get_data me Socket.queueMode s' = None
  /\ rooms s' = rooms s
  /\ out = [(me, ack_ok)].
Proof.
  intros Hs Hso. apply reachable_queues_ok in Hs.
  simpl. rewrite Hso. simpl. unfold on_queue_leave.
  rewrite (get_data_connected _ _ _ _ Hso).
  split_and!.
  - destruct (Js.truthy (Socket.queueMode (Socket.data_ so))) eqn:Ht.
    + destruct (Socket.queueMode (Socket.data_ so)) as [m|] eqn:Hm; [|done].
      simpl. exact (not_waiting_dequeue s m me so Hs Hso Hm).
    + assert (Js.truthy (get_data me Socket.queueMode s) = false) as Hf
        by (by rewrite (get_data_connected _ _ _ _ Hso)).
      exact (not_waiting_without_queueMode s me Hs Hf).
  - unfold get_data, set_data. cbn [sockets with_sockets].
    rewrite lookup_alter_eq.
    destruct (Js.truthy (Socket.queueMode (Socket.data_ so))); simpl;
      by rewrite Hso.
  - by destruct (Js.truthy (Socket.queueMode (Socket.data_ so))).
  - reflexivity.
Qed.

Lemma queue_leave_leaves_every_queue_witness :
  let '(s', out) := step (message "A" ev_queue_leave) one_waiting in
  not_waiting s' "A"
  /\ get_data "A" Socket.queueMode s' = None
  /\ rooms s' = rooms one_waiting
  /\ out = [("A", ack_ok)].
Proof.
  apply (queue_leave_leaves_every_queue one_waiting "A"
           (Socket.mk (Socket.mkData None (Some "CLASSIC") (Some "Player")) 1)
           one_waiting_reachable).
  vm_compute. reflexivity.
Defined.

(** ** Emissions *)

Lemma private_listener me mode name nano s t p :
  (t, p) ∈ snd (queue_join_listener me mode name nano s) ->
  is_private p = true -> t = me.
Proof.
  unfold queue_join_listener.
  destruct (queues s !! _).
  2: { simpl. intros H%list_elem_of_singleton. by injection H. }
  destruct (Js.truthy (get_data me Socket.roomCode s)).
  { simpl. intros H%list_elem_of_singleton. by injection H. }
  destruct (isInAnyQueue me s).
  { simpl. intros H%list_elem_of_singleton. by injection H. }
  destruct (popOpponent _ me _) as [opp s1].
  assert (forall t p, (t, p) ∈ [(me, ack_ok);
            (me, queue_joined (Js.toUpperCase (Js.or_else mode "CLASSIC")))] ->
            t = me) as Hout.
  { intros t' p'. rewrite !elem_of_cons, elem_of_nil.
    intros [[= -> ->]|[[= -> ->]|[]]]; done. }
  destruct (negb (Js.truthy opp)); [simpl; intros H _; by eapply Hout|].
  destruct (sockets _ !! _); [|simpl; intros H _; by eapply Hout].
  simpl. rewrite !elem_of_cons, elem_of_nil. intros H Hp.
  destruct H as [[= -> ->]|[[= -> ->]|[[= -> ->]|[[= -> ->]|[[= -> ->]|[]]]]]];
    done.
Qed.

Lemma private_run_listeners n f me s t p :
  (forall s t p, (t, p) ∈ snd (f s) -> is_private p = true -> t = me) ->
  (t, p) ∈ snd (run_listeners n f s) -> is_private p = true -> t = me.
Proof.
  intros Hf. revert s. induction n as [|n IH]; intros s; simpl.
  - intros H. by apply elem_of_nil in H.
  - pose proof (Hf s) as Hfs. destruct (f s) as [s1 o1].
    specialize (IH s1). destruct (run_listeners n f s1) as [s2 o2].
    simpl in *. rewrite elem_of_app. intros [H|H]; eauto.
Qed.

Lemma private_destroyRoom code reason s t p :
  (t, p) ∈ snd (destroyRoom code reason s) -> is_private p = true -> False.
Proof.
  unfold destroyRoom. destruct (rooms s !! code); simpl.
  - intros H%list_elem_of_singleton. injection H as -> ->. done.
  - intros H. by apply elem_of_nil in H.
Qed.

(** X21. Error messages, acknowledgements and queue:joined are only ever
    addressed to the socket whose event is being handled. *)
Theorem private_emissions_go_to_sender i s t p :
  (t, p) ∈ snd (step i s) ->
  is_private p = true ->
  exists e, i = message t e.
Proof.
  destruct i as [id|me e]; simpl.
  - destruct (sockets s !! id); simpl; intros H; by apply elem_of_nil in H.
  - destruct (sockets s !! me); [|simpl; intros H; by apply elem_of_nil in H].
    intros Hin Hp. exists e. f_equal.
    destruct e; simpl in Hin.
    + unfold on_create_room in Hin. simpl in Hin.
      rewrite !elem_of_cons, elem_of_nil in Hin.
      destruct Hin as [[= -> ->]|[[= -> ->]|[]]]; done.
    + unfold on_join_room in Hin.
      destruct (rooms _ !! _); [destruct (2 <=? _)%nat|]; simpl in Hin;
        rewrite !elem_of_cons, elem_of_nil in Hin;
        repeat (destruct Hin as [[= -> ->]|Hin]; [done|]); done.
    + unfold on_set_secret in Hin.
      destruct (rooms s !! code); [|by apply elem_of_nil in Hin].
      destruct (Obj.get _ me); [|by apply elem_of_nil in Hin].
      destruct (negb (Js.test_4digits secret)); [by apply elem_of_nil in Hin|].
      simpl in Hin. apply list_elem_of_singleton in Hin. injection Hin as -> ->. done.
    + unfold on_guess in Hin.
      destruct (rooms s !! code) as [room|]; [|by apply elem_of_nil in Hin].
      destruct (Js.truthy (Room.winner room)); [by apply elem_of_nil in Hin|].
      destruct (negb (bool_decide _)); [by apply elem_of_nil in Hin|].
      destruct (negb (Js.test_4digits guess)).
      { simpl in Hin. apply list_elem_of_singleton in Hin. by injection Hin. }
      destruct (negb (Js.truthy (_ ≫= _))).
      { simpl in Hin. apply list_elem_of_singleton in Hin. by injection Hin. }
      cbn [snd] in Hin. apply elem_of_app in Hin as [Hin|Hin].
      * destruct (_ =? 4)%nat; [|by apply elem_of_nil in Hin].
        apply list_elem_of_singleton in Hin. injection Hin as -> ->. done.
      * rewrite !elem_of_cons, elem_of_nil in Hin.
        destruct Hin as [[= -> ->]|[[= -> ->]|[]]]; done.
    + unfold on_queue_join in Hin. destruct (sockets s !! me).
      * symmetry. eapply private_run_listeners; [|exact Hin|exact Hp].
        intros. by eapply private_listener.
      * by apply elem_of_nil in Hin.
    + unfold on_queue_leave in Hin. simpl in Hin.
      apply list_elem_of_singleton in Hin. by injection Hin.
    + unfold on_reset_room in Hin.
      destruct (rooms s !! code); [|by apply elem_of_nil in Hin].
      destruct (_ <? 2)%nat; [by destruct (private_destroyRoom _ _ _ _ _ Hin Hp)|].
      simpl in Hin. rewrite !elem_of_cons, elem_of_nil in Hin.
      destruct Hin as [[= -> ->]|[[= -> ->]|[]]]; done.
    + unfold on_leave_room in Hin.
      destruct (rooms s !! code); [|by apply elem_of_nil in Hin].
      destruct (Obj.get _ me); [|by apply elem_of_nil in Hin].
      by destruct (private_destroyRoom _ _ _ _ _ Hin Hp).
    + unfold on_disconnecting in Hin.
      set (s1 := if Js.truthy _ then _ else s) in Hin. clearbody s1.
      destruct (_ && _); cbn [fst snd] in Hin.
      * pose proof (private_destroyRoom (default "" (get_data me Socket.roomCode s1))
                      "player-left" s1 t p) as Hd.
        destruct (destroyRoom _ _ s1). simpl in *. by destruct (Hd Hin Hp).
      * by apply elem_of_nil in Hin.
Qed.

Lemma private_emissions_go_to_sender_witness :
  ("A", error_msg "Guess must be 4 digits.")
    ∈ snd (step (message "A" (ev_guess "ABC123" "12" 7%Z)) duel_started)
  /\ exists e, message "A" (ev_guess "ABC123" "12" 7%Z) = message "A" e.
Proof.
  assert (("A", error_msg "Guess must be 4 digits.")
            ∈ snd (step (message "A" (ev_guess "ABC123" "12" 7%Z)) duel_started)) as H
    by (vm_compute; apply list_elem_of_singleton; reflexivity).
  exact (conj H (private_emissions_go_to_sender _ duel_started "A" _ H eq_refl)).
Defined.

(** ** Where rooms come from *)

Lemma adds_only_same d s s' : rooms s' = rooms s -> adds_only d s s'.
Proof. intros H c. rewrite H. by left. Qed.

Lemma adds_only_trans d s1 s2 s3 :
  adds_only d s1 s2 -> adds_only d s2 s3 -> adds_only d s1 s3.
Proof. intros H12 H23 c H. destruct (H23 c H) as [?|?]; [by apply H12|by right]. Qed.

Lemma adds_only_update d s s' key room :
  is_Some (rooms s !! key) \/ d = Some key ->
  rooms s' = <[key := room]> (rooms s) -> adds_only d s s'.
Proof.
  intros Hk Hr c. rewrite Hr. destruct (decide (key = c)) as [<-|Hne].
  - intros _. exact Hk.
  - rewrite lookup_insert_ne by done. by left.
Qed.

Lemma adds_only_destroyRoom d code reason s :
  adds_only d s (fst (destroyRoom code reason s)).
Proof.
  intros c. rewrite rooms_destroyRoom. intros [r Hr].
  apply lookup_delete_Some in Hr as [_ Hr]. left. eauto.
Qed.

Lemma adds_only_listener me mode name nano s :
  adds_only (Some (Js.toUpperCase nano)) s
    (fst (queue_join_listener me mode name nano s)).
Proof.
  unfold queue_join_listener.
  destruct (queues s !! _); [|by apply adds_only_same].
  destruct (Js.truthy (get_data me Socket.roomCode s)); [by apply adds_only_same|].
  destruct (isInAnyQueue me s); [by apply adds_only_same|].
  match goal with
  | |- context [popOpponent ?m ?e ?x] =>
      pose proof (rooms_popOpponent m e x) as Hpop;
      destruct (popOpponent m e x) as [opp s1]
  end.
  cbn [snd] in Hpop.
  assert (rooms s1 = rooms s) as Hpop' by exact Hpop. clear Hpop.
  destruct (negb (Js.truthy opp)); [by apply adds_only_same|].
  destruct (sockets (dequeue _ me s1) !! _) as [oppSocket|].
  - unfold makeRoom. cbn [fst snd].
    eapply adds_only_update; [by right|].
    cbn [rooms with_rooms set_data with_sockets dequeue with_queues Room.code].
    by rewrite insert_insert_eq, Hpop'.
  - by apply adds_only_same.
Qed.

Lemma adds_only_run_listeners d n f s :
  (forall s, adds_only d s (fst (f s))) ->
  adds_only d s (fst (run_listeners n f s)).
Proof.
  intros Hf. revert s. induction n as [|n IH]; intros s; simpl.
  - by apply adds_only_same.
  - specialize (Hf s). destruct (f s) as [s1 o1]. simpl in Hf.
    specialize (IH s1). destruct (run_listeners n f s1). simpl in *.
    by eapply adds_only_trans.
Qed.

(** X22. A step registers no room except under the code drawn for it: a
    code registered after the step was registered before, or is the
    uppercased nanoid value of a create-room or queue:join event. *)
Theorem rooms_appear_only_under_drawn_code i s c :
  is_Some (rooms (fst (step i s)) !! c) ->
  is_Some (rooms s !! c) \/ drawn_code i = Some c.
Proof.
  revert c. change (adds_only (drawn_code i) s (fst (step i s))).
  destruct i as [id|me e]; simpl.
  - destruct (sockets s !! id); by apply adds_only_same.
  - destruct (sockets s !! me); [|by apply adds_only_same].
    destruct e; simpl.
    + unfold on_create_room, makeRoom. cbn [fst snd].
      eapply adds_only_update; [by right|].
      cbn [rooms with_rooms set_data with_sockets Room.code].
      by rewrite insert_insert_eq, rooms_leave_queue_first.
    + unfold on_join_room.
      destruct (rooms (leave_queue_first me s) !! _) as [room|] eqn:Hr;
        [|apply adds_only_same, rooms_leave_queue_first].
      destruct (2 <=? _)%nat; [apply adds_only_same, rooms_leave_queue_first|].
      eapply adds_only_update.
      * left. rewrite <- (rooms_leave_queue_first me s). eauto.
      * cbn [fst rooms with_rooms set_data with_sockets].
        by rewrite rooms_leave_queue_first.
    + unfold on_set_secret.
      destruct (rooms s !! code) as [room|] eqn:Hr; [|by apply adds_only_same].
      destruct (Obj.get _ me); [|by apply adds_only_same].
      destruct (negb (Js.test_4digits secret)); [by apply adds_only_same|].
      eapply adds_only_update; [left; eauto|done].
    + unfold on_guess.
      destruct (rooms s !! code) as [room|] eqn:Hr; [|by apply adds_only_same].
      destruct (Js.truthy (Room.winner room)); [by apply adds_only_same|].
      destruct (negb (bool_decide _)); [by apply adds_only_same|].
      destruct (negb (Js.test_4digits guess)); [by apply adds_only_same|].
      destruct (negb (Js.truthy (_ ≫= _))); [by apply adds_only_same|].
      eapply adds_only_update; [left; eauto|done].
    + unfold on_queue_join. destruct (sockets s !! me); [|by apply adds_only_same].
      apply adds_only_run_listeners. intros. apply adds_only_listener.
    + unfold on_queue_leave. apply adds_only_same. simpl.
      by destruct (Js.truthy _).
    + unfold on_reset_room.
      destruct (rooms s !! code) as [room|] eqn:Hr; [|by apply adds_only_same].
      destruct (_ <? 2)%nat; [apply adds_only_destroyRoom|].
      eapply adds_only_update; [left; eauto|done].
    + unfold on_leave_room.
      destruct (rooms s !! code); [|by apply adds_only_same].
      destruct (Obj.get _ me); [|by apply adds_only_same].
      apply adds_only_destroyRoom.
    + intros c [r Hr]. left. exists r.
      destruct (on_disconnecting me s) as [s1 o1] eqn:E. simpl in Hr.
      unfold on_disconnect in Hr. rewrite rooms_sweep in Hr.
      apply (rooms_on_disconnecting me s). by rewrite E.
Qed.

Lemma rooms_appear_only_under_drawn_code_witness :
  is_Some (rooms (fst (step (message "C" (ev_create_room None None "xyz789"))
                         (run [connection "C"] duel_started))) !! "XYZ789")
  /\ (is_Some (rooms (run [connection "C"] duel_started) !! "XYZ789")
      \/ drawn_code (message "C" (ev_create_room None None "xyz789")) = Some "XYZ789").
Proof.
  assert (is_Some (rooms (fst (step (message "C" (ev_create_room None None "xyz789"))
                                 (run [connection "C"] duel_started))) !! "XYZ789"))
    as H by (vm_compute; eauto).
  exact (conj H (rooms_appear_only_under_drawn_code _ _ _ H)).
Defined.

(** ** Creating and joining *)

Lemma upper_char_idempotent (c : ascii) :
  Js.upper_char (Js.upper_char c) = Js.upper_char c.
Proof. destruct c as [[] [] [] [] [] [] [] []]; reflexivity. Qed.

Lemma toUpperCase_idempotent (s : string) :
  Js.toUpperCase (Js.toUpperCase s) = Js.toUpperCase s.
Proof.
  induction s as [|c s IH]; simpl; [done|].
  by rewrite IH, upper_char_idempotent.
Qed.

Lemma sockets_leave_queue_first me s id :
  is_Some (sockets (leave_queue_first me s) !! id) <-> is_Some (sockets s !! id).
Proof.
  unfold leave_queue_first. destruct (Js.truthy _); [|done].
  unfold set_data, dequeue. cbn [sockets with_sockets with_queues].
  destruct (decide (me = id)) as [<-|Hne].
  - rewrite lookup_alter_eq. by rewrite fmap_is_Some.
  - by rewrite lookup_alter_ne.
Qed.

Lemma roomCode_leave_queue_first me s id :
  get_data id Socket.roomCode (leave_queue_first me s) = get_data id Socket.roomCode s.
Proof.
  unfold leave_queue_first. destruct (Js.truthy _); [|done].
  unfold get_data, set_data, dequeue. cbn [sockets with_sockets with_queues].
  destruct (decide (me = id)) as [<-|Hne].
  - rewrite lookup_alter_eq. by destruct (sockets s !! me).
  - by rewrite lookup_alter_ne.
Qed.

(** X9. Create then join, for ASCII names, mode and codes: after a
    connected socket creates a room and another connected socket joins
    with the acknowledged code in any letter case, the room is registered
    under the uppercased code with exactly these two players in join
    order, no secret, nobody ready, turnIndex 0, no winner and an empty
    history; both sockets have it as [roomCode]. *)
Theorem create_then_join s a b name_a mode nano code name_b soa sob :
  Js.ascii_opt name_a = true ->
  Js.ascii_opt mode = true ->
  Js.ascii_only nano = true ->
  Js.ascii_opt code = true ->
  Js.ascii_opt name_b = true ->
  a <> b ->
  sockets s !! a = Some soa ->
  sockets s !! b = Some sob ->
  Js.toUpperCase (Js.or_else code "") = Js.toUpperCase nano ->
  let s' := run [message a (ev_create_room name_a mode nano);
                 message b (ev_join_room code name_b)] s in
  let C := Js.toUpperCase nano in
  rooms s' !! C
  = Some (Room.mk C (Js.toUpperCase (Js.or_else mode "CLASSIC"))
            [(a, Player.mk (Js.trimmed_or name_a "Player A") None false);
             (b, Player.mk (Js.trimmed_or name_b "Player B") None false)]
            [a; b] 0 None [])
  /\ get_data a Socket.roomCode s' = Some C
  /\ get_data b Socket.roomCode s' = Some C.
Proof.
  intros _ _ _ _ _ Hab Ha Hb Hcode s' C.
  assert (String.eqb a b = false) as Eab by (by apply String.eqb_neq).
  unfold s', run. cbn [fold_left].
  set (s1 := fst (step (message a (ev_create_room name_a mode nano)) s)).
  assert (rooms s1 !! C
          = Some (Room.mk C (Js.toUpperCase (Js.or_else mode "CLASSIC"))
                    [(a, Player.mk (Js.trimmed_or name_a "Player A") None false)]
                    [a] 0 None [])
          /\ get_data a Socket.roomCode s1 = Some C
          /\ is_Some (sockets s1 !! b)) as (Hr1 & Hc1 & Hb1).
  { unfold s1. simpl. rewrite Ha. unfold on_create_room, makeRoom. cbn [fst snd].
    split_and!.
    - cbn [rooms with_rooms set_data with_sockets Room.code]. by rewrite lookup_insert_eq.
    - unfold get_data, set_data. cbn [sockets with_sockets with_rooms].
      rewrite lookup_alter_eq.
      destruct (sockets_leave_queue_first a s a) as [_ H].
      destruct (H (ex_intro _ soa Ha)) as [so' ->]. done.
    - unfold set_data. cbn [sockets with_sockets with_rooms].
      rewrite lookup_alter_ne by done. apply sockets_leave_queue_first. eauto. }
  clearbody s1. destruct Hb1 as [sob1 Hb1].
  simpl. rewrite Hb1. unfold on_join_room. rewrite Hcode. fold C.
  rewrite rooms_leave_queue_first, Hr1. cbn [Room.players Obj.keys map length].
  cbn [Nat.leb fst]. split_and!.
  - cbn [rooms with_rooms set_data with_sockets]. rewrite lookup_insert_eq.
    simpl. by rewrite Eab.
  - unfold get_data, set_data. cbn [sockets with_sockets with_rooms].
    rewrite lookup_alter_ne by done.
    pose proof (roomCode_leave_queue_first b s1 a) as H.
    unfold get_data in H. rewrite H. exact Hc1.
  - unfold get_data, set_data. cbn [sockets with_sockets with_rooms].
    rewrite lookup_alter_eq.
    destruct (sockets_leave_queue_first b s1 b) as [_ H].
    destruct (H (ex_intro _ sob1 Hb1)) as [so' ->]. done.
Qed.

Lemma create_then_join_witness :
  (Js.ascii_opt (Some " ann ") = true
   /\ Js.ascii_opt (Some "reveal_digits") = true
   /\ Js.ascii_only "abc123" = true
   /\ Js.ascii_opt (Some "aBc123") = true
   /\ Js.ascii_opt None = true)
  /\
  let s' := run [message "A" (ev_create_room (Some " ann ") (Some "reveal_digits") "abc123");
                 message "B" (ev_join_room (Some "aBc123") None)] two_idle in
  let C := Js.toUpperCase "abc123" in
  rooms s' !! C
  = Some (Room.mk C (Js.toUpperCase (Js.or_else (Some "reveal_digits") "CLASSIC"))
            [("A", Player.mk (Js.trimmed_or (Some " ann ") "Player A") None false);
             ("B", Player.mk (Js.trimmed_or None "Player B") None false)]
            ["A"; "B"] 0 None [])
  /\ get_data "A" Socket.roomCode s' = Some C
  /\ get_data "B" Socket.roomCode s' = Some C.
Proof.
  split; [repeat split; reflexivity|].
  apply (create_then_join two_idle "A" "B" (Some " ann ") (Some "reveal_digits")
           "abc123" (Some "aBc123") None Socket.fresh Socket.fresh);
    try (vm_compute; reflexivity).
  discriminate.
Defined.

(** ** The earlier server's disconnect *)



(** ** Histories *)

Lemma old_or_empty_same s s' : rooms s' = rooms s -> old_or_empty s s'.
Proof. intros H c r. rewrite H. by left. Qed.

Lemma old_or_empty_trans s1 s2 s3 :
  old_or_empty s1 s2 -> old_or_empty s2 s3 -> old_or_empty s1 s3.
Proof. intros H12 H23 c r H. destruct (H23 c r H) as [?|?]; [by apply H12|by right]. Qed.

Lemma old_or_empty_kept s s' : old_or_empty s s' -> history_kept s s'.
Proof.
  intros H c room room' Hr Hr'. destruct (H c room' Hr') as [Hsame|?]; [|by right].
  left. rewrite Hr in Hsame. by injection Hsame as ->.
Qed.

Lemma history_kept_update s s' key room' :
  rooms s' = <[key := room']> (rooms s) ->
  (forall room, rooms s !! key = Some room ->
     Room.history room `prefix_of` Room.history room' \/ Room.history room' = []) ->
  history_kept s s'.
Proof.
  intros Hr Hk c room r' Hc Hc'. rewrite Hr in Hc'.
  destruct (decide (key = c)) as [<-|Hne].
  - rewrite lookup_insert_eq in Hc'. injection Hc' as <-. by apply Hk.
  - rewrite lookup_insert_ne in Hc' by done. left.
    rewrite Hc in Hc'. by injection Hc' as ->.
Qed.

Lemma history_kept_destroyRoom code reason s :
  history_kept s (fst (destroyRoom code reason s)).
Proof.
  intros c room room' Hr. rewrite rooms_destroyRoom. intros Hr'.
  apply lookup_delete_Some in Hr' as [_ Hr']. left.
  rewrite Hr in Hr'. by injection Hr' as ->.
Qed.

Lemma old_or_empty_listener me mode name nano s :
  old_or_empty s (fst (queue_join_listener me mode name nano s)).
Proof.
  unfold queue_join_listener.
  destruct (queues s !! _); [|by apply old_or_empty_same].
  destruct (Js.truthy (get_data me Socket.roomCode s)); [by apply old_or_empty_same|].
  destruct (isInAnyQueue me s); [by apply old_or_empty_same|].
  match goal with
  | |- context [popOpponent ?m ?e ?x] =>
      pose proof (rooms_popOpponent m e x) as Hpop;
      destruct (popOpponent m e x) as [opp s1]
  end.
  cbn [snd] in Hpop.
  assert (rooms s1 = rooms s) as Hpop' by exact Hpop. clear Hpop.
  destruct (negb (Js.truthy opp)); [by apply old_or_empty_same|].
  destruct (sockets (dequeue _ me s1) !! _) as [oppSocket|].
  - unfold makeRoom. cbn [fst snd]. intros c r.
    cbn [rooms with_rooms set_data with_sockets dequeue with_queues Room.code].
    rewrite insert_insert_eq, Hpop'.
    destruct (decide (Js.toUpperCase nano = c)) as [<-|Hne].
    + rewrite lookup_insert_eq. intros [= <-]. by right.
    + rewrite lookup_insert_ne by done. by left.
  - by apply old_or_empty_same.
Qed.

Lemma old_or_empty_run_listeners n f s :
  (forall s, old_or_empty s (fst (f s))) ->
  old_or_empty s (fst (run_listeners n f s)).
Proof.
  intros Hf. revert s. induction n as [|n IH]; intros s; simpl.
  - by apply old_or_empty_same.
  - specialize (Hf s). destruct (f s) as [s1 o1]. simpl in Hf.
    specialize (IH s1). destruct (run_listeners n f s1). simpl in *.
    by eapply old_or_empty_trans.
Qed.

(** X24. Within one step the history of a room that stays registered
    under its code is either extended at the tail (possibly by nothing)
    or emptied: no step rewrites or drops earlier entries of a history
    it keeps. *)
Theorem history_is_extended_or_emptied i s c room room' :
  rooms s !! c = Some room ->
  rooms (fst (step i s)) !! c = Some room' ->
  Room.history room `prefix_of` Room.history room' \/ Room.history room' = [].
Proof.
  revert c room room'. change (history_kept s (fst (step i s))).
  destruct i as [id|me e]; simpl.
  - destruct (sockets s !! id); by apply old_or_empty_kept, old_or_empty_same.
  - destruct (sockets s !! me); [|by apply old_or_empty_kept, old_or_empty_same].
    destruct e; simpl.
    + unfold on_create_room, makeRoom. cbn [fst snd].
      eapply history_kept_update.
      * cbn [rooms with_rooms set_data with_sockets Room.code].
        by rewrite insert_insert_eq, rooms_leave_queue_first.
      * intros. by right.
    + unfold on_join_room.
      destruct (rooms (leave_queue_first me s) !! _) as [room|] eqn:Hr;
        [|apply old_or_empty_kept, old_or_empty_same, rooms_leave_queue_first].
      destruct (2 <=? _)%nat;
        [apply old_or_empty_kept, old_or_empty_same, rooms_leave_queue_first|].
      eapply history_kept_update.
      * cbn [fst rooms with_rooms set_data with_sockets].
        by rewrite rooms_leave_queue_first.
      * rewrite rooms_leave_queue_first in Hr. intros r0 Hr0.
        rewrite Hr in Hr0. injection Hr0 as <-. by left.
    + unfold on_set_secret.
      destruct (rooms s !! code) as [room|] eqn:Hr;
        [|by apply old_or_empty_kept, old_or_empty_same].
      destruct (Obj.get _ me); [|by apply old_or_empty_kept, old_or_empty_same].
      destruct (negb (Js.test_4digits secret));
        [by apply old_or_empty_kept, old_or_empty_same|].
      eapply history_kept_update; [done|].
      intros r0 Hr0. rewrite Hr in Hr0. injection Hr0 as <-. left.
      by destruct (_ && _).
    + unfold on_guess.
      destruct (rooms s !! code) as [room|] eqn:Hr;
        [|by apply old_or_empty_kept, old_or_empty_same].
      destruct (Js.truthy (Room.winner room));
        [by apply old_or_empty_kept, old_or_empty_same|].
      destruct (negb (bool_decide _));
        [by apply old_or_empty_kept, old_or_empty_same|].
      destruct (negb (Js.test_4digits guess));
        [by apply old_or_empty_kept, old_or_empty_same|].
      destruct (negb (Js.truthy (_ ≫= _)));
        [by apply old_or_empty_kept, old_or_empty_same|].
      eapply history_kept_update; [done|].
      intros r0 Hr0. rewrite Hr in Hr0. injection Hr0 as <-. left.
      destruct (_ =? 4)%nat; simpl; by apply prefix_app_r.
    + unfold on_queue_join.
      destruct (sockets s !! me); [|by apply old_or_empty_kept, old_or_empty_same].
      apply old_or_empty_kept, old_or_empty_run_listeners.
      intros. apply old_or_empty_listener.
    + unfold on_queue_leave. apply old_or_empty_kept, old_or_empty_same. simpl.
      by destruct (Js.truthy _).
    + unfold on_reset_room.
      destruct (rooms s !! code) as [room|] eqn:Hr;
        [|by apply old_or_empty_kept, old_or_empty_same].
      destruct (_ <? 2)%nat; [apply history_kept_destroyRoom|].
      eapply history_kept_update; [done|]. intros. by right.
    + unfold on_leave_room.
      destruct (rooms s !! code); [|by apply old_or_empty_kept, old_or_empty_same].
      destruct (Obj.get _ me); [|by apply old_or_empty_kept, old_or_empty_same].
      apply history_kept_destroyRoom.
    + apply old_or_empty_kept. intros c r Hr. left.
      destruct (on_disconnecting me s) as [s1 o1] eqn:E. simpl in Hr.
      unfold on_disconnect in Hr. rewrite rooms_sweep in Hr.
      apply (rooms_on_disconnecting me s). by rewrite E.
Qed.

Lemma history_is_extended_or_emptied_witness :
  rooms duel_started !! "ABC123" = Some duel_room /\
  rooms (fst (step (message "A" (ev_guess "ABC123" "5678" 1000%Z)) duel_started))
    !! "ABC123" = Some won_room /\
  (Room.history duel_room `prefix_of` Room.history won_room
   \/ Room.history won_room = []).
Proof.
  assert (rooms (fst (step (message "A" (ev_guess "ABC123" "5678" 1000%Z))
                        duel_started)) !! "ABC123" = Some won_room) as H2
    by (vm_compute; reflexivity).
  exact (conj duel_started_room (conj H2
    (history_is_extended_or_emptied _ duel_started "ABC123" duel_room won_room
       duel_started_room H2))).
Defined.

(** ** The queue:join listener, continued *)

Lemma two_registered_joiners_are_paired_witness :
  let s' := run [message "A" (ev_queue_join (Some "classic") None "q1w2e3");
                 message "B" (ev_queue_join (Some "classic") None "r4t5y6")]
                after_duel in
  exists room,
    rooms s' = <[Js.toUpperCase "r4t5y6" := room]> (rooms after_duel)
    /\ Room.code room = Js.toUpperCase "r4t5y6"
    /\ Room.order room = ["B"; "A"]
    /\ Obj.keys (Room.players room) = ["B"; "A"]
    /\ isInAnyQueue "A" s' = false
    /\ isInAnyQueue "B" s' = false.
Proof.
  apply (two_registered_joiners_are_paired after_duel "A" "B" (Some "classic")
           None None "q1w2e3" "r4t5y6"
           (Socket.mk (Socket.mkData None None None) 1)
           (Socket.mk (Socket.mkData None None None) 1));
    try (vm_compute; reflexivity); try discriminate; simpl; lia.
Defined.

Lemma listeners_only_by_own_guess_witness :
  listeners_of (fst (on_message "A" ev_queue_leave after_duel)) "A"
  = listeners_of after_duel "A".
Proof.
  apply (listeners_only_by_own_guess "A" ev_queue_leave after_duel "A").
  - intros code g now _. discriminate.
  - discriminate.
Defined.

(** X28. A guess that is scored (one more entry in the room's history)
    registers exactly one more [queue:join] listener on the guessing
    socket; a guess that changes nothing registers none. *)
Theorem scored_guess_adds_one_listener s me code g now so :
  sockets s !! me = Some so ->
  let s' := fst (step (message me (ev_guess code g now)) s) in
  (s' = s /\ listeners_of s' me = Some (Socket.queueJoinListeners so))
  \/ (exists room room',
        rooms s !! code = Some room
        /\ rooms s' !! code = Some room'
        /\ length (Room.history room') = S (length (Room.history room))
        /\ listeners_of s' me = Some (S (Socket.queueJoinListeners so))).
Proof.
  intros Hso s'. unfold s'. simpl. rewrite Hso. simpl. unfold on_guess.
  assert (listeners_of s me = Some (Socket.queueJoinListeners so)) as Hl
    by (unfold listeners_of; by rewrite Hso).
  destruct (rooms s !! code) as [room|] eqn:Hr; [|by left].
  destruct (Js.truthy (Room.winner room)); [by left|].
  destruct (negb (bool_decide _)); [by left|].
  destruct (negb (Js.test_4digits g)); [by left|].
  destruct (negb (Js.truthy (_ ≫= _))); [by left|].
  right. exists room. eexists. split_and!; try reflexivity.
  - cbn [fst rooms with_rooms with_sockets]. by rewrite lookup_insert_eq.
  - destruct (_ =? 4)%nat; simpl; rewrite length_app; simpl; lia.
  - unfold listeners_of. cbn [fst sockets with_sockets with_rooms].
    by rewrite lookup_alter_eq, Hso.
Qed.

Lemma scored_guess_adds_one_listener_witness :
  let s' := fst (step (message "A" (ev_guess "ABC123" "5178" 7%Z)) duel_started) in
  (s' = duel_started /\ listeners_of s' "A" = Some 0)
  \/ (exists room room',
        rooms duel_started !! "ABC123" = Some room
        /\ rooms s' !! "ABC123" = Some room'
        /\ length (Room.history room') = S (length (Room.history room))
        /\ listeners_of s' "A" = Some (S 0)).
Proof.
  apply (scored_guess_adds_one_listener duel_started "A" "ABC123" "5178" 7%Z
           (Socket.mk (Socket.mkData (Some "ABC123") None None) 0)).
  vm_compute. reflexivity.
Defined.

(** ** Stored secrets *)

(** X29. In the states reached by the events of the model, whose
    set-secret payloads are strings, a stored secret is a string that
    the handler's [/^\d{4}$/] test accepted: exactly four digits. *)
Theorem reachable_secret_four_digits s code room id p sec :
  reachable s ->
  rooms s !! code = Some room ->
  Obj.get (Room.players room) id = Some p ->
  Player.secret p = Some sec ->
  exists a b c d,
    sec = String a (String b (String c (String d EmptyString)))
    /\ Js.is_digit a = true /\ Js.is_digit b = true
    /\ Js.is_digit c = true /\ Js.is_digit d = true.
Proof.
  intros Hs Hr Hp Hsec.
  destruct (reachable_rooms_wf s Hs _ _ Hr) as (_ & _ & _ & _ & Hps & _).
  apply obj_get_elem in Hp.
  rewrite Forall_forall in Hps. specialize (Hps _ Hp). simpl in Hps.
  unfold player_wf in Hps. rewrite Hsec in Hps. destruct Hps as [H4 _].
  unfold Js.test_4digits in H4.
  destruct sec as [|a [|b [|c [|d [|e r]]]]]; simpl in H4; try discriminate.
  exists a, b, c, d. split; [reflexivity|].
  destruct (Js.is_digit a), (Js.is_digit b), (Js.is_digit c), (Js.is_digit d);
    simpl in H4; try discriminate; done.
Qed.

Lemma reachable_secret_four_digits_witness :
  Obj.get (Room.players duel_room) "B" = Some (Player.mk "bob" (Some "5678") true) /\
  exists a b c d,
    "5678" = String a (String b (String c (String d EmptyString)))
    /\ Js.is_digit a = true /\ Js.is_digit b = true
    /\ Js.is_digit c = true /\ Js.is_digit d = true.
Proof.
  split; [reflexivity|].
  exact (reachable_secret_four_digits duel_started "ABC123" duel_room "B" _ "5678"
           duel_started_reachable duel_started_room eq_refl eq_refl).
Defined.
